(** * ResourceRegistry cell: command pipeline, offline queue and replay

    A shallow embedding of [ResourceRegistry] (the cell class of
    CEL-RESOURCEREG-v0.1.0) and the properties of its pipeline, offline queue,
    retry path and listener registry.

    The class is a mutable object whose [async] methods run on a
    single-threaded event loop.  A method is modelled as a function from the
    world before the call to the way its promise settles and the world after
    it.  The world holds the object's private fields, the store of the queue
    entry objects (entries are shared between the queue and the snapshot that
    [sync] iterates, and [sync] mutates them in place), and a log of the calls
    that leave the object: listener callbacks, the audit and persistence hooks
    and the backoff timer.

    Conventions of the model:
    - numbers (sequence numbers, counters, milliseconds) are integers;
    - [Date.now()] and [Math.random()] are read from the host, one reading
      after the other;
    - listeners are observers: they neither throw nor call back into the cell;
    - one call runs at a time (no interleaving of concurrent calls);
    - [execute] may call itself without end; its model takes the number of
      attempts it may make and stays pending when they are used up. *)

From stdpp Require Import base gmap strings list pretty sorting.
From Stdlib Require Import ZArith Lia.

Local Open Scope string_scope.
Local Open Scope list_scope.
Local Open Scope Z_scope.

(** ** Data model *)

(** Modelled from the spec: [types.ts] is not among the sources.  The states
    are those of spec section 4.1; the code assigns IDLE, VALIDATING,
    PROCESSING, COMPLETING, OFFLINE, SYNCING and ERROR and compares with
    DEAD_LETTER. *)
Inductive CellState :=
  | IDLE | VALIDATING | PROCESSING | COMPLETING
  | OFFLINE | SYNCING | ERROR | DEAD_LETTER.

Global Instance CellState_eq_dec : EqDecision CellState.
Proof. solve_decision. Defined.

(** A state is a string literal in the source; metric tags carry it as such. *)
Definition CellState_name (s : CellState) : string :=
  match s with
  | IDLE => "IDLE" | VALIDATING => "VALIDATING" | PROCESSING => "PROCESSING"
  | COMPLETING => "COMPLETING" | OFFLINE => "OFFLINE" | SYNCING => "SYNCING"
  | ERROR => "ERROR" | DEAD_LETTER => "DEAD_LETTER"
  end.

(** The values stored in [Record<string, unknown>] objects. *)
Inductive JsValue :=
  | JUndefined
  | JBool (b : bool)
  | JNumber (n : Z)
  | JString (s : string).

Global Instance JsValue_eq_dec : EqDecision JsValue.
Proof. solve_decision. Defined.

Global Instance JsValue_inhabited : Inhabited JsValue := populate JUndefined.

(** A string property that may be absent from the object at run time. *)
Definition js_of_opt (o : option string) : JsValue :=
  match o with Some s => JString s | None => JUndefined end.

(** [!x] for such a property: absent and the empty string are falsy. *)
Definition falsy (o : option string) : bool :=
  match o with
  | None => true
  | Some s => bool_decide (s = "")
  end.

Definition truthy (o : option string) : bool := negb (falsy o).

(** Modelled from the spec: [ResourceRegistryCommand] of the missing
    [types.ts]; its fields are those of spec section 3 and of the README's
    quick start.  The code reads [id], [type] and [idempotencyKey] and tests
    each for presence, so they are optional here. *)
Record ResourceRegistryCommand := mkCommand {
  cmd_id : option string;
  cmd_type : option string;
  cmd_payload : JsValue;
  cmd_idempotencyKey : option string;
  cmd_timestamp : Z;
  cmd_locale : string;
}.

(** Modelled from the spec: [ExecutionContext] of the missing [types.ts]
    (spec section 3, README quick start).  The network quality is a string
    tag; the code compares it with 'offline' only. *)
Record ExecutionContext := mkContext {
  ctx_tenantId : string;
  ctx_userId : string;
  ctx_locale : string;
  ctx_timezone : string;
  ctx_isOffline : bool;
  ctx_networkQuality : string;
  ctx_correlationId : string;
}.

(** [{ ...context, isOffline: b }] *)
Definition with_isOffline (b : bool) (c : ExecutionContext) : ExecutionContext :=
  {| ctx_tenantId := ctx_tenantId c; ctx_userId := ctx_userId c;
     ctx_locale := ctx_locale c; ctx_timezone := ctx_timezone c;
     ctx_isOffline := b; ctx_networkQuality := ctx_networkQuality c;
     ctx_correlationId := ctx_correlationId c |}.

(** [{ name, value, unit, timestamp, tags }] as [recordMetric] builds it. *)
Record CellMetric := mkMetric {
  metric_name : string;
  metric_value : Z;
  metric_unit : string;
  metric_timestamp : Z;
  metric_tags : gmap string string;
}.

Inductive ResultStatus := success | partial | failure.

Global Instance ResultStatus_eq_dec : EqDecision ResultStatus.
Proof. solve_decision. Defined.

(** [ResourceRegistryResult] as [deliver] and [executeOffline] build it. *)
Record ResourceRegistryResult := mkResult {
  res_id : string;
  res_commandId : JsValue;
  res_status : ResultStatus;
  res_data : gmap string JsValue;
  res_metrics : list CellMetric;
  res_timestamp : Z;
}.

(** [OfflineQueueEntry] as [executeOffline] builds it. *)
Record OfflineQueueEntry := mkEntry {
  entry_id : string;
  entry_command : ResourceRegistryCommand;
  entry_context : ExecutionContext;
  entry_sequenceNumber : Z;
  entry_vectorClock : gmap string Z;
  entry_createdAt : Z;
  entry_retryCount : Z;
}.

(** [entry.retryCount++] *)
Definition bump_retryCount (e : OfflineQueueEntry) : OfflineQueueEntry :=
  {| entry_id := entry_id e; entry_command := entry_command e;
     entry_context := entry_context e;
     entry_sequenceNumber := entry_sequenceNumber e;
     entry_vectorClock := entry_vectorClock e;
     entry_createdAt := entry_createdAt e;
     entry_retryCount := entry_retryCount e + 1 |}.

Record SyncResult := mkSyncResult {
  synced : Z;
  failed : Z;
  conflicts : list JsValue;
  duration : Z;
}.

Record FieldError := mkFieldError {
  field : string;
  message : string;
  code : string;
}.

Record ValidationResult := mkValidation {
  valid : bool;
  errors : list FieldError;
}.

Record NetworkConfig := mkNetworkConfig {
  defaultTimeoutMs : Z;
  net_maxRetries : Z;
  backoffMultiplier : Z;
  initialBackoffMs : Z;
  compressionThreshold : Z;
}.

Record ResourceRegistryConfig := mkConfig {
  maxRetries : Z;
  timeoutMs : Z;
  offlineStorageKey : string;
  enableTelemetry : bool;
  locale : string;
  networkConfig : NetworkConfig;
}.

Definition DEFAULT_CONFIG : ResourceRegistryConfig :=
  {| maxRetries := 3;
     timeoutMs := 30000;
     offlineStorageKey := "cel_resourcereg_offline_queue";
     enableTelemetry := true;
     locale := "en-NG";
     networkConfig :=
       {| defaultTimeoutMs := 30000; net_maxRetries := 3;
          backoffMultiplier := 2; initialBackoffMs := 1000;
          compressionThreshold := 1024 |} |}.

(** [Partial<ResourceRegistryConfig>]: every field may be left out. *)
Record PartialConfig := mkPartialConfig {
  opt_maxRetries : option Z;
  opt_timeoutMs : option Z;
  opt_offlineStorageKey : option string;
  opt_enableTelemetry : option bool;
  opt_locale : option string;
  opt_networkConfig : option NetworkConfig;
}.

Definition no_overrides : PartialConfig :=
  mkPartialConfig None None None None None None.

(** [{ ...DEFAULT_CONFIG, ...config }]: a shallow merge, so a given
    [networkConfig] replaces the default one as a whole. *)
Definition merge_config (d : ResourceRegistryConfig) (p : PartialConfig)
  : ResourceRegistryConfig :=
  {| maxRetries := default (maxRetries d) (opt_maxRetries p);
     timeoutMs := default (timeoutMs d) (opt_timeoutMs p);
     offlineStorageKey := default (offlineStorageKey d) (opt_offlineStorageKey p);
     enableTelemetry := default (enableTelemetry d) (opt_enableTelemetry p);
     locale := default (locale d) (opt_locale p);
     networkConfig := default (networkConfig d) (opt_networkConfig p) |}.

(** What is thrown: the validation error class of the source, and the plain
    [Error] that [withTimeout] would reject with. *)
Inductive JsError :=
  | ResourceRegistryValidationError (errs : list FieldError)
  | Error (msg : string).

(** [String(error)]: the error's name, a colon and its message. *)
Definition error_to_string (e : JsError) : string :=
  match e with
  | ResourceRegistryValidationError errs =>
      "ResourceRegistryValidationError: Validation failed: "
        +:+ String.concat ", " (map message errs)
  | Error msg => "Error: " +:+ msg
  end.

(** A callback is known by its identity (the source compares handlers with
    [!==]).  Handlers are observers: they neither throw nor call back into
    the cell. *)
Abbreviation Handler := nat (only parsing).

(** The address of a queue entry object. *)
Abbreviation loc := nat (only parsing).

(** The private fields of the class. *)
Record ResourceRegistry := mkRegistry {
  state : CellState;
  offlineQueue : list loc;
  sequenceCounter : Z;
  metrics : list CellMetric;
  stateListeners : list Handler;
  errorListeners : list Handler;
  config : ResourceRegistryConfig;
}.

(** Calls that leave the object, in the order they are made.  The audit and
    persistence hooks have empty bodies in the source; the log records that
    they were called and with what.  [ReplayStarted] marks the start of one
    iteration of the loop of [sync].  No function of the model reads the
    log. *)
Inductive Event :=
  | StateListenerCalled (h : Handler) (s : CellState)
  | ErrorListenerCalled (h : Handler) (e : JsError)
  | AuditEmitted (action actor : string) (details : gmap string JsValue)
  | QueuePersisted (storageKey : string) (snapshot : list OfflineQueueEntry)
  | BackoffWait (delay : Z)
  | ReplayStarted (slot : loc).

(** The host: successive readings of [Date.now()] and successive values of
    [Math.random().toString(36).substr(2, 9)]. *)
Record Env := mkEnv {
  Date_now : nat → Z;
  Math_random : nat → string;
}.

Record World := mkWorld {
  this : ResourceRegistry;
  heap : list OfflineQueueEntry;
  trace : list Event;
  clock : nat;
  draws : nat;
  env : Env;
}.

Global Instance OfflineQueueEntry_inhabited : Inhabited OfflineQueueEntry :=
  populate (mkEntry "" (mkCommand None None JUndefined None 0 "")
                    (mkContext "" "" "" "" false "" "") 0 ∅ 0 0).

(** ** Promises *)

(** How a promise settles; [Pending] is a promise that never does. *)
Inductive Settled (A : Type) :=
  | Fulfilled (a : A)
  | Rejected (e : JsError)
  | Pending.
Arguments Fulfilled {A} a.
Arguments Rejected {A} e.
Arguments Pending {A}.

Definition Promise (A : Type) : Type := World → Settled A * World.

Global Instance Promise_ret : MRet Promise := λ A a w, (Fulfilled a, w).

Global Instance Promise_bind : MBind Promise := λ A B f m w,
  match m w with
  | (Fulfilled a, w') => f a w'
  | (Rejected e, w') => (Rejected e, w')
  | (Pending, w') => (Pending, w')
  end.

Definition throw {A} (e : JsError) : Promise A := λ w, (Rejected e, w).

Definition never {A} : Promise A := λ w, (Pending, w).

(** [try { body } catch (error) { handler }] *)
Definition try_catch {A} (body : Promise A) (handler : JsError → Promise A)
  : Promise A := λ w,
  match body w with
  | (Rejected e, w') => handler e w'
  | r => r
  end.

Definition get_this : Promise ResourceRegistry := λ w, (Fulfilled (this w), w).

Definition get_heap : Promise (list OfflineQueueEntry) :=
  λ w, (Fulfilled (heap w), w).

Definition set_this (r : ResourceRegistry) (w : World) : World :=
  {| this := r; heap := heap w; trace := trace w;
     clock := clock w; draws := draws w; env := env w |}.

Definition set_heap (h : list OfflineQueueEntry) (w : World) : World :=
  {| this := this w; heap := h; trace := trace w;
     clock := clock w; draws := draws w; env := env w |}.

Definition log_event (ev : Event) (w : World) : World :=
  {| this := this w; heap := heap w; trace := trace w ++ [ev];
     clock := clock w; draws := draws w; env := env w |}.

Definition modify_this (f : ResourceRegistry → ResourceRegistry) : Promise unit :=
  λ w, (Fulfilled (), set_this (f (this w)) w).

Definition modify_heap (f : list OfflineQueueEntry → list OfflineQueueEntry)
  : Promise unit :=
  λ w, (Fulfilled (), set_heap (f (heap w)) w).

Definition emit (ev : Event) : Promise unit :=
  λ w, (Fulfilled (), log_event ev w).

(** [Date.now()] *)
Definition now : Promise Z := λ w,
  (Fulfilled (Date_now (env w) (clock w)),
   {| this := this w; heap := heap w; trace := trace w;
      clock := S (clock w); draws := draws w; env := env w |}).

(** [Math.random().toString(36).substr(2, 9)] *)
Definition random_suffix : Promise string := λ w,
  (Fulfilled (Math_random (env w) (draws w)),
   {| this := this w; heap := heap w; trace := trace w;
      clock := clock w; draws := S (draws w); env := env w |}).

(** [array.forEach(f)] *)
Fixpoint forEach {A} (f : A → Promise unit) (l : list A) : Promise unit :=
  match l with
  | [] => mret ()
  | x :: l' => f x ;; forEach f l'
  end.

(** ** Field updates of the class *)

Definition set_state (s : CellState) (r : ResourceRegistry) : ResourceRegistry :=
  {| state := s; offlineQueue := offlineQueue r;
     sequenceCounter := sequenceCounter r; metrics := metrics r;
     stateListeners := stateListeners r; errorListeners := errorListeners r;
     config := config r |}.

Definition set_offlineQueue (q : list loc) (r : ResourceRegistry) : ResourceRegistry :=
  {| state := state r; offlineQueue := q;
     sequenceCounter := sequenceCounter r; metrics := metrics r;
     stateListeners := stateListeners r; errorListeners := errorListeners r;
     config := config r |}.

Definition set_sequenceCounter (n : Z) (r : ResourceRegistry) : ResourceRegistry :=
  {| state := state r; offlineQueue := offlineQueue r;
     sequenceCounter := n; metrics := metrics r;
     stateListeners := stateListeners r; errorListeners := errorListeners r;
     config := config r |}.

Definition set_metrics (m : list CellMetric) (r : ResourceRegistry) : ResourceRegistry :=
  {| state := state r; offlineQueue := offlineQueue r;
     sequenceCounter := sequenceCounter r; metrics := m;
     stateListeners := stateListeners r; errorListeners := errorListeners r;
     config := config r |}.

Definition set_stateListeners (l : list Handler) (r : ResourceRegistry) : ResourceRegistry :=
  {| state := state r; offlineQueue := offlineQueue r;
     sequenceCounter := sequenceCounter r; metrics := metrics r;
     stateListeners := l; errorListeners := errorListeners r;
     config := config r |}.

Definition set_errorListeners (l : list Handler) (r : ResourceRegistry) : ResourceRegistry :=
  {| state := state r; offlineQueue := offlineQueue r;
     sequenceCounter := sequenceCounter r; metrics := metrics r;
     stateListeners := stateListeners r; errorListeners := l;
     config := config r |}.

(** ** The class *)

(** [new ResourceRegistry(config)] on a host [e]. *)
Definition new_registry (p : PartialConfig) : ResourceRegistry :=
  {| state := IDLE; offlineQueue := []; sequenceCounter := 0; metrics := [];
     stateListeners := []; errorListeners := [];
     config := merge_config DEFAULT_CONFIG p |}.

Definition new_world (e : Env) (p : PartialConfig) : World :=
  {| this := new_registry p; heap := []; trace := [];
     clock := 0; draws := 0; env := e |}.

(** [this.metrics.push({ name, value, unit, timestamp: Date.now(), tags })] *)
Definition recordMetric (name : string) (value : Z) (unit_ : string)
    (tags : gmap string string) : Promise unit :=
  t ← now;
  modify_this (λ r, set_metrics (metrics r ++ [mkMetric name value unit_ t tags]) r).

(** The hook has an empty body; the call is logged. *)
Definition emitAudit (action actor : string) (details : gmap string JsValue)
  : Promise unit :=
  emit (AuditEmitted action actor details).

(** The hook has an empty body (in a real implementation it writes the queue
    under [config.offlineStorageKey]); the call is logged with the queue as it
    is at that moment. *)
Definition persistOfflineQueue : Promise unit :=
  r ← get_this;
  h ← get_heap;
  emit (QueuePersisted (offlineStorageKey (config r))
                       ((λ l, h !!! l) <$> offlineQueue r)).

Definition generateId : Promise string :=
  r ← get_this;
  t ← now;
  s ← random_suffix;
  mret (offlineStorageKey (config r) +:+ "_" +:+ pretty t +:+ "_" +:+ s).

Definition transitionTo (newState : CellState) : Promise unit :=
  r ← get_this;
  let oldState := state r in
  modify_this (set_state newState) ;;
  forEach (λ h, emit (StateListenerCalled h newState)) (stateListeners r) ;;
  recordMetric "state_transition" 1 "count"
    {[ "from" := CellState_name oldState; "to" := CellState_name newState ]}.

Definition getState : Promise CellState :=
  r ← get_this; mret (state r).

Definition getMetrics : Promise (list CellMetric) :=
  r ← get_this; mret (metrics r).

(** [validate]: one error per absent required field, in the order of the
    three tests. *)
Definition validate (command : ResourceRegistryCommand) : Promise ValidationResult :=
  let errors0 : list FieldError := [] in
  let errors1 :=
    if falsy (cmd_id command)
    then errors0 ++ [mkFieldError "id" "Required" "REQUIRED"] else errors0 in
  let errors2 :=
    if falsy (cmd_type command)
    then errors1 ++ [mkFieldError "type" "Required" "REQUIRED"] else errors1 in
  let errors3 :=
    if falsy (cmd_idempotencyKey command)
    then errors2 ++ [mkFieldError "idempotencyKey" "Required for offline support"
                                  "REQUIRED"]
    else errors2 in
  mret (mkValidation (bool_decide (length errors3 = 0%nat)) errors3).

Definition process (command : ResourceRegistryCommand) (context : ExecutionContext)
  : Promise (gmap string JsValue) :=
  t ← now;
  mret (<[ "locale" := JString (ctx_locale context) ]>
        (<[ "tenantId" := JString (ctx_tenantId context) ]>
         (<[ "processedAt" := JNumber t ]>
          {[ "commandId" := js_of_opt (cmd_id command) ]}))).

(** [{ ...data, routed: true, routedAt: Date.now() }] *)
Definition route (data : gmap string JsValue) (context : ExecutionContext)
  : Promise (gmap string JsValue) :=
  t ← now;
  mret (<[ "routedAt" := JNumber t ]> (<[ "routed" := JBool true ]> data)).

Definition deliver (data : gmap string JsValue) (context : ExecutionContext)
  : Promise ResourceRegistryResult :=
  i ← generateId;
  ms ← getMetrics;
  t ← now;
  mret {| res_id := i;
          res_commandId := default JUndefined (data !! "commandId");
          res_status := success;
          res_data := data;
          res_metrics := ms;
          res_timestamp := t |}.

(** [Promise.race] of a stage with a timer.  Every stage of the source is an
    [async] function without an [await] inside: its promise is settled before
    the timer's macrotask can run, whatever [ms] is, so the stage wins. *)
Definition withTimeout {A} (promise : Promise A) (ms : Z) : Promise A := promise.

Definition canRetry (command : ResourceRegistryCommand) : bool := true.

(** The delay of [retryWithBackoff]:
    [initialBackoffMs * Math.pow(backoffMultiplier, 0)]. *)
Definition backoff_delay (c : ResourceRegistryConfig) : Z :=
  initialBackoffMs (networkConfig c) * backoffMultiplier (networkConfig c) ^ 0.

(** [retryWithBackoff], over the [execute] it calls back. *)
Definition retryWithBackoff
    (execute : ResourceRegistryCommand → ExecutionContext → Promise ResourceRegistryResult)
    (command : ResourceRegistryCommand) (context : ExecutionContext)
  : Promise ResourceRegistryResult :=
  r ← get_this;
  let delay := backoff_delay (config r) in
  emit (BackoffWait delay) ;;
  execute command context.

Definition executeOffline (command : ResourceRegistryCommand)
    (context : ExecutionContext) : Promise ResourceRegistryResult :=
  transitionTo OFFLINE ;;
  i ← generateId;
  modify_this (λ r, set_sequenceCounter (sequenceCounter r + 1) r) ;;
  r ← get_this;
  t ← now;
  let entry :=
    {| entry_id := i;
       entry_command := command;
       entry_context := context;
       entry_sequenceNumber := sequenceCounter r;
       entry_vectorClock := {[ ctx_userId context := sequenceCounter r ]};
       entry_createdAt := t;
       entry_retryCount := 0 |} in
  h ← get_heap;
  let slot : loc := length h in
  modify_heap (λ h, h ++ [entry]) ;;
  modify_this (λ r, set_offlineQueue (offlineQueue r ++ [slot]) r) ;;
  persistOfflineQueue ;;
  emitAudit "offline_queue" (ctx_userId context) {[ "entryId" := JString i ]} ;;
  r ← get_this;
  recordMetric "offline_queue_size" (Z.of_nat (length (offlineQueue r))) "count" ∅ ;;
  i' ← generateId;
  r ← get_this;
  t' ← now;
  mret {| res_id := i';
          res_commandId := js_of_opt (cmd_id command);
          res_status := partial;
          res_data := <[ "queuePosition" := JNumber (Z.of_nat (length (offlineQueue r))) ]>
                        {[ "offlineEntryId" := JString i ]};
          res_metrics := [];
          res_timestamp := t' |}.

Definition goes_offline (context : ExecutionContext) : bool :=
  ctx_isOffline context || bool_decide (ctx_networkQuality context = "offline").

(** [execute].  The only call that may not come back is the retry, so the
    fuel bounds the depth of retries; without fuel the promise stays
    pending. *)
Fixpoint execute (fuel : nat) (command : ResourceRegistryCommand)
    (context : ExecutionContext) : Promise ResourceRegistryResult :=
  match fuel with
  | O => never
  | S fuel' =>
    if goes_offline context then executeOffline command context
    else
      startTime ← now;
      transitionTo VALIDATING ;;
      try_catch
        (r ← get_this;
         validated ← withTimeout (validate command) (timeoutMs (config r));
         if negb (valid validated)
         then throw (ResourceRegistryValidationError (errors validated))
         else
           transitionTo PROCESSING ;;
           r ← get_this;
           processed ← withTimeout (process command context) (timeoutMs (config r));
           routed ← route processed context;
           transitionTo COMPLETING ;;
           result ← deliver routed context;
           emitAudit "execute" (ctx_userId context)
             (<[ "status" := JString "success" ]>
                {[ "commandId" := js_of_opt (cmd_id command) ]}) ;;
           t ← now;
           recordMetric "execution_duration_ms" (t - startTime) "ms" ∅ ;;
           recordMetric "execution_success" 1 "count" ∅ ;;
           transitionTo IDLE ;;
           mret result)
        (λ error,
           transitionTo ERROR ;;
           recordMetric "execution_error" 1 "count" ∅ ;;
           emitAudit "error" (ctx_userId context)
             (<[ "error" := JString (error_to_string error) ]>
                {[ "commandId" := js_of_opt (cmd_id command) ]}) ;;
           if truthy (cmd_idempotencyKey command) && canRetry command
           then retryWithBackoff (execute fuel') command context
           else throw error)
  end.

(** The comparator of [sync]: [a.sequenceNumber - b.sequenceNumber]. *)
Definition seq_at (h : list OfflineQueueEntry) (l : loc) : Z :=
  entry_sequenceNumber (h !!! l).

(** [Array.prototype.sort] is stable: an element goes before the first one
    that does not compare below it. *)
Fixpoint insert_by_seq (h : list OfflineQueueEntry) (l : loc) (ls : list loc)
  : list loc :=
  match ls with
  | [] => [l]
  | l' :: rest =>
      if seq_at h l - seq_at h l' <=? 0 then l :: l' :: rest
      else l' :: insert_by_seq h l rest
  end.

Definition sort_by_seq (h : list OfflineQueueEntry) (q : list loc) : list loc :=
  foldr (insert_by_seq h) [] q.

(** [this.offlineQueue.filter(e => e.id !== id)] *)
Definition remove_by_id (h : list OfflineQueueEntry) (i : string) (q : list loc)
  : list loc :=
  filter (λ l, entry_id (h !!! l) ≠ i) q.

(** The body of the loop of [sync] for one entry of the snapshot: the [try]
    block replays the entry and drops it from the queue, the [catch] block
    counts the failure on the entry object. *)
Definition replay_entry
    (execute : ResourceRegistryCommand → ExecutionContext → Promise ResourceRegistryResult)
    (slot : loc) (counts : Z * Z) : Promise (Z * Z) :=
  try_catch
    (h ← get_heap;
     let entry := h !!! slot in
     let onlineContext := with_isOffline false (entry_context entry) in
     execute (entry_command entry) onlineContext ;;
     h ← get_heap;
     modify_this (λ r, set_offlineQueue
                         (remove_by_id h (entry_id (h !!! slot)) (offlineQueue r)) r) ;;
     mret (counts.1 + 1, counts.2))
    (λ error,
       modify_heap (alter bump_retryCount slot) ;;
       mret (counts.1, counts.2 + 1)).

(** The loop of [sync] over the sorted snapshot, with its two counters. *)
Fixpoint replay
    (execute : ResourceRegistryCommand → ExecutionContext → Promise ResourceRegistryResult)
    (sorted : list loc) (counts : Z * Z) : Promise (Z * Z) :=
  match sorted with
  | [] => mret counts
  | slot :: rest =>
      emit (ReplayStarted slot) ;;
      counts' ← replay_entry execute slot counts;
      replay execute rest counts'
  end.

Definition sync (fuel : nat) : Promise SyncResult :=
  transitionTo SYNCING ;;
  startTime ← now;
  r ← get_this;
  h ← get_heap;
  let sorted := sort_by_seq h (offlineQueue r) in
  counts ← replay (execute fuel) sorted (0, 0);
  persistOfflineQueue ;;
  transitionTo IDLE ;;
  t ← now;
  mret {| synced := counts.1; failed := counts.2; conflicts := [];
          duration := t - startTime |}.

(** [onStateChange] and [onError]; the function each returns is
    [unsubscribeState] and [unsubscribeError] of the same handler. *)
Definition onStateChange (handler : Handler) : Promise unit :=
  modify_this (λ r, set_stateListeners (stateListeners r ++ [handler]) r).

Definition unsubscribeState (handler : Handler) : Promise unit :=
  modify_this (λ r, set_stateListeners
                      (filter (λ h, h ≠ handler) (stateListeners r)) r).

Definition onError (handler : Handler) : Promise unit :=
  modify_this (λ r, set_errorListeners (errorListeners r ++ [handler]) r).

Definition unsubscribeError (handler : Handler) : Promise unit :=
  modify_this (λ r, set_errorListeners
                      (filter (λ h, h ≠ handler) (errorListeners r)) r).

Definition dispose : Promise unit :=
  persistOfflineQueue ;;
  modify_this (set_stateListeners []) ;;
  modify_this (set_errorListeners []) ;;
  transitionTo IDLE.

(** ** Callers *)

(** One call of the public interface. *)
Inductive Op :=
  | OpExecute (command : ResourceRegistryCommand) (context : ExecutionContext)
  | OpExecuteOffline (command : ResourceRegistryCommand) (context : ExecutionContext)
  | OpSync
  | OpGetState
  | OpGetMetrics
  | OpOnStateChange (handler : Handler)
  | OpUnsubscribeState (handler : Handler)
  | OpOnError (handler : Handler)
  | OpUnsubscribeError (handler : Handler)
  | OpDispose.

Definition run_op (fuel : nat) (op : Op) : Promise unit :=
  match op with
  | OpExecute c x => execute fuel c x ;; mret ()
  | OpExecuteOffline c x => executeOffline c x ;; mret ()
  | OpSync => sync fuel ;; mret ()
  | OpGetState => getState ;; mret ()
  | OpGetMetrics => getMetrics ;; mret ()
  | OpOnStateChange h => onStateChange h
  | OpUnsubscribeState h => unsubscribeState h
  | OpOnError h => onError h
  | OpUnsubscribeError h => unsubscribeError h
  | OpDispose => dispose
  end.

(** A caller that awaits each call and goes on after a rejection; a call that
    never settles is the last one it makes. *)
Fixpoint run_ops (fuel : nat) (ops : list Op) (w : World) : World :=
  match ops with
  | [] => w
  | op :: rest =>
      match run_op fuel op w with
      | (Pending, w') => w'
      | (_, w') => run_ops fuel rest w'
      end
  end.

(** The worlds a caller can bring about from a fresh cell. *)
Inductive reachable : World → Prop :=
  | reachable_new e p : reachable (new_world e p)
  | reachable_op fuel op w : reachable w → reachable (run_op fuel op w).2.

(** ** Vocabulary of the statements *)

(** The required fields a command lacks, in the order the spec lists them. *)
Definition missing_fields (command : ResourceRegistryCommand) : list string :=
  (if falsy (cmd_id command) then ["id"] else []) ++
  (if falsy (cmd_type command) then ["type"] else []) ++
  (if falsy (cmd_idempotencyKey command) then ["idempotencyKey"] else []).

(** The states a run entered, read off the [state_transition] metrics it
    recorded (their [to] tags). *)
Definition states_entered (ms : list CellMetric) : list string :=
  omap (λ m, if bool_decide (metric_name m = "state_transition")
             then metric_tags m !! "to" else None) ms.

(** The world right after [transitionTo s]. *)
Definition transitioned (s : CellState) (w : World) : World :=
  {| this := set_metrics
               (metrics (this w) ++
                [mkMetric "state_transition" 1 "count" (Date_now (env w) (clock w))
                   {[ "from" := CellState_name (state (this w));
                      "to" := CellState_name s ]}])
               (set_state s (this w));
     heap := heap w;
     trace := trace w ++ ((λ h, StateListenerCalled h s) <$> stateListeners (this w));
     clock := S (clock w); draws := draws w; env := env w |}.

(** The order of the snapshot: by sequence number, ascending. *)
Definition seq_le (h : list OfflineQueueEntry) (a b : loc) : Prop :=
  seq_at h a ≤ seq_at h b.

(** The queue slots whose replay a run of [sync] started, in order. *)
Definition replays (tr : list Event) : list loc :=
  omap (λ ev, match ev with ReplayStarted l => Some l | _ => None end) tr.

(** The backoff delays a run waited for, in order. *)
Definition backoff_waits (tr : list Event) : list Z :=
  omap (λ ev, match ev with BackoffWait d => Some d | _ => None end) tr.

(** What one replay of [sync] does with an entry, decided by the entry's
    command and context alone. *)
Inductive ReplayKind := Delivered | Requeued | Throws | RetriesForever.

Global Instance ReplayKind_eq_dec : EqDecision ReplayKind.
Proof. solve_decision. Defined.

(** [execute] on a context that is not routed offline: the pipeline delivers a
    valid command, rejects an invalid one without idempotency key, and retries
    an invalid one with idempotency key again and again. *)
Definition online_kind (command : ResourceRegistryCommand) : ReplayKind :=
  if falsy (cmd_id command) || falsy (cmd_type command)
     || falsy (cmd_idempotencyKey command)
  then if truthy (cmd_idempotencyKey command) then RetriesForever else Throws
  else Delivered.

Definition replay_kind (e : OfflineQueueEntry) : ReplayKind :=
  if goes_offline (with_isOffline false (entry_context e)) then Requeued
  else online_kind (entry_command e).

(** One failing attempt of [execute] on a command with an idempotency key, up
    to the call that retries it: the steps of [execute] from its first line
    through the rejected validation and the [catch] block to the wait of
    [retryWithBackoff]. *)
Definition failed_attempt (command : ResourceRegistryCommand)
    (context : ExecutionContext) : Promise unit :=
  now ;;
  transitionTo VALIDATING ;;
  validated ← validate command;
  let error := ResourceRegistryValidationError (errors validated) in
  transitionTo ERROR ;;
  recordMetric "execution_error" 1 "count" ∅ ;;
  emitAudit "error" (ctx_userId context)
    (<[ "error" := JString (error_to_string error) ]>
       {[ "commandId" := js_of_opt (cmd_id command) ]}) ;;
  r ← get_this;
  emit (BackoffWait (backoff_delay (config r))).

Definition id_at (h : list OfflineQueueEntry) (l : loc) : string :=
  entry_id (h !!! l).

Definition kind_at (h : list OfflineQueueEntry) (l : loc) : ReplayKind :=
  replay_kind (h !!! l).

(** The ids [generateId] can still produce from world [w] on: the storage
    key, a later reading of the clock and a later random suffix. *)
Definition generated_later (w : World) (i : string) : Prop :=
  ∃ k d : nat, (clock w ≤ k)%nat ∧ (draws w ≤ d)%nat ∧
    i = offlineStorageKey (config (this w)) +:+ "_"
          +:+ pretty (Date_now (env w) k) +:+ "_" +:+ Math_random (env w) d.

(** Two stores hold the same entries, up to retry counts, in the slots of
    the first. *)
Definition agree (h h1 : list OfflineQueueEntry) : Prop :=
  (length h ≤ length h1)%nat
  ∧ ∀ l : loc, (l < length h)%nat →
      id_at h1 l = id_at h l ∧ kind_at h1 l = kind_at h l.

(** [sync] before its loop (the transition to SYNCING and the reading of the
    start time) and after it (the persistence hook, the transition to IDLE and
    the reading of the end time). *)
Definition before_replay : Promise Z := transitionTo SYNCING ;; now.

Definition after_replay : Promise Z :=
  persistOfflineQueue ;; transitionTo IDLE ;; now.

(** An event a pipeline run may log on a cell [r]: callbacks of the state
    listeners registered on [r], waits of the configured initial backoff, the
    hooks; a replay marker only inside [sync]. *)
Definition event_ok (in_sync : bool) (r : ResourceRegistry) (ev : Event) : Prop :=
  match ev with
  | StateListenerCalled h _ => h ∈ stateListeners r
  | ErrorListenerCalled _ _ => False
  | BackoffWait d => d = initialBackoffMs (networkConfig (config r))
  | ReplayStarted _ => in_sync = true
  | AuditEmitted _ _ _ | QueuePersisted _ _ => True
  end.

(** What every run of the pipeline leaves alone, and what it may log. *)
Record frame (in_sync : bool) (w w' : World) : Prop := mk_frame {
  frame_config : config (this w') = config (this w);
  frame_stateListeners : stateListeners (this w') = stateListeners (this w);
  frame_errorListeners : errorListeners (this w') = errorListeners (this w);
  frame_env : env w' = env w;
  frame_clock : (clock w ≤ clock w')%nat;
  frame_draws : (draws w ≤ draws w')%nat;
  frame_trace : ∃ delta, trace w' = trace w ++ delta
                         ∧ Forall (event_ok in_sync (this w)) delta;
}.

(** The queue, the entry objects and the counter are the same. *)
Record same_store (w w' : World) : Prop := mk_same_store {
  same_queue : offlineQueue (this w') = offlineQueue (this w);
  same_heap : heap w' = heap w;
  same_counter : sequenceCounter (this w') = sequenceCounter (this w);
}.

(** The worlds of a cell that started with an empty queue: the counter counts
    the entries ever made, the n-th one carries the number n, and the queue
    holds distinct entries among them. *)
Record wf (w : World) : Prop := mk_wf {
  wf_counter : sequenceCounter (this w) = Z.of_nat (length (heap w));
  wf_seq : ∀ (i : nat) e, heap w !! i = Some e →
             entry_sequenceNumber e = Z.of_nat (S i);
  wf_queue : Forall (λ l : loc, (l < length (heap w))%nat) (offlineQueue (this w));
  wf_nodup : NoDup (offlineQueue (this w));
}.

(** The events of a run after [dispose] that call a listener: none may call
    an error listener, and a state listener only if [allowed]. *)
Definition listener_ok (allowed : Handler → Prop) (ev : Event) : Prop :=
  match ev with
  | StateListenerCalled h _ => allowed h
  | ErrorListenerCalled _ _ => False
  | _ => True
  end.

(** A property of worlds that a computation keeps, however it settles. *)
Definition preserves {A} (I : World → Prop) (m : Promise A) : Prop :=
  ∀ w, I w → I (m w).2.


(** ** The scenarios of the spec *)

(** A host whose clock reads 0, 1, 2, ... and whose random suffixes are the
    numerals "0", "1", "2", ... *)
Definition host0 : Env := mkEnv (λ n, Z.of_nat n) (λ n, pretty n).

Definition fresh_cell : World := new_world host0 no_overrides.

Definition cmd_1 : ResourceRegistryCommand :=
  mkCommand (Some "cmd-1") (Some "noop") JUndefined (Some "k1") 0 "en-NG".

(** The same command without its [id]. *)
Definition cmd_no_id : ResourceRegistryCommand :=
  mkCommand None (Some "noop") JUndefined (Some "k1") 0 "en-NG".

(** A command without idempotency key. *)
Definition cmd_no_key : ResourceRegistryCommand :=
  mkCommand (Some "cmd-2") (Some "noop") JUndefined None 0 "en-NG".

(** A command whose idempotency key is the empty string. *)
Definition cmd_empty_key : ResourceRegistryCommand :=
  mkCommand (Some "cmd-3") (Some "noop") JUndefined (Some "") 0 "en-NG".

Definition online_ctx : ExecutionContext :=
  mkContext "tenant-001" "user-001" "en-NG" "Africa/Lagos" false "medium" "corr-001".

Definition offline_ctx : ExecutionContext :=
  mkContext "tenant-001" "user-001" "en-NG" "Africa/Lagos" true "medium" "corr-001".

(** A context that is not flagged offline but whose network quality is
    'offline'. *)
Definition no_network_ctx : ExecutionContext :=
  mkContext "tenant-001" "user-001" "en-NG" "Africa/Lagos" false "offline" "corr-001".

(** A host whose clock reads the same millisecond throughout and whose random
    suffixes are the numerals "0", "1", "2", ... *)
Definition host1 : Env := mkEnv (λ _, 0) (λ n, pretty n).

(** A cell on [host1] with three queued commands: one that will be delivered,
    one without idempotency key and one whose context routes it offline
    again. *)
Definition three_queued : World :=
  run_ops 1 [OpExecute cmd_1 offline_ctx;
             OpExecute cmd_no_key offline_ctx;
             OpExecute cmd_1 no_network_ctx]
          (new_world host1 no_overrides).

(** A host that hands out the same id again and again. *)
Definition host2 : Env := mkEnv (λ _, 0) (λ _, "x").

(** A cell on [host2] with two queued commands, one that will be delivered and
    one without idempotency key; their entries carry the same id. *)
Definition two_queued_same_id : World :=
  run_ops 1 [OpExecute cmd_1 offline_ctx; OpExecute cmd_no_key offline_ctx]
          (new_world host2 no_overrides).

(** A cell whose queue holds a command with idempotency key and without id. *)
Definition one_queued_no_id : World :=
  run_ops 1 [OpExecute cmd_no_id offline_ctx] fresh_cell.

(** ** Vocabulary of the further properties *)

(** The calls of state listeners a run made, in order: who was called and
    with which state. *)
Definition state_calls (tr : list Event) : list (Handler * CellState) :=
  omap (λ ev, match ev with
              | StateListenerCalled h s => Some (h, s)
              | _ => None
              end) tr.

(** The calls that the transitions along [path] make to the listeners [sl]:
    for each state in turn, every registration in the order of the list. *)
Definition notified (sl : list Handler) (path : list CellState)
  : list (Handler * CellState) :=
  path ≫= λ s, (λ h, (h, s)) <$> sl.

(** The states a run of [execute] with [fuel] attempts goes through. *)
Definition pipeline_path (fuel : nat) (command : ResourceRegistryCommand)
    (context : ExecutionContext) : list CellState :=
  match fuel with
  | O => []
  | S _ =>
      if goes_offline context then [OFFLINE]
      else match online_kind command with
           | Delivered => [VALIDATING; PROCESSING; COMPLETING; IDLE]
           | Throws => [VALIDATING; ERROR]
           | RetriesForever | Requeued =>
               concat (replicate fuel [VALIDATING; ERROR])
           end
  end.

(** A run from [w] to [w'] that went through the states of [path] and did
    nothing else to state, listeners and what they were told. *)
Record walks (path : list CellState) (w w' : World) : Prop := mk_walks {
  walks_listeners : stateListeners (this w') = stateListeners (this w);
  walks_state : state (this w') = default (state (this w)) (last path);
  walks_trace : ∃ delta, trace w' = trace w ++ delta
                  ∧ state_calls delta = notified (stateListeners (this w)) path;
  walks_metrics : ∃ ms, metrics (this w') = metrics (this w) ++ ms
                    ∧ states_entered ms = CellState_name <$> path;
}.

(** The same entry object later on: every field as it was, but for the retry
    count, which has not gone down. *)
Record same_entry (e e' : OfflineQueueEntry) : Prop := mk_same_entry {
  same_entry_id : entry_id e' = entry_id e;
  same_entry_command : entry_command e' = entry_command e;
  same_entry_context : entry_context e' = entry_context e;
  same_entry_sequenceNumber : entry_sequenceNumber e' = entry_sequenceNumber e;
  same_entry_vectorClock : entry_vectorClock e' = entry_vectorClock e;
  same_entry_createdAt : entry_createdAt e' = entry_createdAt e;
  same_entry_retryCount : entry_retryCount e ≤ entry_retryCount e';
}.

(** An event that tells no listener DEAD_LETTER. *)
Definition not_dead_letter (ev : Event) : Prop :=
  match ev with
  | StateListenerCalled _ s => s ≠ DEAD_LETTER
  | _ => True
  end.

(** What the past of a cell looks like from later on: the configuration and
    the host are the same; metrics and log have only grown; every entry
    object is still there; the counter has not gone down; DEAD_LETTER was
    neither entered nor told. *)
Record history (w w' : World) : Prop := mk_history {
  history_config : config (this w') = config (this w);
  history_env : env w' = env w;
  history_metrics : ∃ ms, metrics (this w') = metrics (this w) ++ ms
                          ∧ CellState_name DEAD_LETTER ∉ states_entered ms;
  history_trace : ∃ delta, trace w' = trace w ++ delta
                           ∧ Forall not_dead_letter delta;
  history_entries : ∀ (l : loc) e, heap w !! l = Some e →
                      ∃ e', heap w' !! l = Some e' ∧ same_entry e e';
  history_counter : sequenceCounter (this w) ≤ sequenceCounter (this w');
  history_state : state (this w') = state (this w)
                  ∨ state (this w') ≠ DEAD_LETTER;
}.

(** The queue lists its entries in the order they were made. *)
Record ordered (w : World) : Prop := mk_ordered {
  ordered_wf : wf w;
  ordered_queue : StronglySorted lt (offlineQueue (this w));
}.

(** ** The orchestrator *)

(** The fields of [ResourceRegistryOrchestrator].  The cell is held by
    reference. *)
Record Orchestrator := mkOrchestrator {
  orch_config : PartialConfig;
  orch_cell : option nat;
  healthCheckInterval : option nat;
}.

(** The orchestrator with what lives around it: every cell made so far (a
    cell outlives the field that referred to it; a caller may still hold it),
    each with its own world, and the interval timers running on the host.
    The listener that the n-th cell gets from [initialize] is a closure made
    for it; it is known as n. *)
Record Runtime := mkRuntime {
  orchestrator : Orchestrator;
  cells : list World;
  intervals : list nat;
  next_interval : nat;
  host : Env;
}.

(** [new ResourceRegistryOrchestrator(config)] on a host without timers. *)
Definition new_orchestrator (e : Env) (p : PartialConfig) : Runtime :=
  {| orchestrator := mkOrchestrator p None None;
     cells := []; intervals := []; next_interval := 0; host := e |}.

(** [initialize]: makes the cell, starts the health-check interval, registers
    the dead-letter listener and returns the cell. *)
Definition initialize (rt : Runtime) : nat * Runtime :=
  let ref := length (cells rt) in
  let cell := new_world (host rt) (orch_config (orchestrator rt)) in
  let timer := next_interval rt in
  let cell' := (onStateChange ref cell).2 in
  (ref,
   {| orchestrator := {| orch_config := orch_config (orchestrator rt);
                         orch_cell := Some ref;
                         healthCheckInterval := Some timer |};
      cells := cells rt ++ [cell'];
      intervals := intervals rt ++ [timer];
      next_interval := S timer;
      host := host rt |}).

(** [clearInterval(id)] *)
Definition clearInterval (id : nat) (timers : list nat) : list nat :=
  filter (λ t, t ≠ id) timers.

(** [shutdown]: clears the interval if one was ever set, disposes the cell if
    one is held and forgets it.  The timer field is left as it is. *)
Definition shutdown (rt : Runtime) : Runtime :=
  let timers :=
    match healthCheckInterval (orchestrator rt) with
    | Some id => clearInterval id (intervals rt)
    | None => intervals rt
    end in
  match orch_cell (orchestrator rt) with
  | Some ref =>
      {| orchestrator := {| orch_config := orch_config (orchestrator rt);
                            orch_cell := None;
                            healthCheckInterval := healthCheckInterval (orchestrator rt) |};
         cells := alter (λ w, (dispose w).2) ref (cells rt);
         intervals := timers;
         next_interval := next_interval rt;
         host := host rt |}
  | None =>
      {| orchestrator := orchestrator rt;
         cells := cells rt;
         intervals := timers;
         next_interval := next_interval rt;
         host := host rt |}
  end.

Definition getCell (rt : Runtime) : option nat := orch_cell (orchestrator rt).

(** [performHealthCheck]: what it reads (and then drops). *)
Definition performHealthCheck (rt : Runtime) : option (CellState * list CellMetric) :=
  match orch_cell (orchestrator rt) with
  | None => None
  | Some ref =>
      match cells rt !! ref with
      | Some w => Some (state (this w), metrics (this w))
      | None => None
      end
  end.

(** A caller using a cell it holds. *)
Definition on_cell (ref : nat) (fuel : nat) (ops : list Op) (rt : Runtime) : Runtime :=
  {| orchestrator := orchestrator rt;
     cells := alter (run_ops fuel ops) ref (cells rt);
     intervals := intervals rt;
     next_interval := next_interval rt;
     host := host rt |}.

(** Timer ids in use lie below the next one the host hands out. *)
Definition timers_fresh (rt : Runtime) : Prop :=
  Forall (λ t, (t < next_interval rt)%nat) (intervals rt).


(** A cell on [host1] whose queue holds one command, put there by a context
    that is not flagged offline but reports network quality 'offline'. *)
Definition one_queued_no_network : World :=
  run_ops 1 [OpExecute cmd_1 no_network_ctx] (new_world host1 no_overrides).

(** The same cell with another configuration. *)
Definition set_config (cf : ResourceRegistryConfig) (w : World) : World :=
  {| this := {| state := state (this w); offlineQueue := offlineQueue (this w);
                sequenceCounter := sequenceCounter (this w);
                metrics := metrics (this w);
                stateListeners := stateListeners (this w);
                errorListeners := errorListeners (this w);
                config := cf |};
     heap := heap w; trace := trace w;
     clock := clock w; draws := draws w; env := env w |}.

(** Two configurations that agree on the settings the class reads: the
    timeout, the storage key and the initial backoff. *)
Record same_settings_read (cf cf' : ResourceRegistryConfig) : Prop :=
  mk_same_settings_read {
    same_timeoutMs : timeoutMs cf' = timeoutMs cf;
    same_offlineStorageKey : offlineStorageKey cf' = offlineStorageKey cf;
    same_initialBackoffMs :
      initialBackoffMs (networkConfig cf') = initialBackoffMs (networkConfig cf);
  }.

(** The outcome of a call on the cell with another configuration. *)
Definition in_config {A} (cf : ResourceRegistryConfig) (r : Settled A * World)
  : Settled A * World :=
  (r.1, set_config cf r.2).

(** ** What a replay shows outside the cell *)

(** The record that [execute] hands to the audit hook, as far as it tells the
    calls apart: the action, the actor and the [commandId] of the details
    (the record of an enqueue has none). *)
Abbreviation AuditRecord := (string * string * option JsValue)%type (only parsing).

(** The turns of the loop of [sync] and the audit records of a run, in the
    order they were made. *)
Definition sync_log (tr : list Event) : list (loc + AuditRecord) :=
  omap (λ ev, match ev with
              | ReplayStarted l => Some (inl l)
              | AuditEmitted action actor details =>
                  Some (inr (action, actor, details !! "commandId"))
              | _ => None
              end) tr.

(** The audit record that one attempt to replay an entry leaves: that of a
    delivery, of an enqueue or of an error, for the entry's command and the
    user of the entry's context. *)
Definition replay_audit (e : OfflineQueueEntry) : AuditRecord :=
  let actor := ctx_userId (entry_context e) in
  let commandId := js_of_opt (cmd_id (entry_command e)) in
  match replay_kind e with
  | Delivered => ("execute", actor, Some commandId)
  | Requeued => ("offline_queue", actor, None)
  | Throws | RetriesForever => ("error", actor, Some commandId)
  end.

(** What [sync] is to show when it replays the slots [ls] in this order with
    [attempts] attempts for each call of [execute]: for each slot the start
    of its turn and then the audit record of the [execute] call on its
    entry; at an entry that is retried, one error record per attempt and
    nothing after. *)
Fixpoint replay_script (attempts : nat) (h : list OfflineQueueEntry)
    (ls : list loc) : list (loc + AuditRecord) :=
  match ls with
  | [] => []
  | l :: rest =>
      inl l ::
      match kind_at h l with
      | RetriesForever => replicate attempts (inr (replay_audit (h !!! l)))
      | _ => inr (replay_audit (h !!! l)) :: replay_script attempts h rest
      end
  end.

(** Two more commands that have all required fields. *)
Definition cmd_2 : ResourceRegistryCommand :=
  mkCommand (Some "cmd-2") (Some "noop") JUndefined (Some "k2") 0 "en-NG".

Definition cmd_3 : ResourceRegistryCommand :=
  mkCommand (Some "cmd-3") (Some "noop") JUndefined (Some "k3") 0 "en-NG".
(** ** Running promises *)

Lemma run_bind {A B} (m : Promise A) (f : A → Promise B) (w : World) :
  (m ≫= f) w =
  match m w with
  | (Fulfilled a, w') => f a w'
  | (Rejected e, w') => (Rejected e, w')
  | (Pending, w') => (Pending, w')
  end.
Proof. reflexivity. Qed.

Lemma forEach_emit {A} (f : A → Event) (l : list A) (w : World) :
  forEach (λ x, emit (f x)) l w
  = (Fulfilled (), {| this := this w; heap := heap w; trace := trace w ++ (f <$> l);
                      clock := clock w; draws := draws w; env := env w |}).
Proof.
  revert w. induction l as [|x l IH]; intros w; simpl.
  - rewrite app_nil_r. by destruct w.
  - rewrite run_bind. simpl. rewrite IH. simpl. by rewrite <- app_assoc.
Qed.

Lemma transitionTo_run s w : transitionTo s w = (Fulfilled (), transitioned s w).
Proof.
  unfold transitionTo, mbind, Promise_bind. simpl.
  rewrite forEach_emit. reflexivity.
Qed.

Lemma validate_run command :
  ∃ v, (∀ w, validate command w = (Fulfilled v, w))
       ∧ field <$> errors v = missing_fields command
       ∧ Forall (λ e, code e = "REQUIRED") (errors v)
       ∧ valid v = bool_decide (missing_fields command = []).
Proof.
  unfold validate, missing_fields.
  destruct (falsy (cmd_id command)), (falsy (cmd_type command)),
    (falsy (cmd_idempotencyKey command)); simpl;
    eexists; (split; [intros w; reflexivity|]); simpl;
    (split; [reflexivity|]); (split; [repeat constructor|reflexivity]).
Qed.

Lemma missing_fields_nil command :
  missing_fields command = [] ↔
  falsy (cmd_id command) = false ∧ falsy (cmd_type command) = false
  ∧ falsy (cmd_idempotencyKey command) = false.
Proof.
  unfold missing_fields.
  destruct (falsy (cmd_id command)), (falsy (cmd_type command)),
    (falsy (cmd_idempotencyKey command)); simpl; split;
    first [ discriminate | intros (?&?&?); discriminate | done ].
Qed.

(** ** Properties kept along a computation *)

Section Preserves.
Context (I : World → Prop).

Lemma preserves_ret {A} (a : A) : preserves I (mret a).
Proof. intros w H. exact H. Qed.

Lemma preserves_throw {A} e : preserves I (@throw A e).
Proof. intros w H. exact H. Qed.

Lemma preserves_never {A} : preserves I (@never A).
Proof. intros w H. exact H. Qed.

Lemma preserves_bind {A B} (m : Promise A) (f : A → Promise B) :
  preserves I m → (∀ a, preserves I (f a)) → preserves I (m ≫= f).
Proof.
  intros Hm Hf w H. rewrite run_bind. specialize (Hm w H).
  destruct (m w) as [[a|e|] w']; simpl in *; auto. by apply Hf.
Qed.

Lemma preserves_try_catch {A} (m : Promise A) (h : JsError → Promise A) :
  preserves I m → (∀ e, preserves I (h e)) → preserves I (try_catch m h).
Proof.
  intros Hm Hh w H. unfold try_catch. specialize (Hm w H).
  destruct (m w) as [[a|e|] w']; simpl in *; auto. by apply Hh.
Qed.

Lemma preserves_get_this : preserves I get_this.
Proof. intros w H. exact H. Qed.

Lemma preserves_get_heap : preserves I get_heap.
Proof. intros w H. exact H. Qed.

Lemma preserves_withTimeout {A} (m : Promise A) ms :
  preserves I m → preserves I (withTimeout m ms).
Proof. intros H. exact H. Qed.

Lemma preserves_validate command : preserves I (validate command).
Proof. intros w H. exact H. Qed.
End Preserves.

(** Splits a goal [preserves I m] along the structure of [m]. *)
Ltac preserves_step :=
  lazymatch goal with
  | |- preserves _ (mret _) => apply preserves_ret
  | |- preserves _ (throw _) => apply preserves_throw
  | |- preserves _ never => apply preserves_never
  | |- preserves _ get_this => apply preserves_get_this
  | |- preserves _ get_heap => apply preserves_get_heap
  | |- preserves _ (validate _) => apply preserves_validate
  | |- preserves _ (withTimeout _ _) => apply preserves_withTimeout
  | |- preserves _ (_ ≫= _) => apply preserves_bind; [|intros ?]
  | |- preserves _ (try_catch _ _) => apply preserves_try_catch; [|intros ?]
  | |- preserves _ (if ?b then _ else _) => destruct b
  | |- preserves _ (let x := _ in _) => cbv zeta
  end.

(** *** The frame of a pipeline run *)

Lemma event_ok_same b r r' ev :
  config r' = config r → stateListeners r' = stateListeners r →
  event_ok b r ev → event_ok b r' ev.
Proof. intros Hc Hl. destruct ev; simpl; rewrite ?Hc, ?Hl; auto. Qed.

Lemma frame_refl b w : frame b w w.
Proof. split; simpl; auto with lia. exists []. by rewrite app_nil_r. Qed.

Lemma frame_trans b w1 w2 w3 : frame b w1 w2 → frame b w2 w3 → frame b w1 w3.
Proof.
  intros [c1 s1 e1 n1 k1 r1 (d1 & t1 & f1)] [c2 s2 e2 n2 k2 r2 (d2 & t2 & f2)].
  split; try congruence; try lia.
  exists (d1 ++ d2). split; [by rewrite t2, t1, app_assoc|].
  apply Forall_app. split; [done|].
  eapply Forall_impl; [exact f2|].
  intros ev. apply event_ok_same; congruence.
Qed.

(** One step that keeps the frame keeps it relative to any earlier world. *)
Lemma preserves_frame {A} b w0 (m : Promise A) :
  (∀ w, frame b w (m w).2) → preserves (frame b w0) m.
Proof. intros H w Hw. eapply frame_trans; [exact Hw|apply H]. Qed.

Lemma frame_now b w : frame b w (now w).2.
Proof. split; simpl; auto with lia. exists []. by rewrite app_nil_r. Qed.

Lemma frame_random_suffix b w : frame b w (random_suffix w).2.
Proof. split; simpl; auto with lia. exists []. by rewrite app_nil_r. Qed.

Lemma frame_emit b ev w : event_ok b (this w) ev → frame b w (emit ev w).2.
Proof. intros H. split; simpl; auto with lia. exists [ev]. split; [done|]. by constructor. Qed.

Lemma frame_modify_this b f w :
  config (f (this w)) = config (this w) →
  stateListeners (f (this w)) = stateListeners (this w) →
  errorListeners (f (this w)) = errorListeners (this w) →
  frame b w (modify_this f w).2.
Proof. intros. split; simpl; auto with lia. exists []. by rewrite app_nil_r. Qed.

Lemma frame_modify_heap b f w : frame b w (modify_heap f w).2.
Proof. split; simpl; auto with lia. exists []. by rewrite app_nil_r. Qed.

Lemma frame_recordMetric b name value unit_ tags w :
  frame b w (recordMetric name value unit_ tags w).2.
Proof. split; simpl; auto with lia. exists []. by rewrite app_nil_r. Qed.

Lemma frame_emitAudit b action actor details w :
  frame b w (emitAudit action actor details w).2.
Proof. by apply frame_emit. Qed.

Lemma frame_persistOfflineQueue b w : frame b w (persistOfflineQueue w).2.
Proof. split; simpl; auto with lia. eexists [_]. split; [reflexivity|]. by repeat constructor. Qed.

Lemma frame_generateId b w : frame b w (generateId w).2.
Proof. split; simpl; auto with lia. exists []. by rewrite app_nil_r. Qed.

Lemma frame_transitionTo b s w : frame b w (transitionTo s w).2.
Proof.
  rewrite transitionTo_run. split; simpl; auto with lia. eexists. split; [reflexivity|].
  apply Forall_forall. intros ev Hev.
  apply list_elem_of_fmap in Hev as (h & -> & Hh). exact Hh.
Qed.

Lemma frame_getMetrics b w : frame b w (getMetrics w).2.
Proof. apply frame_refl. Qed.

Lemma frame_process b c x w : frame b w (process c x w).2.
Proof. split; simpl; auto with lia. exists []. by rewrite app_nil_r. Qed.

Lemma frame_route b d x w : frame b w (route d x w).2.
Proof. split; simpl; auto with lia. exists []. by rewrite app_nil_r. Qed.

Lemma frame_deliver b d x w : frame b w (deliver d x w).2.
Proof. split; simpl; auto with lia. exists []. by rewrite app_nil_r. Qed.

Lemma frame_backoff b w :
  frame b w (emit (BackoffWait (backoff_delay (config (this w)))) w).2.
Proof.
  apply frame_emit. simpl. unfold backoff_delay. rewrite Z.pow_0_r. lia.
Qed.

Create HintDb frame discriminated.
#[local] Hint Resolve frame_now frame_random_suffix frame_modify_heap
  frame_recordMetric frame_emitAudit frame_persistOfflineQueue frame_generateId
  frame_transitionTo frame_getMetrics frame_process frame_route frame_deliver
  : frame.

Ltac frame_tac :=
  repeat first
    [ preserves_step
    | apply preserves_frame; intros ?; solve [ auto with frame ]
    | apply preserves_frame; intros ?; apply frame_modify_this; reflexivity ].

Lemma frame_executeOffline b w0 c x : preserves (frame b w0) (executeOffline c x).
Proof. unfold executeOffline. frame_tac. Qed.

Lemma frame_retryWithBackoff b w0 (exec : ResourceRegistryCommand → ExecutionContext →
                                           Promise ResourceRegistryResult) c x :
  preserves (frame b w0) (exec c x) →
  preserves (frame b w0) (retryWithBackoff exec c x).
Proof.
  intros Hexec w Hw. unfold retryWithBackoff. rewrite !run_bind. simpl.
  apply Hexec. eapply frame_trans; [exact Hw|apply frame_backoff].
Qed.

Lemma frame_execute b w0 fuel c x : preserves (frame b w0) (execute fuel c x).
Proof.
  induction fuel as [|fuel IH]; simpl.
  - apply preserves_never.
  - frame_tac; [apply frame_executeOffline|].
    by apply frame_retryWithBackoff.
Qed.

(** *** The store along the pipeline *)

Lemma same_store_refl w : same_store w w.
Proof. by split. Qed.

Lemma same_store_trans w1 w2 w3 :
  same_store w1 w2 → same_store w2 w3 → same_store w1 w3.
Proof. intros [] []. split; congruence. Qed.

Lemma preserves_same_store {A} w0 (m : Promise A) :
  (∀ w, same_store w (m w).2) → preserves (same_store w0) m.
Proof. intros H w Hw. eapply same_store_trans; [exact Hw|apply H]. Qed.

Lemma same_store_transitionTo s w : same_store w (transitionTo s w).2.
Proof. rewrite transitionTo_run. by split. Qed.

Lemma same_store_now w : same_store w (now w).2.
Proof. by split. Qed.

Lemma same_store_recordMetric name value unit_ tags w :
  same_store w (recordMetric name value unit_ tags w).2.
Proof. by split. Qed.

Lemma same_store_emit ev w : same_store w (emit ev w).2.
Proof. by split. Qed.

Lemma same_store_persistOfflineQueue w : same_store w (persistOfflineQueue w).2.
Proof. by split. Qed.

Lemma same_store_process c x w : same_store w (process c x w).2.
Proof. by split. Qed.

Lemma same_store_route d x w : same_store w (route d x w).2.
Proof. by split. Qed.

Lemma same_store_deliver d x w : same_store w (deliver d x w).2.
Proof. by split. Qed.

Create HintDb store discriminated.
#[local] Hint Resolve same_store_transitionTo same_store_now
  same_store_recordMetric same_store_emit same_store_persistOfflineQueue
  same_store_process same_store_route same_store_deliver : store.

Ltac store_tac :=
  repeat first
    [ preserves_step
    | apply preserves_same_store; intros ?; solve [ auto with store ]
    | apply preserves_same_store; intros ?; apply same_store_emit ].

(** A run on a context that is not routed offline never touches the queue. *)
Lemma same_store_execute w0 fuel c x :
  goes_offline x = false → preserves (same_store w0) (execute fuel c x).
Proof.
  intros Hx. induction fuel as [|fuel IH]; simpl.
  - apply preserves_never.
  - rewrite Hx. unfold retryWithBackoff, emitAudit. store_tac. exact IH.
Qed.

(** *** Well-formed worlds *)

Lemma wf_same_store w w' : same_store w w' → wf w → wf w'.
Proof.
  intros [q h c] [wc ws wq wn]. split; rewrite ?q, ?h, ?c; auto.
Qed.

Lemma wf_new_world e p : wf (new_world e p).
Proof.
  split; simpl; [done| |constructor|constructor].
  intros i en Hi. by rewrite lookup_nil in Hi.
Qed.

(** Reading off how a promise settled. *)
Lemma fulfilled_intro {A} (s : Settled A * World) (P : A → World → Prop) :
  match s with (Fulfilled a, w') => P a w' | _ => False end →
  ∃ a w', s = (Fulfilled a, w') ∧ P a w'.
Proof. destruct s as [[a|e|] w']; intros H; try done. eauto. Qed.

Lemma rejected_intro {A} (s : Settled A * World) (P : JsError → World → Prop) :
  match s with (Rejected e, w') => P e w' | _ => False end →
  ∃ e w', s = (Rejected e, w') ∧ P e w'.
Proof. destruct s as [[a|e|] w']; intros H; try done. eauto. Qed.

(** Runs the plain steps of a method: binds, reads and writes of fields,
    clock and log.  Calls of [transitionTo], [validate] and [execute] stay as
    they are, and so do the maps and strings built on the way. *)
Ltac run :=
  lazy beta iota zeta delta
    [ mbind Promise_bind mret Promise_ret throw never try_catch
      get_this get_heap modify_this modify_heap emit now random_suffix
      set_this set_heap log_event transitioned
      recordMetric emitAudit persistOfflineQueue generateId getMetrics getState
      process route deliver withTimeout retryWithBackoff canRetry
      onStateChange unsubscribeState onError unsubscribeError
      set_state set_offlineQueue set_sequenceCounter set_metrics
      set_stateListeners set_errorListeners
      this heap trace clock draws env
      state offlineQueue sequenceCounter metrics stateListeners errorListeners
      config fst snd andb negb ].

(** The entry [executeOffline] makes. *)
Lemma executeOffline_run c x w :
  ∃ r w',
    executeOffline c x w = (Fulfilled r, w')
    ∧ (res_status r = partial
    ∧ res_commandId r = js_of_opt (cmd_id c)
    ∧ (∃ e, heap w' = heap w ++ [e]
            ∧ entry_command e = c ∧ entry_context e = x
            ∧ entry_sequenceNumber e = sequenceCounter (this w) + 1
            ∧ entry_retryCount e = 0
            ∧ entry_id e =
                offlineStorageKey (config (this w)) +:+ "_"
                  +:+ pretty (Date_now (env w) (S (clock w))) +:+ "_"
                  +:+ Math_random (env w) (draws w))
    ∧ offlineQueue (this w') = offlineQueue (this w) ++ [length (heap w)]
    ∧ sequenceCounter (this w') = sequenceCounter (this w) + 1
    ∧ state (this w') = OFFLINE
    ∧ (∃ ms, metrics (this w') = metrics (this w) ++ ms
             ∧ states_entered ms = [CellState_name OFFLINE]
             ∧ metric_name <$> ms = ["state_transition"; "offline_queue_size"])
    ∧ (∃ delta, trace w' = trace w ++ delta
                ∧ ∀ h s, StateListenerCalled h s ∈ delta → s = OFFLINE)).
Proof.
  apply fulfilled_intro.
  destruct w as [[st q n ms sl el cf] h tr ck dr en].
  unfold executeOffline. rewrite run_bind, transitionTo_run. run.
  do 2 (split; [reflexivity|]).
  split; [eexists; split; [reflexivity|]; repeat split|].
  do 3 (split; [reflexivity|]).
  split.
  - eexists. split; [rewrite <- app_assoc; reflexivity|]. split; reflexivity.
  - eexists. split; [rewrite <- !app_assoc; reflexivity|].
    intros h' s Hin. rewrite !elem_of_app in Hin.
    destruct Hin as [Hin|[Hin|Hin]].
    + apply list_elem_of_fmap in Hin as (h'' & Heq & _). congruence.
    + apply list_elem_of_singleton in Hin. discriminate.
    + apply list_elem_of_singleton in Hin. discriminate.
Qed.

Lemma wf_executeOffline c x : preserves wf (executeOffline c x).
Proof.
  intros w [wc ws wq wn].
  destruct (executeOffline_run c x w)
    as (r & w' & -> & _ & _ & (e & Hh & _ & _ & Hs & _) & Hq & Hc & _).
  simpl. split.
  - rewrite Hc, Hh, wc, length_app. simpl. lia.
  - intros i e' Hi. rewrite Hh in Hi.
    apply lookup_app_Some in Hi as [Hi|[Hle Hi]]; [by apply ws|].
    apply list_lookup_singleton_Some in Hi as [Hi ->].
    rewrite Hs, wc. lia.
  - rewrite Hq, Hh, length_app. apply Forall_app. split.
    + eapply Forall_impl; [exact wq|]. simpl. intros; lia.
    + constructor; [simpl; lia|constructor].
  - rewrite Hq. apply NoDup_app. split; [done|]. split; [|apply NoDup_singleton].
    intros l Hl Hl'. apply list_elem_of_singleton in Hl'. subst l.
    rewrite Forall_forall in wq. specialize (wq _ Hl). lia.
Qed.

Lemma wf_execute fuel c x : preserves wf (execute fuel c x).
Proof.
  intros w Hw. destruct (goes_offline x) eqn:Hx.
  - destruct fuel as [|fuel]; simpl; [done|]. rewrite Hx.
    by apply wf_executeOffline.
  - eapply wf_same_store; [|exact Hw].
    apply (same_store_execute w fuel c x Hx w), same_store_refl.
Qed.

(** ** The three ways of the pipeline *)

Lemma online_kind_Delivered c :
  online_kind c = Delivered ↔ missing_fields c = [].
Proof.
  rewrite missing_fields_nil. unfold online_kind, truthy.
  destruct (falsy (cmd_id c)), (falsy (cmd_type c)),
    (falsy (cmd_idempotencyKey c)); simpl; split;
    first [ discriminate | intros (?&?&?); discriminate | done ].
Qed.

Lemma online_kind_Throws c :
  online_kind c = Throws ↔ falsy (cmd_idempotencyKey c) = true.
Proof.
  unfold online_kind, truthy.
  destruct (falsy (cmd_id c)), (falsy (cmd_type c)),
    (falsy (cmd_idempotencyKey c)); simpl; split; first [ discriminate | done ].
Qed.

Lemma online_kind_RetriesForever c :
  online_kind c = RetriesForever ↔
  truthy (cmd_idempotencyKey c) = true
  ∧ (falsy (cmd_id c) = true ∨ falsy (cmd_type c) = true).
Proof.
  unfold online_kind, truthy.
  destruct (falsy (cmd_id c)), (falsy (cmd_type c)),
    (falsy (cmd_idempotencyKey c)); simpl; split;
    first [ discriminate | intros (?&[?|?]); discriminate | auto ].
Qed.

Lemma online_kind_not_Requeued c : online_kind c ≠ Requeued.
Proof.
  unfold online_kind.
  destruct (_ || _); [destruct (truthy _)|]; discriminate.
Qed.

(** A valid command goes through the four stages. *)
Lemma execute_delivers fuel c x w :
  goes_offline x = false → online_kind c = Delivered →
  ∃ r w',
    execute (S fuel) c x w = (Fulfilled r, w')
    ∧ (res_status r = success
    ∧ res_commandId r = js_of_opt (cmd_id c)
    ∧ state (this w') = IDLE
    ∧ same_store w w'
    ∧ ∃ ms, metrics (this w') = metrics (this w) ++ ms
            ∧ states_entered ms =
                CellState_name <$> [VALIDATING; PROCESSING; COMPLETING; IDLE]).
Proof.
  intros Hx Hk. apply online_kind_Delivered in Hk.
  destruct (validate_run c) as (v & Hv & _ & _ & Hvalid).
  rewrite bool_decide_eq_true_2 in Hvalid by done.
  apply fulfilled_intro.
  destruct w as [[st q n ms sl el cf] h tr ck dr en].
  cbn [execute]. rewrite Hx. run.
  rewrite transitionTo_run. run. rewrite Hv, Hvalid. run.
  rewrite transitionTo_run. run.
  rewrite transitionTo_run. run.
  rewrite transitionTo_run. run.
  split; [reflexivity|]. split; [reflexivity|]. split; [reflexivity|].
  split; [by split|].
  eexists. split; [rewrite <- !app_assoc; reflexivity|]. reflexivity.
Qed.

(** An invalid command without idempotency key is rejected with the errors of
    [validate]. *)
Lemma execute_throws fuel c x w :
  goes_offline x = false → online_kind c = Throws →
  ∃ e w',
    execute (S fuel) c x w = (Rejected e, w')
    ∧ ((∃ errs, e = ResourceRegistryValidationError errs
               ∧ field <$> errs = missing_fields c
               ∧ Forall (λ e, code e = "REQUIRED") errs)
    ∧ state (this w') = ERROR
    ∧ same_store w w'
    ∧ ∃ ms, metrics (this w') = metrics (this w) ++ ms
            ∧ states_entered ms = CellState_name <$> [VALIDATING; ERROR]).
Proof.
  intros Hx Hk. apply online_kind_Throws in Hk.
  destruct (validate_run c) as (v & Hv & Hf & Hc & Hvalid).
  assert (valid v = false) as Hinvalid.
  { rewrite Hvalid. apply bool_decide_eq_false. intros Hnil.
    apply missing_fields_nil in Hnil. destruct Hnil as (_ & _ & ?). congruence. }
  apply rejected_intro.
  destruct w as [[st q n ms sl el cf] h tr ck dr en].
  cbn [execute]. rewrite Hx. run.
  rewrite transitionTo_run. run. rewrite Hv, Hinvalid. run.
  rewrite transitionTo_run. run.
  unfold truthy. rewrite Hk. run.
  split; [by exists (errors v)|].
  split; [reflexivity|]. split; [by split|].
  eexists. split; [rewrite <- !app_assoc; reflexivity|]. reflexivity.
Qed.

(** An invalid command with idempotency key: [execute] calls itself with the
    same command and context after [failed_attempt]. *)
Lemma execute_retries fuel c x w :
  goes_offline x = false → online_kind c = RetriesForever →
  execute (S fuel) c x w = execute fuel c x (failed_attempt c x w).2.
Proof.
  intros Hx Hk. apply online_kind_RetriesForever in Hk as [Hkey Hmiss].
  destruct (validate_run c) as (v & Hv & Hf & Hc & Hvalid).
  assert (valid v = false) as Hinvalid.
  { rewrite Hvalid. apply bool_decide_eq_false. intros Hnil.
    apply missing_fields_nil in Hnil. destruct Hnil as (? & ? & _).
    destruct Hmiss; congruence. }
  destruct w as [[st q n ms sl el cf] h tr ck dr en].
  cbn [execute]. rewrite Hx. unfold failed_attempt. run.
  rewrite !transitionTo_run. run. rewrite !Hv, Hinvalid. run.
  rewrite !transitionTo_run. run. rewrite Hkey. run.
  reflexivity.
Qed.

Lemma execute_pending fuel c x w :
  goes_offline x = false → online_kind c = RetriesForever →
  (execute fuel c x w).1 = Pending.
Proof.
  intros Hx Hk. revert w. induction fuel as [|fuel IH]; intros w.
  - reflexivity.
  - rewrite execute_retries by done. apply IH.
Qed.

(** What one failing attempt leaves behind. *)
Lemma failed_attempt_run c x w :
  let w' := (failed_attempt c x w).2 in
  frame false w w'
  ∧ same_store w w'
  ∧ state (this w') = ERROR
  ∧ (∃ delta, trace w' = trace w ++ delta
              ∧ backoff_waits delta = [backoff_delay (config (this w))])
  ∧ (∃ ms, metrics (this w') = metrics (this w) ++ ms
           ∧ states_entered ms = CellState_name <$> [VALIDATING; ERROR]
           ∧ length (filter (λ m, metric_name m = "execution_error") ms) = 1%nat).
Proof.
  destruct (validate_run c) as (v & Hv & _).
  destruct w as [[st q n ms sl el cf] h tr ck dr en].
  unfold failed_attempt. run. rewrite !transitionTo_run. run.
  rewrite Hv. run. rewrite !transitionTo_run. run.
  split; [|split; [by split|split; [reflexivity|split]]].
  - split; try reflexivity; try (cbn [clock draws]; lia).
    eexists. split; [rewrite <- !app_assoc; reflexivity|].
    rewrite !Forall_app. repeat split.
    + apply Forall_forall. intros ev Hev.
      apply list_elem_of_fmap in Hev as (h' & -> & Hh). exact Hh.
    + apply Forall_forall. intros ev Hev.
      apply list_elem_of_fmap in Hev as (h' & -> & Hh). exact Hh.
    + by repeat constructor.
    + repeat constructor. simpl. unfold backoff_delay. rewrite Z.pow_0_r. lia.
  - eexists. split; [rewrite <- !app_assoc; reflexivity|].
    unfold backoff_waits. rewrite !omap_app.
    assert (∀ s, omap (λ ev, match ev with BackoffWait d => Some d | _ => None end)
                   ((λ h0, StateListenerCalled h0 s) <$> sl) = []) as Hnone.
    { intros s. induction sl as [|a sl IH]; [done|]. simpl. exact IH. }
    rewrite !Hnone. reflexivity.
  - eexists. split; [rewrite <- !app_assoc; reflexivity|]. repeat split.
Qed.

(** ** The frame and the store along [sync] and the other calls *)

Lemma frame_replay_entry b w0
    (exec : ResourceRegistryCommand → ExecutionContext → Promise ResourceRegistryResult)
    slot counts :
  (∀ c x, preserves (frame b w0) (exec c x)) →
  preserves (frame b w0) (replay_entry exec slot counts).
Proof. intros Hexec. unfold replay_entry. frame_tac. apply Hexec. Qed.

Lemma frame_replay w0
    (exec : ResourceRegistryCommand → ExecutionContext → Promise ResourceRegistryResult)
    sorted counts :
  (∀ c x, preserves (frame true w0) (exec c x)) →
  preserves (frame true w0) (replay exec sorted counts).
Proof.
  intros Hexec. revert counts.
  induction sorted as [|slot rest IH]; intros counts; simpl.
  - apply preserves_ret.
  - apply preserves_bind; [|intros _; apply preserves_bind; [|intros ?; apply IH]].
    + apply preserves_frame. intros w. by apply frame_emit.
    + by apply frame_replay_entry.
Qed.

Lemma frame_sync w0 fuel : preserves (frame true w0) (sync fuel).
Proof.
  unfold sync. frame_tac. apply frame_replay. intros c x. apply frame_execute.
Qed.

(** The loop body never rejects: what the replay throws is caught. *)
Lemma replay_entry_settles
    (exec : ResourceRegistryCommand → ExecutionContext → Promise ResourceRegistryResult)
    slot counts w e :
  (replay_entry exec slot counts w).1 ≠ Rejected e.
Proof.
  unfold replay_entry. run.
  destruct (exec _ _ _) as [[a|e'|] w']; simpl; discriminate.
Qed.

Lemma preserves_wf_same_store {A} (m : Promise A) :
  (∀ w, same_store w (m w).2) → preserves wf m.
Proof. intros H w Hw. eapply wf_same_store; [apply H|exact Hw]. Qed.

Lemma Forall_filter_keep {A} (P Q : A → Prop) `{!∀ x, Decision (P x)} (l : list A) :
  Forall Q l → Forall Q (filter P l).
Proof.
  rewrite !Forall_forall. intros HQ x Hx.
  apply list_elem_of_filter in Hx as [_ Hx]. by apply HQ.
Qed.

Lemma wf_bump_retryCount w slot :
  wf w → wf (set_heap (alter bump_retryCount slot (heap w)) w).
Proof.
  intros [wc ws wq wn]. split; simpl; rewrite ?length_alter; auto.
  intros i e Hi. destruct (decide (slot = i)) as [->|Hne].
  - rewrite list_lookup_alter_eq in Hi.
    destruct (heap w !! i) as [e0|] eqn:He0; simpl in Hi; [|discriminate].
    injection Hi as <-. simpl. by apply ws.
  - rewrite list_lookup_alter_ne in Hi by done. by apply ws.
Qed.

Lemma wf_replay_entry
    (exec : ResourceRegistryCommand → ExecutionContext → Promise ResourceRegistryResult)
    slot counts :
  (∀ c x, preserves wf (exec c x)) → preserves wf (replay_entry exec slot counts).
Proof.
  intros Hexec. unfold replay_entry.
  apply preserves_try_catch.
  - apply preserves_bind; [apply preserves_get_heap|intros h].
    apply preserves_bind; [apply Hexec|intros _].
    apply preserves_bind; [apply preserves_get_heap|intros h'].
    apply preserves_bind; [|intros _; apply preserves_ret].
    intros w [wc ws wq wn]. split; simpl; auto.
    + by apply Forall_filter_keep.
    + by apply NoDup_filter.
  - intros e. apply preserves_bind; [|intros _; apply preserves_ret].
    intros w Hw. by apply wf_bump_retryCount.
Qed.

Lemma wf_replay
    (exec : ResourceRegistryCommand → ExecutionContext → Promise ResourceRegistryResult)
    sorted counts :
  (∀ c x, preserves wf (exec c x)) → preserves wf (replay exec sorted counts).
Proof.
  intros Hexec. revert counts.
  induction sorted as [|slot rest IH]; intros counts; simpl.
  - apply preserves_ret.
  - apply preserves_bind; [|intros _; apply preserves_bind; [|intros ?; apply IH]].
    + apply preserves_wf_same_store, same_store_emit.
    + by apply wf_replay_entry.
Qed.

Ltac wf_tac :=
  repeat first
    [ preserves_step
    | apply preserves_wf_same_store; intros ?; solve [ auto with store ]
    | apply preserves_wf_same_store; intros ?; split; reflexivity ].

Lemma wf_sync fuel : preserves wf (sync fuel).
Proof.
  unfold sync. wf_tac. apply wf_replay. intros c x. apply wf_execute.
Qed.

Lemma wf_dispose : preserves wf dispose.
Proof. unfold dispose. wf_tac. Qed.

Lemma wf_run_op fuel op : preserves wf (run_op fuel op).
Proof.
  destruct op; simpl;
    unfold getState, getMetrics, onStateChange, unsubscribeState, onError,
      unsubscribeError; wf_tac;
    first [ apply wf_execute | apply wf_executeOffline | apply wf_sync
          | apply wf_dispose ].
Qed.

Lemma reachable_wf w : reachable w → wf w.
Proof.
  induction 1 as [e p|fuel op w _ IH].
  - apply wf_new_world.
  - by apply wf_run_op.
Qed.

(** In a well-formed world every entry ever made carries a number below the
    next one, and the queued entries carry distinct numbers. *)
Lemma wf_seq_lt w e :
  wf w → e ∈ heap w → entry_sequenceNumber e < sequenceCounter (this w) + 1.
Proof.
  intros [wc ws _ _] He. apply list_elem_of_lookup in He as [i Hi].
  rewrite (ws i e Hi), wc. apply lookup_lt_Some in Hi. lia.
Qed.

Lemma wf_seq_at w l :
  wf w → (l < length (heap w))%nat → seq_at (heap w) l = Z.of_nat (S l).
Proof.
  intros [_ ws _ _] Hl. unfold seq_at.
  destruct (lookup_lt_is_Some_2 (heap w) l Hl) as [e He].
  rewrite (list_lookup_total_correct _ _ _ He). by apply ws.
Qed.

Lemma wf_NoDup_seq w :
  wf w → NoDup (seq_at (heap w) <$> offlineQueue (this w)).
Proof.
  intros Hw. pose proof (wf_queue w Hw) as wq.
  apply NoDup_fmap_2_strong; [|by apply wf_nodup].
  intros l1 l2 H1 H2 Heq.
  rewrite Forall_forall in wq.
  rewrite !(wf_seq_at w) in Heq by auto. lia.
Qed.

(** ** The sorted snapshot *)

Lemma insert_by_seq_Permutation h l ls : insert_by_seq h l ls ≡ₚ l :: ls.
Proof.
  induction ls as [|l' ls IH]; simpl; [done|].
  destruct (_ <=? _); [done|]. rewrite IH. apply Permutation_swap.
Qed.

Lemma sort_by_seq_Permutation h q : sort_by_seq h q ≡ₚ q.
Proof.
  induction q as [|l q IH]; simpl; [done|].
  by rewrite insert_by_seq_Permutation, IH.
Qed.

Lemma insert_by_seq_sorted h l ls :
  StronglySorted (seq_le h) ls → StronglySorted (seq_le h) (insert_by_seq h l ls).
Proof.
  induction 1 as [|l' ls Hsorted IH Hall]; simpl.
  - repeat constructor.
  - destruct (seq_at h l - seq_at h l' <=? 0) eqn:Hcmp.
    + apply Z.leb_le in Hcmp. constructor; [by constructor|].
      constructor; [unfold seq_le; lia|].
      eapply Forall_impl; [exact Hall|]. unfold seq_le. intros; lia.
    + apply Z.leb_gt in Hcmp. constructor; [exact IH|].
      rewrite insert_by_seq_Permutation. constructor; [unfold seq_le; lia|done].
Qed.

Lemma sort_by_seq_sorted h q : StronglySorted (seq_le h) (sort_by_seq h q).
Proof.
  induction q as [|l q IH]; simpl; [constructor|].
  by apply insert_by_seq_sorted.
Qed.

(** With distinct sequence numbers the snapshot does not depend on the order
    the queue is stored in. *)
Lemma sort_by_seq_unique h q q' :
  q' ≡ₚ q → NoDup (seq_at h <$> q) → sort_by_seq h q' = sort_by_seq h q.
Proof.
  intros Hperm Hnodup.
  apply (StronglySorted_unique_strong (seq_le h));
    [|apply sort_by_seq_sorted|apply sort_by_seq_sorted
     |by rewrite !sort_by_seq_Permutation].
  intros l1 l2 H1 H2 Hle1 Hle2.
  rewrite sort_by_seq_Permutation in H1, H2. rewrite Hperm in H1.
  assert (seq_at h l1 = seq_at h l2) as Heq by (unfold seq_le in *; lia).
  clear Hle1 Hle2 Hperm.
  induction q as [|a q IH]; [by apply elem_of_nil in H1|].
  rewrite fmap_cons in Hnodup. apply NoDup_cons in Hnodup as [Hnotin Hnodup].
  apply elem_of_cons in H1 as [->|H1], H2 as [->|H2]; auto.
  - exfalso. apply Hnotin. rewrite Heq. by apply list_elem_of_fmap_2.
  - exfalso. apply Hnotin. rewrite <- Heq. by apply list_elem_of_fmap_2.
Qed.

(** ** What [sync] replays, and in which order *)

Lemma replays_app tr1 tr2 : replays (tr1 ++ tr2) = replays tr1 ++ replays tr2.
Proof. apply omap_app. Qed.

Lemma replays_frame w w' :
  frame false w w' → ∃ delta, trace w' = trace w ++ delta ∧ replays delta = [].
Proof.
  intros [_ _ _ _ _ _ (delta & Ht & Hok)]. exists delta. split; [done|].
  clear Ht. induction Hok as [|ev delta Hev _ IH]; [done|].
  destruct ev; simpl in *; auto; done.
Qed.

Lemma frame_replay_entry_here
    (exec : ResourceRegistryCommand → ExecutionContext → Promise ResourceRegistryResult)
    slot counts w :
  (∀ w0 c x, preserves (frame false w0) (exec c x)) →
  frame false w (replay_entry exec slot counts w).2.
Proof. intros Hexec. apply frame_replay_entry; [apply Hexec|apply frame_refl]. Qed.

(** The loop starts the replays in the order of the list it is given: at any
    moment a prefix of it, and all of it once the loop is through. *)
Lemma replay_replays
    (exec : ResourceRegistryCommand → ExecutionContext → Promise ResourceRegistryResult)
    sorted counts w :
  (∀ w0 c x, preserves (frame false w0) (exec c x)) →
  (∀ e, (replay exec sorted counts w).1 ≠ Rejected e)
  ∧ ∃ delta, trace (replay exec sorted counts w).2 = trace w ++ delta
             ∧ replays delta `prefix_of` sorted
             ∧ ((replay exec sorted counts w).1 ≠ Pending → replays delta = sorted).
Proof.
  intros Hexec. revert counts w.
  induction sorted as [|slot rest IH]; intros counts w.
  - split; [done|]. exists []. by rewrite app_nil_r.
  - cbn [replay]. rewrite run_bind. cbn [emit].
    rewrite run_bind.
    pose proof (frame_replay_entry_here exec slot counts
                  (log_event (ReplayStarted slot) w) Hexec) as Hframe.
    pose proof (replay_entry_settles exec slot counts
                  (log_event (ReplayStarted slot) w)) as Hsettles.
    destruct (replay_entry exec slot counts (log_event (ReplayStarted slot) w))
      as [[counts'|e|] w2]; simpl in Hframe, Hsettles; cbv beta iota; cbn [fst snd].
    + destruct (replays_frame _ _ Hframe) as (d2 & Ht2 & Hr2).
      destruct (IH counts' w2) as (Hrej & d3 & Ht3 & Hpre & Hall).
      split; [exact Hrej|].
      exists ([ReplayStarted slot] ++ d2 ++ d3).
      split; [rewrite Ht3, Ht2; simpl; by rewrite <- !app_assoc|].
      rewrite !replays_app, Hr2. simpl. split.
      * by apply prefix_cons.
      * intros Hnp. f_equal. by apply Hall.
    + by destruct (Hsettles e).
    + destruct (replays_frame _ _ Hframe) as (d2 & Ht2 & Hr2).
      split; [done|].
      exists ([ReplayStarted slot] ++ d2).
      split; [rewrite Ht2; simpl; by rewrite <- !app_assoc|].
      rewrite replays_app, Hr2. simpl. split; [|done].
      apply prefix_cons, prefix_nil.
Qed.

Lemma replays_listeners s (sl : list Handler) :
  replays ((λ h, StateListenerCalled h s) <$> sl) = [].
Proof. induction sl as [|a sl IH]; [done|exact IH]. Qed.

Lemma sync_replays fuel w :
  (∀ e, (sync fuel w).1 ≠ Rejected e)
  ∧ ∃ delta, trace (sync fuel w).2 = trace w ++ delta
      ∧ replays delta `prefix_of` sort_by_seq (heap w) (offlineQueue (this w))
      ∧ ((sync fuel w).1 ≠ Pending →
         replays delta = sort_by_seq (heap w) (offlineQueue (this w))).
Proof.
  destruct w as [[st q n ms sl el cf] h tr ck dr en].
  unfold sync. rewrite run_bind, transitionTo_run. run.
  match goal with |- context [replay _ _ _ ?W] => set (w1 := W) end.
  destruct (replay_replays (execute fuel) (sort_by_seq h q) (0, 0) w1)
    as (Hrej & d1 & Htr1 & Hpre & Hall).
  { intros w0 c x. apply frame_execute. }
  destruct (replay (execute fuel) (sort_by_seq h q) (0, 0) w1)
    as [[counts|e|] w2]; cbv beta iota; cbn [fst snd] in *.
  - destruct w2 as [[st2 q2 n2 ms2 sl2 el2 cf2] h2 tr2 ck2 dr2 en2].
    subst w1. cbn [trace] in Htr1. subst tr2.
    run. rewrite transitionTo_run. run.
    split; [done|]. eexists. split; [rewrite <- !app_assoc; reflexivity|].
    rewrite !replays_app, !replays_listeners, app_nil_r. simpl.
    split; [done|]. intros _. by apply Hall.
  - by destruct (Hrej e).
  - destruct w2 as [[st2 q2 n2 ms2 sl2 el2 cf2] h2 tr2 ck2 dr2 en2].
    subst w1. cbn [trace] in Htr1. subst tr2. cbv beta iota.
    split; [done|]. eexists.
    split; [rewrite <- !app_assoc; reflexivity|].
    rewrite replays_app, replays_listeners. simpl. split; [done|]. by intros [].
Qed.

(** ** One replay *)

Lemma filter_ext_Forall {A} (P Q : A → Prop)
    `{!∀ x, Decision (P x), !∀ x, Decision (Q x)} (l : list A) :
  Forall (λ x, P x ↔ Q x) l → filter P l = filter Q l.
Proof.
  induction 1 as [|x l Hx _ IH]; [done|].
  rewrite !filter_cons, IH. apply decide_ext. exact Hx.
Qed.

Lemma filter_all {A} (P : A → Prop) `{!∀ x, Decision (P x)} (l : list A) :
  Forall P l → filter P l = l.
Proof.
  induction 1 as [|x l Hx _ IH]; [done|].
  by rewrite filter_cons_True, IH.
Qed.

Lemma id_at_app_l h k l : (l < length h)%nat → id_at (h ++ k) l = id_at h l.
Proof. intros Hl. unfold id_at. by rewrite lookup_total_app_l. Qed.

Lemma kind_at_app_l h k l : (l < length h)%nat → kind_at (h ++ k) l = kind_at h l.
Proof. intros Hl. unfold kind_at. by rewrite lookup_total_app_l. Qed.

Lemma id_at_bump h l l' : id_at (alter bump_retryCount l h) l' = id_at h l'.
Proof.
  unfold id_at. rewrite list_lookup_total_alter.
  case_decide as Hd; [|done]. by destruct Hd as [-> _].
Qed.

Lemma kind_at_bump h l l' : kind_at (alter bump_retryCount l h) l' = kind_at h l'.
Proof.
  unfold kind_at. rewrite list_lookup_total_alter.
  case_decide as Hd; [|done]. by destruct Hd as [-> _].
Qed.

Lemma generated_later_mono b w w' i :
  frame b w w' → generated_later w' i → generated_later w i.
Proof.
  intros [Hc _ _ He Hk Hd _] (k & d & Hk' & Hd' & ->).
  exists k, d. rewrite Hc, He. repeat split; lia.
Qed.

(** The loop body, by the way the replay settles. *)
Lemma replay_entry_unfold
    (exec : ResourceRegistryCommand → ExecutionContext → Promise ResourceRegistryResult)
    slot counts w :
  replay_entry exec slot counts w =
  match exec (entry_command (heap w !!! slot))
             (with_isOffline false (entry_context (heap w !!! slot))) w with
  | (Fulfilled _, w') =>
      (Fulfilled (counts.1 + 1, counts.2),
       set_this (set_offlineQueue
                   (remove_by_id (heap w') (entry_id (heap w' !!! slot))
                                 (offlineQueue (this w')))
                   (this w')) w')
  | (Rejected _, w') =>
      (Fulfilled (counts.1, counts.2 + 1),
       set_heap (alter bump_retryCount slot (heap w')) w')
  | (Pending, w') => (Pending, w')
  end.
Proof.
  unfold replay_entry, try_catch, mbind, Promise_bind, get_heap, modify_this,
    modify_heap, mret, Promise_ret.
  by destruct (exec _ _ w) as [[r|e|] w'].
Qed.

(** What the loop body does with the entry in [slot], by the kind of the
    entry. *)
Lemma replay_entry_run fuel slot counts w :
  (slot < length (heap w))%nat →
  match kind_at (heap w) slot with
  | Delivered =>
      ∃ w', replay_entry (execute (S fuel)) slot counts w
            = (Fulfilled (counts.1 + 1, counts.2), w')
            ∧ heap w' = heap w
            ∧ offlineQueue (this w')
              = remove_by_id (heap w) (id_at (heap w) slot) (offlineQueue (this w))
  | Requeued =>
      ∃ w' e, replay_entry (execute (S fuel)) slot counts w
              = (Fulfilled (counts.1 + 1, counts.2), w')
              ∧ heap w' = heap w ++ [e]
              ∧ generated_later w (entry_id e)
              ∧ offlineQueue (this w')
                = remove_by_id (heap w ++ [e]) (id_at (heap w) slot)
                               (offlineQueue (this w) ++ [length (heap w)])
  | Throws =>
      ∃ w', replay_entry (execute (S fuel)) slot counts w
            = (Fulfilled (counts.1, counts.2 + 1), w')
            ∧ heap w' = alter bump_retryCount slot (heap w)
            ∧ offlineQueue (this w') = offlineQueue (this w)
  | RetriesForever =>
      (replay_entry (execute (S fuel)) slot counts w).1 = Pending
  end.
Proof.
  intros Hslot. rewrite replay_entry_unfold.
  unfold kind_at, replay_kind, id_at.
  generalize (entry_command (heap w !!! slot)).
  generalize (with_isOffline false (entry_context (heap w !!! slot))).
  intros x c.
  destruct (goes_offline x) eqn:Hx.
  - cbn [execute]. rewrite Hx.
    destruct (executeOffline_run c x w)
      as (r & w' & -> & _ & _ & (e & Hh & _ & _ & _ & _ & Hid) & Hq & _).
    eexists _, e. split; [reflexivity|]. cbn [heap this set_this set_offlineQueue offlineQueue].
    split; [done|]. split.
    + exists (S (clock w)), (draws w). repeat split; auto with lia.
    + rewrite Hh, Hq. by rewrite lookup_total_app_l.
  - destruct (online_kind c) eqn:Hk.
    + destruct (execute_delivers fuel c x w Hx Hk)
        as (r & w' & -> & _ & _ & _ & [Hq Hh _] & _).
      eexists. split; [reflexivity|]. cbn [heap this set_this set_offlineQueue offlineQueue].
      by rewrite Hh, Hq.
    + by destruct (online_kind_not_Requeued c).
    + destruct (execute_throws fuel c x w Hx Hk)
        as (e & w' & -> & _ & _ & [Hq Hh _] & _).
      eexists. split; [reflexivity|]. cbn [heap this set_heap offlineQueue].
      by rewrite Hh, Hq.
    + pose proof (execute_pending (S fuel) c x w Hx Hk) as Hp.
      destruct (execute (S fuel) c x w) as [[r|e|] w']; simpl in Hp; try done.
Qed.

(** ** The loop of [sync] *)

Lemma agree_refl h : agree h h.
Proof. by split. Qed.

Lemma agree_app h e : agree h (h ++ [e]).
Proof.
  split; [rewrite length_app; lia|].
  intros l Hl. by rewrite id_at_app_l, kind_at_app_l.
Qed.

Lemma agree_bump h slot : agree h (alter bump_retryCount slot h).
Proof.
  split; [by rewrite length_alter|].
  intros l _. by rewrite id_at_bump, kind_at_bump.
Qed.

Section Agree.
Context (h h1 : list OfflineQueueEntry) (Hagree : agree h h1).

Lemma agree_throwers ls :
  Forall (λ l, (l < length h)%nat) ls →
  filter (λ l, kind_at h1 l = Throws) ls = filter (λ l, kind_at h l = Throws) ls.
Proof.
  intros Hls. apply filter_ext_Forall.
  eapply Forall_impl; [exact Hls|]. intros l Hl. simpl.
  by destruct (proj2 Hagree l Hl) as [_ ->].
Qed.

Lemma agree_removed ls :
  Forall (λ l, (l < length h)%nat) ls →
  filter (λ l, kind_at h1 l ≠ Throws) ls = filter (λ l, kind_at h l ≠ Throws) ls.
Proof.
  intros Hls. apply filter_ext_Forall.
  eapply Forall_impl; [exact Hls|]. intros l Hl. simpl.
  by destruct (proj2 Hagree l Hl) as [_ ->].
Qed.

Lemma agree_ids ls :
  Forall (λ l, (l < length h)%nat) ls → id_at h1 <$> ls = id_at h <$> ls.
Proof.
  induction 1 as [|l ls Hl _ IH]; [done|].
  rewrite !fmap_cons, IH. f_equal. by destruct (proj2 Hagree l Hl) as [-> _].
Qed.

Lemma agree_keep (ids : list string) q :
  Forall (λ l, (l < length h)%nat) q →
  filter (λ l, id_at h1 l ∉ ids) q = filter (λ l, id_at h l ∉ ids) q.
Proof.
  intros Hq. apply filter_ext_Forall.
  eapply Forall_impl; [exact Hq|]. intros l Hl. simpl.
  by destruct (proj2 Hagree l Hl) as [-> _].
Qed.

Lemma agree_removed_ids ls :
  Forall (λ l, (l < length h)%nat) ls →
  id_at h1 <$> filter (λ l, kind_at h1 l ≠ Throws) ls
  = id_at h <$> filter (λ l, kind_at h l ≠ Throws) ls.
Proof.
  intros Hls. rewrite agree_removed by done.
  apply agree_ids. by apply Forall_filter_keep.
Qed.
End Agree.

Lemma Forall_lt_le (n m : nat) (ls : list nat) :
  (n ≤ m)%nat → Forall (λ l, (l < n)%nat) ls → Forall (λ l, (l < m)%nat) ls.
Proof.
  intros Hnm Hls. eapply Forall_impl; [exact Hls|]. simpl. intros; lia.
Qed.

Lemma replay_cons
    (exec : ResourceRegistryCommand → ExecutionContext → Promise ResourceRegistryResult)
    slot rest counts w :
  replay exec (slot :: rest) counts w =
  match replay_entry exec slot counts (log_event (ReplayStarted slot) w) with
  | (Fulfilled counts', w') => replay exec rest counts' w'
  | (Rejected e, w') => (Rejected e, w')
  | (Pending, w') => (Pending, w')
  end.
Proof. reflexivity. Qed.

Lemma agree_trans h h1 h2 : agree h h1 → agree h1 h2 → agree h h2.
Proof.
  intros [Hl1 H1] [Hl2 H2]. split; [lia|].
  intros l Hl. destruct (H1 l Hl) as [<- <-]. apply H2. lia.
Qed.

(** The loop over entries none of which retries forever: it ends, having
    counted and dropped the entries whose replay returned and bumped the
    entries whose replay threw. *)
Lemma replay_run fuel ls : ∀ counts w,
  NoDup ls →
  Forall (λ l, (l < length (heap w))%nat) ls →
  Forall (λ l, (l < length (heap w))%nat) (offlineQueue (this w)) →
  Forall (λ l, kind_at (heap w) l ≠ RetriesForever) ls →
  (∀ l, l ∈ ls → ¬ generated_later w (id_at (heap w) l)) →
  ∃ w' news,
    replay (execute (S fuel)) ls counts w
    = (Fulfilled
         (counts.1 + Z.of_nat (length (filter (λ l, kind_at (heap w) l ≠ Throws) ls)),
          counts.2 + Z.of_nat (length (filter (λ l, kind_at (heap w) l = Throws) ls))),
       w')
    ∧ offlineQueue (this w')
      = filter (λ l, id_at (heap w) l ∉
                     (id_at (heap w) <$> filter (λ l, kind_at (heap w) l ≠ Throws) ls))
               (offlineQueue (this w)) ++ news
    ∧ Forall (λ l, (length (heap w) ≤ l)%nat) news
    ∧ agree (heap w) (heap w')
    ∧ (∀ l, (l < length (heap w))%nat →
         heap w' !!! l
         = if bool_decide (l ∈ filter (λ l, kind_at (heap w) l = Throws) ls)
           then bump_retryCount (heap w !!! l) else heap w !!! l).
Proof.
  induction ls as [|slot rest IH]; intros counts w Hnodup Hls Hq Hkinds Hfresh.
  - exists w, []. simpl. rewrite !Z.add_0_r, app_nil_r.
    split; [by destruct counts|]. split.
    + symmetry. apply filter_all. apply Forall_forall. intros l _ Hin.
      by apply elem_of_nil in Hin.
    + split; [constructor|]. split; [apply agree_refl|done].
  - apply NoDup_cons in Hnodup as [Hnotin Hnodup].
    apply Forall_cons in Hls as [Hslot Hrest].
    apply Forall_cons in Hkinds as [Hkind Hkinds].
    rewrite replay_cons.
    pose proof (frame_replay_entry_here (execute (S fuel)) slot counts
                  (log_event (ReplayStarted slot) w)
                  (λ w0 c x, frame_execute false w0 (S fuel) c x)) as Hframe.
    pose proof (replay_entry_run fuel slot counts
                  (log_event (ReplayStarted slot) w) Hslot) as Hentry.
    cbn [heap this log_event] in Hentry.
    assert (∀ w1, frame false (log_event (ReplayStarted slot) w) w1 →
                  ∀ i, generated_later w1 i → generated_later w i) as Hmono.
    { intros w1 Hf i Hi. by apply (generated_later_mono false _ _ i Hf) in Hi. }
    rewrite !filter_cons.
    destruct (kind_at (heap w) slot) eqn:Hk; [| | |done].
    + (* the replay delivers *)
      destruct Hentry as (w1 & Hrun & Hh & Hq1).
      rewrite Hrun in *. cbn [snd] in Hframe.
      destruct (IH (counts.1 + 1, counts.2) w1)
        as (w' & news & Hgo & Hq' & Hnews & Hag & Hheap).
      { done. } { by rewrite Hh. }
      { rewrite Hh, Hq1. by apply Forall_filter_keep. }
      { by rewrite Hh. }
      { intros l Hl Hgen. apply (Hfresh l); [by right|].
        rewrite <- Hh. by apply (Hmono w1). }
      rewrite Hh in *. clear Hh.
      exists w', news. rewrite Hgo.
      rewrite decide_True by done. rewrite decide_False by done.
      cbn [fst snd length]. split; [do 3 f_equal; lia|].
      split; [|split; [done|split; [done|done]]].
      rewrite Hq', Hq1. f_equal. unfold remove_by_id.
      rewrite list_filter_filter. apply list_filter_iff. intros l.
      rewrite fmap_cons, not_elem_of_cons. unfold id_at. tauto.
    + (* the replay is routed offline again *)
      destruct Hentry as (w1 & e & Hrun & Hh & Hgen & Hq1).
      rewrite Hrun in *. cbn [snd] in Hframe.
      change (generated_later w (entry_id e)) in Hgen.
      pose proof (agree_app (heap w) e) as Hag1. rewrite <- Hh in Hag1.
      assert (length (heap w1) = S (length (heap w))) as Hlen
        by (rewrite Hh, length_app; simpl; lia).
      assert ((heap w1) !!! length (heap w) = e) as Hnew.
      { rewrite Hh, lookup_total_app_r by lia. by rewrite Nat.sub_diag. }
      assert (offlineQueue (this w1)
              = filter (λ l, id_at (heap w) l ≠ id_at (heap w) slot)
                       (offlineQueue (this w)) ++ [length (heap w)]) as Hq1'.
      { rewrite Hq1. unfold remove_by_id. rewrite filter_app. f_equal.
        - apply filter_ext_Forall. eapply Forall_impl; [exact Hq|].
          intros l Hl. simpl. by rewrite lookup_total_app_l.
        - rewrite <- Hh. rewrite filter_cons_True; [done|].
          rewrite Hnew. intros Heq. apply (Hfresh slot); [by left|].
          by rewrite <- Heq. }
      clear Hq1.
      destruct (IH (counts.1 + 1, counts.2) w1)
        as (w' & news & Hgo & Hq' & Hnews & Hag & Hheap).
      { done. }
      { eapply Forall_lt_le; [|exact Hrest]. lia. }
      { rewrite Hq1'. apply Forall_app. split.
        - apply Forall_filter_keep. eapply Forall_lt_le; [|exact Hq]. lia.
        - constructor; [lia|constructor]. }
      { apply Forall_forall. intros l Hl.
        rewrite Forall_forall in Hrest, Hkinds.
        destruct (proj2 Hag1 l (Hrest l Hl)) as [_ ->]. by apply Hkinds. }
      { intros l Hl Hgen'. pose proof Hrest as Hrest'.
        rewrite Forall_forall in Hrest'.
        destruct (proj2 Hag1 l (Hrest' l Hl)) as [Hid _]. rewrite Hid in Hgen'.
        apply (Hfresh l); [by right|]. by apply (Hmono w1). }
      rewrite (agree_removed _ _ Hag1), (agree_throwers _ _ Hag1) in Hgo by done.
      rewrite (agree_removed_ids _ _ Hag1) in Hq' by done.
      exists w', (length (heap w) :: news). rewrite Hgo.
      rewrite decide_True by done. rewrite decide_False by done.
      cbn [fst snd length]. split; [do 3 f_equal; lia|].
      split; [|split; [|split]].
      * rewrite Hq', Hq1', filter_app, <- app_assoc. f_equal.
        -- rewrite (agree_keep _ _ Hag1) by (by apply Forall_filter_keep).
           rewrite list_filter_filter. apply list_filter_iff. intros l.
           rewrite fmap_cons, not_elem_of_cons. tauto.
        -- rewrite filter_cons_True; [done|].
           unfold id_at at 1. rewrite Hnew. intros Hin.
           apply list_elem_of_fmap in Hin as (l & Hid & Hl).
           apply list_elem_of_filter in Hl as [_ Hl].
           apply (Hfresh l); [by right|]. by rewrite <- Hid.
      * constructor; [lia|]. eapply Forall_impl; [exact Hnews|].
        simpl. intros; lia.
      * by apply (agree_trans _ _ _ Hag1).
      * intros l Hl. rewrite Hheap by lia.
        rewrite (agree_throwers _ _ Hag1) by done.
        by rewrite Hh, lookup_total_app_l.
    + (* the replay throws *)
      destruct Hentry as (w1 & Hrun & Hh & Hq1).
      rewrite Hrun in *. cbn [snd] in Hframe.
      pose proof (agree_bump (heap w) slot) as Hag1. rewrite <- Hh in Hag1.
      assert (length (heap w1) = length (heap w)) as Hlen
        by (by rewrite Hh, length_alter).
      destruct (IH (counts.1, counts.2 + 1) w1)
        as (w' & news & Hgo & Hq' & Hnews & Hag & Hheap).
      { done. } { by rewrite Hlen. } { by rewrite Hlen, Hq1. }
      { apply Forall_forall. intros l Hl.
        rewrite Forall_forall in Hrest, Hkinds.
        destruct (proj2 Hag1 l (Hrest l Hl)) as [_ ->]. by apply Hkinds. }
      { intros l Hl Hgen'. pose proof Hrest as Hrest'.
        rewrite Forall_forall in Hrest'.
        destruct (proj2 Hag1 l (Hrest' l Hl)) as [Hid _]. rewrite Hid in Hgen'.
        apply (Hfresh l); [by right|]. by apply (Hmono w1). }
      rewrite (agree_removed _ _ Hag1), (agree_throwers _ _ Hag1) in Hgo by done.
      rewrite (agree_removed_ids _ _ Hag1) in Hq' by done.
      rewrite Hq1 in Hq'. rewrite (agree_keep _ _ Hag1) in Hq' by done.
      exists w', news. rewrite Hgo.
      rewrite decide_False by (intros Hne; by apply Hne).
      rewrite decide_True by done.
      cbn [fst snd length]. split; [do 3 f_equal; lia|].
      split; [done|]. split; [by rewrite <- Hlen|].
      split; [by apply (agree_trans _ _ _ Hag1)|].
      intros l Hl. rewrite Hheap by lia.
      rewrite (agree_throwers _ _ Hag1) by done.
      destruct (decide (l = slot)) as [->|Hne].
      * rewrite bool_decide_eq_false_2.
        2:{ intros Hin. apply list_elem_of_filter in Hin as [_ Hin]. done. }
        rewrite bool_decide_eq_true_2 by left.
        by rewrite Hh, list_lookup_total_alter_eq.
      * rewrite Hh, list_lookup_total_alter_ne by done.
        apply (f_equal (λ b : bool, if b then _ else _)).
        apply bool_decide_ext. rewrite elem_of_cons.
        split; [auto|intros [?|?]; done].
Qed.

(** ** [sync] as a whole *)

Lemma before_replay_run w :
  ∃ t w1, before_replay w = (Fulfilled t, w1)
          ∧ same_store w w1 ∧ frame false w w1 ∧ state (this w1) = SYNCING.
Proof.
  assert (frame false w (before_replay w).2) as Hf.
  { assert (preserves (frame false w) before_replay) as Hp
      by (unfold before_replay; frame_tac).
    apply Hp, frame_refl. }
  apply fulfilled_intro. revert Hf.
  destruct w as [[st q n ms sl el cf] h tr ck dr en].
  unfold before_replay. rewrite run_bind, transitionTo_run. run.
  intros Hf. split; [by split|]. by split.
Qed.

Lemma after_replay_run w :
  ∃ t w1, after_replay w = (Fulfilled t, w1)
          ∧ same_store w w1 ∧ frame false w w1 ∧ state (this w1) = IDLE.
Proof.
  assert (frame false w (after_replay w).2) as Hf.
  { assert (preserves (frame false w) after_replay) as Hp
      by (unfold after_replay; frame_tac).
    apply Hp, frame_refl. }
  apply fulfilled_intro. revert Hf.
  destruct w as [[st q n ms sl el cf] h tr ck dr en].
  unfold after_replay. run. rewrite transitionTo_run. run.
  intros Hf. split; [by split|]. by split.
Qed.

(** [sync] is its loop between [before_replay] and [after_replay]. *)
Lemma sync_unfold fuel w :
  sync fuel w =
  match before_replay w with
  | (Fulfilled startTime, w1) =>
      match replay (execute fuel)
                   (sort_by_seq (heap w) (offlineQueue (this w))) (0, 0) w1 with
      | (Fulfilled counts, w2) =>
          match after_replay w2 with
          | (Fulfilled t, w3) =>
              (Fulfilled {| synced := counts.1; failed := counts.2;
                            conflicts := []; duration := t - startTime |}, w3)
          | (Rejected e, w3) => (Rejected e, w3)
          | (Pending, w3) => (Pending, w3)
          end
      | (Rejected e, w2) => (Rejected e, w2)
      | (Pending, w2) => (Pending, w2)
      end
  | (Rejected e, w1) => (Rejected e, w1)
  | (Pending, w1) => (Pending, w1)
  end.
Proof.
  destruct w as [[st q n ms sl el cf] h tr ck dr en].
  unfold sync, before_replay, after_replay.
  rewrite !run_bind, !transitionTo_run. run.
  destruct (replay _ _ _ _) as [[counts|e|] w2]; [|done|done].
  destruct w2 as [[st2 q2 n2 ms2 sl2 el2 cf2] h2 tr2 ck2 dr2 en2].
  run. rewrite !transitionTo_run. reflexivity.
Qed.

(** The loop ends when no entry retries forever. *)
Lemma replay_returns fuel ls : ∀ counts w,
  Forall (λ l, (l < length (heap w))%nat) ls →
  Forall (λ l, kind_at (heap w) l ≠ RetriesForever) ls →
  ∃ counts' w', replay (execute (S fuel)) ls counts w = (Fulfilled counts', w').
Proof.
  induction ls as [|slot rest IH]; intros counts w Hls Hkinds.
  - by exists counts, w.
  - apply Forall_cons in Hls as [Hslot Hrest].
    apply Forall_cons in Hkinds as [Hkind Hkinds].
    rewrite replay_cons.
    pose proof (replay_entry_run fuel slot counts
                  (log_event (ReplayStarted slot) w) Hslot) as Hentry.
    cbn [heap this log_event] in Hentry.
    assert (∀ counts1 w1, agree (heap w) (heap w1) →
              ∃ counts' w', replay (execute (S fuel)) rest counts1 w1
                            = (Fulfilled counts', w')) as Hnext.
    { intros counts1 w1 Hag. apply IH.
      - eapply Forall_lt_le; [exact (proj1 Hag)|done].
      - apply Forall_forall. intros l Hl.
        rewrite Forall_forall in Hrest, Hkinds.
        destruct (proj2 Hag l (Hrest l Hl)) as [_ ->]. by apply Hkinds. }
    destruct (kind_at (heap w) slot); [| | |done].
    + destruct Hentry as (w1 & -> & Hh & _). apply Hnext.
      rewrite Hh. apply agree_refl.
    + destruct Hentry as (w1 & e & -> & Hh & _). apply Hnext.
      rewrite Hh. apply agree_app.
    + destruct Hentry as (w1 & -> & Hh & _). apply Hnext.
      rewrite Hh. apply agree_bump.
Qed.

Lemma sync_returns fuel w :
  Forall (λ l, (l < length (heap w))%nat) (offlineQueue (this w)) →
  Forall (λ l, kind_at (heap w) l ≠ RetriesForever) (offlineQueue (this w)) →
  ∃ r w', sync (S fuel) w = (Fulfilled r, w').
Proof.
  intros Hq Hkinds. rewrite sync_unfold.
  destruct (before_replay_run w) as (t & w1 & -> & [_ Hh _] & _).
  destruct (replay_returns fuel (sort_by_seq (heap w) (offlineQueue (this w)))
              (0, 0) w1) as (counts & w2 & ->).
  { rewrite Hh. by rewrite sort_by_seq_Permutation. }
  { rewrite Hh. by rewrite sort_by_seq_Permutation. }
  destruct (after_replay_run w2) as (t' & w3 & -> & _). eauto.
Qed.

(** Replays that end never depend on the world they run in: an entry either
    always comes back with a result or always throws. *)
Lemma replay_kind_sound e fuel w :
  match replay_kind e with
  | Delivered | Requeued =>
      ∃ r w', execute (S fuel) (entry_command e)
                (with_isOffline false (entry_context e)) w = (Fulfilled r, w')
  | Throws =>
      ∃ err w', execute (S fuel) (entry_command e)
                  (with_isOffline false (entry_context e)) w = (Rejected err, w')
  | RetriesForever =>
      (execute (S fuel) (entry_command e)
         (with_isOffline false (entry_context e)) w).1 = Pending
  end.
Proof.
  unfold replay_kind.
  destruct (goes_offline _) eqn:Hx.
  - cbn [execute]. rewrite Hx.
    destruct (executeOffline_run (entry_command e)
                (with_isOffline false (entry_context e)) w) as (r & w' & -> & _).
    eauto.
  - destruct (online_kind (entry_command e)) eqn:Hk.
    + destruct (execute_delivers fuel _ _ w Hx Hk) as (r & w' & -> & _). eauto.
    + by destruct (online_kind_not_Requeued (entry_command e)).
    + destruct (execute_throws fuel _ _ w Hx Hk) as (err & w' & -> & _). eauto.
    + by apply execute_pending.
Qed.

(** ** Validation failures (C1) *)

(** The test at the head of [execute], read the other way round. *)
Lemma goes_offline_false x :
  goes_offline x = false ↔
  ctx_isOffline x = false ∧ ctx_networkQuality x ≠ "offline".
Proof.
  unfold goes_offline. rewrite orb_false_iff, bool_decide_eq_false. tauto.
Qed.

(** C1, as amended.  For every command without idempotency key (whatever else
    it lacks) and every context that is not routed offline, [execute] rejects
    with a [ResourceRegistryValidationError] whose error list names exactly
    the missing fields, one error per field and in the order id, type,
    idempotencyKey, each with code REQUIRED; the cell is left in ERROR.  (A
    command that has an idempotency key but lacks id or type is retried
    instead, see [execute_retries].) *)
Theorem C1_validation_failure_without_idempotency_key fuel c x w :
  goes_offline x = false →
  falsy (cmd_idempotencyKey c) = true →
  ∃ errs w',
    execute (S fuel) c x w = (Rejected (ResourceRegistryValidationError errs), w')
    ∧ field <$> errs = missing_fields c
    ∧ length errs = length (missing_fields c)
    ∧ Forall (λ e, code e = "REQUIRED") errs
    ∧ state (this w') = ERROR.
Proof.
  intros Hx Hk.
  destruct (execute_throws fuel c x w Hx) as (e & w' & Hrun & Herr & Hst & _).
  { by apply online_kind_Throws. }
  destruct Herr as (errs & -> & Hf & Hc).
  exists errs, w'. repeat split; auto.
  by rewrite <- Hf, length_fmap.
Qed.

Lemma C1_witness :
  ∃ errs w',
    execute 1 cmd_no_key online_ctx fresh_cell
      = (Rejected (ResourceRegistryValidationError errs), w')
    ∧ field <$> errs = ["idempotencyKey"]
    ∧ length errs = 1%nat
    ∧ Forall (λ e, code e = "REQUIRED") errs
    ∧ state (this w') = ERROR.
Proof.
  apply (C1_validation_failure_without_idempotency_key
           0 cmd_no_key online_ctx fresh_cell); reflexivity.
Defined.

(** C1 as stated fails: the command [{type: "noop", idempotencyKey: "k1"}]
    lacks its id, the context is online, and yet no amount of running makes
    [execute] reject: the validation error is caught and the command is
    retried. *)
Lemma C1_missing_id_with_key_never_rejects :
  ¬ ∃ fuel e w', execute fuel cmd_no_id online_ctx fresh_cell = (Rejected e, w').
Proof.
  intros (fuel & e & w' & Hrun).
  pose proof (execute_pending fuel cmd_no_id online_ctx fresh_cell
                eq_refl eq_refl) as Hp.
  rewrite Hrun in Hp. discriminate.
Qed.

(** ** The successful pipeline (C2) *)

(** C2.  For every command with id, type and idempotency key present and
    every context that is not routed offline, [execute] returns a result with
    status success and the command's id as commandId, and the state read
    afterwards is IDLE. *)
Theorem C2_execute_online_success fuel c x w :
  goes_offline x = false →
  truthy (cmd_id c) = true →
  truthy (cmd_type c) = true →
  truthy (cmd_idempotencyKey c) = true →
  ∃ r w',
    execute (S fuel) c x w = (Fulfilled r, w')
    ∧ res_status r = success
    ∧ res_commandId r = js_of_opt (cmd_id c)
    ∧ (getState w').1 = Fulfilled IDLE.
Proof.
  unfold truthy. intros Hx Hi Ht Hk.
  apply negb_true_iff in Hi, Ht, Hk.
  destruct (execute_delivers fuel c x w Hx) as (r & w' & Hrun & Hs & Hc & Hst & _).
  { apply online_kind_Delivered, missing_fields_nil. auto. }
  exists r, w'. repeat split; auto.
  unfold getState. rewrite run_bind. simpl. by rewrite Hst.
Qed.

Lemma C2_witness :
  ∃ r w',
    execute 1 cmd_1 online_ctx fresh_cell = (Fulfilled r, w')
    ∧ res_status r = success
    ∧ res_commandId r = JString "cmd-1"
    ∧ (getState w').1 = Fulfilled IDLE.
Proof.
  apply (C2_execute_online_success 0 cmd_1 online_ctx fresh_cell); reflexivity.
Defined.

(** ** Offline routing (C3) *)

(** C3.  In every world a caller can bring about and for every command,
    [execute] on a context with [isOffline] set or with network quality
    'offline' returns a result with status partial; the only state it enters
    is OFFLINE (so neither VALIDATING nor PROCESSING), which is also the only
    state the listeners are told; and it appends exactly one entry to the
    queue, whose sequence number is greater than that of every entry made
    before (the store keeps every entry ever made, also those that left the
    queue). *)
Theorem C3_offline_execute_enqueues fuel c x w :
  reachable w →
  goes_offline x = true →
  ∃ r w' e,
    execute (S fuel) c x w = (Fulfilled r, w')
    ∧ res_status r = partial
    ∧ (∃ ms, metrics (this w') = metrics (this w) ++ ms
             ∧ states_entered ms = [CellState_name OFFLINE]
             ∧ (CellState_name VALIDATING ∉ states_entered ms)
             ∧ (CellState_name PROCESSING ∉ states_entered ms))
    ∧ (∃ delta, trace w' = trace w ++ delta
                ∧ ∀ h s, StateListenerCalled h s ∈ delta → s = OFFLINE)
    ∧ heap w' = heap w ++ [e]
    ∧ offlineQueue (this w') = offlineQueue (this w) ++ [length (heap w)]
    ∧ entry_command e = c ∧ entry_context e = x
    ∧ ∀ e0, e0 ∈ heap w → entry_sequenceNumber e0 < entry_sequenceNumber e.
Proof.
  intros Hreach Hx. apply reachable_wf in Hreach.
  cbn [execute]. rewrite Hx.
  destruct (executeOffline_run c x w)
    as (r & w' & Hrun & Hs & _ & (e & Hh & Hc & Hctx & Hseq & _) & Hq & _ & _
        & (ms & Hms & Hent & _) & Htr).
  exists r, w', e. repeat split; auto.
  - exists ms. rewrite Hent. repeat split; auto.
    + intros Hin. apply list_elem_of_singleton in Hin. discriminate.
    + intros Hin. apply list_elem_of_singleton in Hin. discriminate.
  - intros e0 He0. rewrite Hseq. by apply wf_seq_lt.
Qed.

Lemma C3_witness :
  ∃ r w' e,
    execute 1 cmd_1 offline_ctx (run_op 1 (OpExecute cmd_no_key offline_ctx) fresh_cell).2
      = (Fulfilled r, w')
    ∧ res_status r = partial
    ∧ (∃ ms, metrics (this w') =
               metrics (this (run_op 1 (OpExecute cmd_no_key offline_ctx) fresh_cell).2) ++ ms
             ∧ states_entered ms = [CellState_name OFFLINE]
             ∧ (CellState_name VALIDATING ∉ states_entered ms)
             ∧ (CellState_name PROCESSING ∉ states_entered ms))
    ∧ (∃ delta, trace w' =
                  trace (run_op 1 (OpExecute cmd_no_key offline_ctx) fresh_cell).2 ++ delta
                ∧ ∀ h s, StateListenerCalled h s ∈ delta → s = OFFLINE)
    ∧ heap w' = heap (run_op 1 (OpExecute cmd_no_key offline_ctx) fresh_cell).2 ++ [e]
    ∧ offlineQueue (this w') =
        offlineQueue (this (run_op 1 (OpExecute cmd_no_key offline_ctx) fresh_cell).2)
          ++ [length (heap (run_op 1 (OpExecute cmd_no_key offline_ctx) fresh_cell).2)]
    ∧ entry_command e = cmd_1 ∧ entry_context e = offline_ctx
    ∧ ∀ e0, e0 ∈ heap (run_op 1 (OpExecute cmd_no_key offline_ctx) fresh_cell).2 →
            entry_sequenceNumber e0 < entry_sequenceNumber e.
Proof.
  apply (C3_offline_execute_enqueues 0 cmd_1 offline_ctx
           (run_op 1 (OpExecute cmd_no_key offline_ctx) fresh_cell).2).
  - apply reachable_op, reachable_new.
  - reflexivity.
Defined.

(** ** Replay order (C4) *)

Lemma run_ops_enqueue fuel c x ops w :
  run_ops fuel (OpExecuteOffline c x :: ops) w
  = run_ops fuel ops (executeOffline c x w).2.
Proof.
  cbn [run_ops run_op]. rewrite run_bind.
  by destruct (executeOffline_run c x w) as (r & w' & -> & _).
Qed.

(** Three commands enqueued on a fresh cell sit in slots 0, 1, 2 with the
    sequence numbers 1, 2, 3. *)
Lemma three_enqueued e p c1 c2 c3 x1 x2 x3 :
  let w3 := run_ops 1 [OpExecuteOffline c1 x1; OpExecuteOffline c2 x2;
                       OpExecuteOffline c3 x3] (new_world e p) in
  offlineQueue (this w3) = [0; 1; 2]%nat
  ∧ entry_command <$> heap w3 = [c1; c2; c3]
  ∧ entry_sequenceNumber <$> heap w3 = [1; 2; 3]
  ∧ sort_by_seq (heap w3) (offlineQueue (this w3)) = [0; 1; 2]%nat.
Proof.
  cbv zeta. rewrite !run_ops_enqueue. cbn [run_ops].
  destruct (executeOffline_run c1 x1 (new_world e p))
    as (r1 & w1 & -> & _ & _ & (e1 & Hh1 & Hc1 & _ & Hs1 & _) & Hq1 & Hn1 & _).
  cbn [snd].
  destruct (executeOffline_run c2 x2 w1)
    as (r2 & w2 & -> & _ & _ & (e2 & Hh2 & Hc2 & _ & Hs2 & _) & Hq2 & Hn2 & _).
  cbn [snd].
  destruct (executeOffline_run c3 x3 w2)
    as (r3 & w3 & -> & _ & _ & (e3 & Hh3 & Hc3 & _ & Hs3 & _) & Hq3 & Hn3 & _).
  cbn [snd].
  rewrite Hn2, Hn1 in Hs3. rewrite Hn1 in Hs2.
  rewrite Hq3, Hq2, Hq1, Hh3, Hh2, Hh1. simpl in *.
  rewrite Hc1, Hc2, Hc3, Hs1, Hs2, Hs3.
  repeat split.
  unfold sort_by_seq. simpl.
  do 3 (unfold seq_at; simpl; rewrite ?Hs1, ?Hs2, ?Hs3; simpl).
  reflexivity.
Qed.

(** ** What [sync] leaves in the queue (C5) *)

Lemma NoDup_fmap_inj_on {A B} (f : A → B) (l : list A) x y :
  NoDup (f <$> l) → x ∈ l → y ∈ l → f x = f y → x = y.
Proof.
  induction l as [|a l IH]; intros Hnodup Hx Hy Heq; [by apply elem_of_nil in Hx|].
  rewrite fmap_cons in Hnodup. apply NoDup_cons in Hnodup as [Hnotin Hnodup].
  apply elem_of_cons in Hx as [->|Hx], Hy as [->|Hy]; auto.
  - exfalso. apply Hnotin. rewrite Heq. by apply list_elem_of_fmap_2.
  - exfalso. apply Hnotin. rewrite <- Heq. by apply list_elem_of_fmap_2.
Qed.


Lemma reachable_run_ops fuel ops w : reachable w → reachable (run_ops fuel ops w).
Proof.
  revert w. induction ops as [|op ops IH]; intros w Hw; [done|].
  cbn [run_ops]. pose proof (reachable_op fuel op w Hw) as Hstep.
  destruct (run_op fuel op w) as [[[]|e|] w']; simpl in Hstep; auto.
Qed.

Lemma three_queued_reachable : reachable three_queued.
Proof. apply reachable_run_ops, reachable_new. Qed.

Lemma three_queued_ids :
  NoDup (id_at (heap three_queued) <$> offlineQueue (this three_queued)).
Proof. apply (bool_decide_unpack _). vm_compute. reflexivity. Qed.

Lemma three_queued_kinds :
  Forall (λ l, kind_at (heap three_queued) l ≠ RetriesForever)
         (offlineQueue (this three_queued)).
Proof. apply (bool_decide_unpack _). vm_compute. reflexivity. Qed.

(** The ids in the queue end in the suffixes "0", "2" and "4"; the host is at
    its seventh suffix. *)
Lemma three_queued_fresh l :
  l ∈ offlineQueue (this three_queued) →
  ¬ generated_later three_queued (id_at (heap three_queued) l).
Proof.
  assert (∀ d0 d : nat, (d0 < d)%nat →
            "cel_resourcereg_offline_queue_0_" +:+ pretty d0
            ≠ "cel_resourcereg_offline_queue" +:+ "_" +:+ pretty (0 : Z)
                +:+ "_" +:+ pretty d) as Hne.
  { intros d0 d Hlt Heq.
    change ("cel_resourcereg_offline_queue_0_" +:+ pretty d0
            = "cel_resourcereg_offline_queue_0_" +:+ pretty d) in Heq.
    apply (inj _) in Heq. apply (inj pretty) in Heq. lia. }
  intros Hl (k & d & Hk & Hd & Heq).
  change (offlineQueue (this three_queued)) with [0; 1; 2]%nat in Hl.
  change (draws three_queued) with 6%nat in Hd.
  change (offlineStorageKey (config (this three_queued)) +:+ "_"
          +:+ pretty (Date_now (env three_queued) k) +:+ "_"
          +:+ Math_random (env three_queued) d)
    with ("cel_resourcereg_offline_queue" +:+ "_" +:+ pretty (0 : Z) +:+ "_"
          +:+ pretty d) in Heq.
  rewrite !elem_of_cons in Hl. destruct Hl as [->|[->|[->|Hl]]].
  - apply (Hne 0%nat d); [lia|exact Heq].
  - apply (Hne 2%nat d); [lia|exact Heq].
  - apply (Hne 4%nat d); [lia|exact Heq].
  - by apply elem_of_nil in Hl.
Qed.


(** A queued command that retries forever blocks [sync]: the call stays
    pending and the queue stays as it is. *)
Lemma sync_blocked fuel w slot rest :
  sort_by_seq (heap w) (offlineQueue (this w)) = slot :: rest →
  kind_at (heap w) slot = RetriesForever →
  (sync fuel w).1 = Pending ∧ same_store w (sync fuel w).2.
Proof.
  intros Hsort Hkind. rewrite sync_unfold.
  destruct (before_replay_run w) as (t & w1 & -> & Hs1 & _).
  rewrite Hsort, replay_cons, replay_entry_unfold. cbn [heap log_event].
  destruct Hs1 as [Hq1 Hh1 Hn1]. rewrite Hh1.
  unfold kind_at, replay_kind in Hkind.
  destruct (goes_offline _) eqn:Hx; [done|].
  pose proof (execute_pending fuel _ _
                (log_event (ReplayStarted slot) w1) Hx Hkind) as Hp.
  pose proof (same_store_execute (log_event (ReplayStarted slot) w1) fuel
                (entry_command (heap w !!! slot)) _ Hx _ (same_store_refl _))
    as Hs.
  destruct (execute fuel _ _ (log_event (ReplayStarted slot) w1))
    as [[r|e|] w2]; simpl in Hp; try done.
  split; [done|]. destruct Hs as [Hq2 Hh2 Hn2]. simpl in *.
  split; congruence.
Qed.


(** Why the ids must be distinct: [sync] drops entries by id.  When two
    entries carry the same id and the first is delivered, both leave the
    queue; the replay of the second still throws and is counted, but the
    entry it bumps is no longer queued. *)
Lemma sync_with_colliding_ids :
  id_at (heap two_queued_same_id) <$> offlineQueue (this two_queued_same_id)
  = ["cel_resourcereg_offline_queue_0_x"; "cel_resourcereg_offline_queue_0_x"]
  ∧ kind_at (heap two_queued_same_id) <$> offlineQueue (this two_queued_same_id)
    = [Delivered; Throws]
  ∧ ∃ r w', sync 1 two_queued_same_id = (Fulfilled r, w')
            ∧ synced r = 1 ∧ failed r = 1
            ∧ offlineQueue (this w') = []
            ∧ entry_retryCount <$> heap w' = [0; 1].
Proof.
  split; [by vm_compute|]. split; [by vm_compute|].
  do 2 eexists. split; [vm_compute; reflexivity|].
  by vm_compute.
Qed.

(** ** The idempotency key of queued commands (C6) *)

(** C6 does not hold of the code: [execute] on an offline context queues the
    command [{id: "cmd-3", type: "noop", idempotencyKey: ""}], whose
    idempotency key is empty, and likewise [{id: "cmd-2", type: "noop"}],
    which has none.  [executeOffline] never looks at the key; only
    [validate], on the online path, requires it ("Required for offline
    support"). *)
Lemma C6_offline_queue_accepts_missing_key :
  (∃ r w' e,
     execute 1 cmd_empty_key offline_ctx fresh_cell = (Fulfilled r, w')
     ∧ res_status r = partial
     ∧ offlineQueue (this w') = [0%nat]
     ∧ heap w' = [e]
     ∧ entry_command e = cmd_empty_key
     ∧ truthy (cmd_idempotencyKey (entry_command e)) = false)
  ∧ (∃ r w' e,
       execute 1 cmd_no_key offline_ctx fresh_cell = (Fulfilled r, w')
       ∧ res_status r = partial
       ∧ offlineQueue (this w') = [0%nat]
       ∧ heap w' = [e]
       ∧ entry_command e = cmd_no_key
       ∧ truthy (cmd_idempotencyKey (entry_command e)) = false).
Proof.
  split.
  - destruct (executeOffline_run cmd_empty_key offline_ctx fresh_cell)
      as (r & w' & Hrun & Hs & _ & (e & Hh & Hc & _) & Hq & _).
    exists r, w', e. split; [exact Hrun|]. split; [done|].
    split; [done|]. split; [done|]. split; [done|]. by rewrite Hc.
  - destruct (executeOffline_run cmd_no_key offline_ctx fresh_cell)
      as (r & w' & Hrun & Hs & _ & (e & Hh & Hc & _) & Hq & _).
    exists r, w', e. split; [exact Hrun|]. split; [done|].
    split; [done|]. split; [done|]. split; [done|]. by rewrite Hc.
Qed.

(** ** Retry and backoff (C7, C8) *)

Lemma elem_of_backoff_waits d tr : d ∈ backoff_waits tr ↔ BackoffWait d ∈ tr.
Proof.
  unfold backoff_waits. rewrite list_elem_of_omap. split.
  - intros (ev & Hev & Hd). destruct ev; try discriminate. by injection Hd as ->.
  - intros Hin. by exists (BackoffWait d).
Qed.

Lemma backoff_delay_initial cf :
  backoff_delay cf = initialBackoffMs (networkConfig cf).
Proof. unfold backoff_delay. rewrite Z.pow_0_r. lia. Qed.

(** Every attempt of a command that retries forever waits once. *)
Lemma execute_backoff_waits fuel c x w :
  goes_offline x = false → online_kind c = RetriesForever →
  ∃ delta, trace (execute fuel c x w).2 = trace w ++ delta
           ∧ backoff_waits delta = replicate fuel (backoff_delay (config (this w))).
Proof.
  intros Hx Hk. revert w. induction fuel as [|fuel IH]; intros w.
  - exists []. by rewrite app_nil_r.
  - rewrite execute_retries by done.
    destruct (failed_attempt_run c x w) as (Hf & _ & _ & (d1 & Ht1 & Hw1) & _).
    destruct (IH (failed_attempt c x w).2) as (d2 & Ht2 & Hw2).
    exists (d1 ++ d2). split; [by rewrite Ht2, Ht1, app_assoc|].
    unfold backoff_waits in *. rewrite omap_app, Hw1, Hw2.
    by rewrite (frame_config _ _ _ Hf).
Qed.

(** C7.  [canRetry] answers true for every command.  So for every command
    that carries an idempotency key, when the pipeline fails (the command
    lacks id or type, the one way a stage fails), [execute] runs
    [failed_attempt] and calls itself with the same command and context; this
    never ends, and the number of retries within any number of attempts is
    that number, whatever [config.maxRetries] says. *)
Theorem C7_retry_is_unconditional fuel c x w :
  goes_offline x = false →
  truthy (cmd_idempotencyKey c) = true →
  falsy (cmd_id c) = true ∨ falsy (cmd_type c) = true →
  (∀ c', canRetry c' = true)
  ∧ execute (S fuel) c x w = execute fuel c x (failed_attempt c x w).2
  ∧ (execute fuel c x w).1 = Pending
  ∧ ∃ delta, trace (execute fuel c x w).2 = trace w ++ delta
             ∧ length (backoff_waits delta) = fuel.
Proof.
  intros Hx Hk Hmiss.
  assert (online_kind c = RetriesForever) as Hkind
    by (by apply online_kind_RetriesForever).
  split; [done|]. split; [by apply execute_retries|].
  split; [by apply execute_pending|].
  destruct (execute_backoff_waits fuel c x w Hx Hkind) as (delta & Ht & Hw).
  exists delta. split; [done|]. by rewrite Hw, length_replicate.
Qed.

Lemma C7_witness :
  (∀ c', canRetry c' = true)
  ∧ execute 6 cmd_no_id online_ctx fresh_cell
    = execute 5 cmd_no_id online_ctx (failed_attempt cmd_no_id online_ctx fresh_cell).2
  ∧ (execute 5 cmd_no_id online_ctx fresh_cell).1 = Pending
  ∧ ∃ delta, trace (execute 5 cmd_no_id online_ctx fresh_cell).2
             = trace fresh_cell ++ delta
             ∧ length (backoff_waits delta) = 5%nat.
Proof.
  apply (C7_retry_is_unconditional 5 cmd_no_id online_ctx fresh_cell);
    [reflexivity|reflexivity|left; reflexivity].
Defined.

(** C8.  Every backoff wait of a run of [execute] is
    [initialBackoffMs * backoffMultiplier ^ 0], that is [initialBackoffMs] of
    the cell's network configuration; a command that is retried [fuel] times
    waits that same delay [fuel] times. *)
Theorem C8_backoff_delay_is_initial fuel c x w :
  ∃ delta,
    trace (execute fuel c x w).2 = trace w ++ delta
    ∧ (∀ d, d ∈ backoff_waits delta →
            d = initialBackoffMs (networkConfig (config (this w)))
                * backoffMultiplier (networkConfig (config (this w))) ^ 0
            ∧ d = initialBackoffMs (networkConfig (config (this w))))
    ∧ (goes_offline x = false → online_kind c = RetriesForever →
       backoff_waits delta
       = replicate fuel (initialBackoffMs (networkConfig (config (this w))))).
Proof.
  destruct (frame_trace _ _ _ (frame_execute false w fuel c x w (frame_refl _ w)))
    as (delta & Ht & Hok).
  exists delta. split; [done|]. split.
  - intros d Hd. apply elem_of_backoff_waits in Hd.
    rewrite Forall_forall in Hok. specialize (Hok _ Hd). simpl in Hok.
    split; [|done]. rewrite Z.pow_0_r. lia.
  - intros Hx Hk.
    destruct (execute_backoff_waits fuel c x w Hx Hk) as (delta' & Ht' & Hw).
    rewrite Ht in Ht'. apply app_inv_head in Ht'. subst delta'.
    by rewrite Hw, backoff_delay_initial.
Qed.

(** ** Disposal (C9, C10) *)

Lemma run_then_ret {A} (m : Promise A) w : ((m ;; mret ()) w).2 = (m w).2.
Proof. rewrite run_bind. by destruct (m w) as [[a|e|] w']. Qed.

Lemma dispose_run w :
  dispose w =
  (Fulfilled (),
   {| this := {| state := IDLE;
                 offlineQueue := offlineQueue (this w);
                 sequenceCounter := sequenceCounter (this w);
                 metrics := metrics (this w) ++
                   [mkMetric "state_transition" 1 "count" (Date_now (env w) (clock w))
                      {[ "from" := CellState_name (state (this w));
                         "to" := CellState_name IDLE ]}];
                 stateListeners := [];
                 errorListeners := [];
                 config := config (this w) |};
      heap := heap w;
      trace := trace w ++
        [QueuePersisted (offlineStorageKey (config (this w)))
                        ((λ l, heap w !!! l) <$> offlineQueue (this w))];
      clock := S (clock w); draws := draws w; env := env w |}).
Proof.
  destruct w as [[st q n ms sl el cf] h tr ck dr en].
  unfold dispose. run. rewrite transitionTo_run. run.
  by rewrite app_nil_r.
Qed.

Lemma listener_ok_event_ok (allowed : Handler → Prop) b r ev :
  (∀ h, h ∈ stateListeners r → allowed h) →
  event_ok b r ev → listener_ok allowed ev.
Proof. intros Hall. destruct ev; simpl; auto. Qed.

(** One call keeps the listeners among the allowed ones and calls no other. *)
Lemma run_op_listeners (allowed : Handler → Prop) fuel op w :
  (∀ h, h ∈ stateListeners (this w) → allowed h) →
  (∀ h, op = OpOnStateChange h → allowed h) →
  (∀ h, h ∈ stateListeners (this (run_op fuel op w).2) → allowed h)
  ∧ ∃ delta, trace (run_op fuel op w).2 = trace w ++ delta
             ∧ Forall (listener_ok allowed) delta.
Proof.
  intros Hall Hop.
  assert (∀ w', frame true w w' →
            (∀ h, h ∈ stateListeners (this w') → allowed h)
            ∧ ∃ delta, trace w' = trace w ++ delta
                       ∧ Forall (listener_ok allowed) delta) as Hframe.
  { intros w' [_ Hs _ _ _ _ (delta & Ht & Hok)]. split; [by rewrite Hs|].
    exists delta. split; [done|].
    eapply Forall_impl; [exact Hok|]. intros ev. by apply listener_ok_event_ok. }
  assert (∀ w', trace w' = trace w →
            (∀ h, h ∈ stateListeners (this w') → allowed h) →
            (∀ h, h ∈ stateListeners (this w') → allowed h)
            ∧ ∃ delta, trace w' = trace w ++ delta
                       ∧ Forall (listener_ok allowed) delta) as Hquiet.
  { intros w' Ht Hs. split; [done|]. exists []. by rewrite app_nil_r. }
  destruct op; cbn [run_op]; rewrite ?run_then_ret.
  - apply Hframe, frame_execute, frame_refl.
  - apply Hframe, frame_executeOffline, frame_refl.
  - apply Hframe, frame_sync, frame_refl.
  - by apply Hquiet.
  - by apply Hquiet.
  - apply Hquiet; [done|]. simpl. intros h Hh.
    apply elem_of_app in Hh as [Hh|Hh]; [by apply Hall|].
    apply list_elem_of_singleton in Hh. subst h. by apply Hop.
  - apply Hquiet; [done|]. simpl. intros h Hh.
    apply list_elem_of_filter in Hh as [_ Hh]. by apply Hall.
  - by apply Hquiet.
  - by apply Hquiet.
  - rewrite dispose_run. simpl. split.
    + intros h Hh. by apply elem_of_nil in Hh.
    + eexists. split; [reflexivity|]. by repeat constructor.
Qed.

Lemma run_ops_listeners (allowed : Handler → Prop) fuel ops w :
  (∀ h, h ∈ stateListeners (this w) → allowed h) →
  (∀ h, OpOnStateChange h ∈ ops → allowed h) →
  ∃ delta, trace (run_ops fuel ops w) = trace w ++ delta
           ∧ Forall (listener_ok allowed) delta.
Proof.
  revert w. induction ops as [|op ops IH]; intros w Hall Hops.
  - exists []. by rewrite app_nil_r.
  - destruct (run_op_listeners allowed fuel op w Hall)
      as (Hall' & d1 & Ht1 & Hok1).
    { intros h ->. apply Hops. left. }
    cbn [run_ops].
    destruct (run_op fuel op w) as [s w'] eqn:Hrun. simpl in *.
    assert (∃ delta, trace (run_ops fuel ops w') = trace w ++ delta
                     ∧ Forall (listener_ok allowed) delta) as Hgo.
    { destruct (IH w' Hall') as (d2 & Ht2 & Hok2).
      { intros h Hh. apply Hops. by right. }
      exists (d1 ++ d2). split; [by rewrite Ht2, Ht1, app_assoc|].
      by apply Forall_app. }
    destruct s; [exact Hgo|exact Hgo|]. by exists d1.
Qed.

(** C9.  After [dispose] the state read is IDLE.  [dispose] itself calls no
    listener, and whatever calls follow it, no error listener is called and a
    state listener is called only if one of those later calls registered it:
    the registrations made before [dispose] are never called again. *)
Theorem C9_dispose_silences_listeners fuel ops w :
  (dispose w).1 = Fulfilled ()
  ∧ (getState (dispose w).2).1 = Fulfilled IDLE
  ∧ (∃ delta, trace (dispose w).2 = trace w ++ delta
              ∧ ∀ h, (∀ s, StateListenerCalled h s ∉ delta)
                     ∧ (∀ e, ErrorListenerCalled h e ∉ delta))
  ∧ (∃ delta, trace (run_ops fuel ops (dispose w).2) = trace (dispose w).2 ++ delta
              ∧ (∀ h e, ErrorListenerCalled h e ∉ delta)
              ∧ (∀ h s, StateListenerCalled h s ∈ delta → OpOnStateChange h ∈ ops)).
Proof.
  split; [by rewrite dispose_run|]. split; [by rewrite dispose_run|]. split.
  - rewrite dispose_run. eexists. split; [reflexivity|].
    intros h. split; intros ? Hin; apply list_elem_of_singleton in Hin; discriminate.
  - destruct (run_ops_listeners (λ h, OpOnStateChange h ∈ ops) fuel ops (dispose w).2)
      as (delta & Ht & Hok).
    { rewrite dispose_run. simpl. intros h Hh. by apply elem_of_nil in Hh. }
    { auto. }
    exists delta. split; [done|]. rewrite Forall_forall in Hok. split.
    + intros h e Hin. exact (Hok _ Hin).
    + intros h s Hin. exact (Hok _ Hin).
Qed.

(** C10.  [dispose] leaves the queue, the entry objects it holds (ids,
    commands, sequence numbers, retry counts) and the sequence counter as
    they were.  What it does: it hands the queue to the persistence hook,
    clears both listener lists and moves to IDLE (a transition, which records
    its [state_transition] metric as every transition does). *)
Theorem C10_dispose_keeps_queue w :
  (dispose w).1 = Fulfilled ()
  ∧ offlineQueue (this (dispose w).2) = offlineQueue (this w)
  ∧ heap (dispose w).2 = heap w
  ∧ ((λ l, heap (dispose w).2 !!! l) <$> offlineQueue (this (dispose w).2))
    = ((λ l, heap w !!! l) <$> offlineQueue (this w))
  ∧ sequenceCounter (this (dispose w).2) = sequenceCounter (this w)
  ∧ config (this (dispose w).2) = config (this w)
  ∧ trace (dispose w).2
    = trace w ++ [QueuePersisted (offlineStorageKey (config (this w)))
                                 ((λ l, heap w !!! l) <$> offlineQueue (this w))]
  ∧ stateListeners (this (dispose w).2) = []
  ∧ errorListeners (this (dispose w).2) = []
  ∧ state (this (dispose w).2) = IDLE
  ∧ ∃ m, metrics (this (dispose w).2) = metrics (this w) ++ [m]
         ∧ metric_name m = "state_transition".
Proof.
  rewrite dispose_run. simpl. repeat split. eexists. split; reflexivity.
Qed.

(** * Further properties of the cell *)

(** ** How [execute] settles *)

(** X1.  How [execute] settles is decided by the command and the context
    alone.  It returns a result exactly when the context routes offline
    (status partial, state OFFLINE) or the command has id, type and
    idempotency key (status success, state IDLE), and the result carries the
    command's id; the status is never failure.  It throws exactly for an
    online command without idempotency key, and what it throws is the
    validation error naming the missing fields (never a timeout); the state is
    then ERROR.  It stays pending exactly for an online command that has an
    idempotency key and lacks id or type. *)
Theorem execute_settles_by_kind fuel c x w :
  match (execute (S fuel) c x w).1 with
  | Fulfilled r =>
      res_commandId r = js_of_opt (cmd_id c)
      ∧ res_status r = (if goes_offline x then partial else success)
      ∧ res_status r ≠ failure
      ∧ (goes_offline x = true ∨ missing_fields c = [])
      ∧ state (this (execute (S fuel) c x w).2)
        = (if goes_offline x then OFFLINE else IDLE)
  | Rejected e =>
      goes_offline x = false
      ∧ falsy (cmd_idempotencyKey c) = true
      ∧ (∃ errs, e = ResourceRegistryValidationError errs
                 ∧ field <$> errs = missing_fields c)
      ∧ state (this (execute (S fuel) c x w).2) = ERROR
  | Pending =>
      goes_offline x = false
      ∧ truthy (cmd_idempotencyKey c) = true
      ∧ (falsy (cmd_id c) = true ∨ falsy (cmd_type c) = true)
  end.
Proof.
  destruct (goes_offline x) eqn:Hx.
  - cbn [execute]. rewrite Hx.
    destruct (executeOffline_run c x w)
      as (r & w' & -> & Hs & Hc & _ & _ & _ & Hst & _).
    cbn [fst snd]. rewrite Hs. repeat split; auto.
  - destruct (online_kind c) eqn:Hk.
    + destruct (execute_delivers fuel c x w Hx Hk)
        as (r & w' & -> & Hs & Hc & Hst & _).
      cbn [fst snd]. rewrite Hs. repeat split; auto.
      right. by apply online_kind_Delivered.
    + by destruct (online_kind_not_Requeued c).
    + destruct (execute_throws fuel c x w Hx Hk)
        as (e & w' & -> & (errs & -> & Hf & _) & Hst & _).
      cbn [fst snd]. split; [done|]. split; [by apply online_kind_Throws|].
      split; [by exists errs|done].
    + rewrite (execute_pending (S fuel) c x w Hx Hk).
      split; [done|]. by apply online_kind_RetriesForever.
Qed.

(** X2.  On a context that is not routed offline, [execute] leaves the
    offline queue, every entry object and the sequence counter as they were,
    whether it delivers, throws or is still retrying. *)
Theorem execute_online_keeps_queue fuel c x w :
  goes_offline x = false →
  offlineQueue (this (execute fuel c x w).2) = offlineQueue (this w)
  ∧ heap (execute fuel c x w).2 = heap w
  ∧ sequenceCounter (this (execute fuel c x w).2) = sequenceCounter (this w).
Proof.
  intros Hx.
  destruct (same_store_execute w fuel c x Hx w (same_store_refl w)) as [Hq Hh Hn].
  auto.
Qed.

Lemma execute_online_keeps_queue_witness :
  offlineQueue (this (execute 3 cmd_no_id online_ctx three_queued).2)
  = offlineQueue (this three_queued)
  ∧ heap (execute 3 cmd_no_id online_ctx three_queued).2 = heap three_queued
  ∧ sequenceCounter (this (execute 3 cmd_no_id online_ctx three_queued).2)
    = sequenceCounter (this three_queued).
Proof.
  apply (execute_online_keeps_queue 3 cmd_no_id online_ctx three_queued).
  reflexivity.
Defined.

(** ** What [executeOffline] makes *)

(** X3.  The result of [executeOffline] reports the new length of the queue
    as [queuePosition] and the id of the new entry as [offlineEntryId], and
    carries no metrics.  The one [offline_queue_size] metric it records has
    that same length as value, in counts.  The persistence hook is called
    once, after the push, with the queue that already holds the new entry;
    the audit hook is told the entry's id. *)
Theorem executeOffline_reports_queue c x w :
  ∃ r w' e,
    executeOffline c x w = (Fulfilled r, w')
    ∧ heap w' = heap w ++ [e]
    ∧ res_data r !! "queuePosition"
      = Some (JNumber (Z.of_nat (S (length (offlineQueue (this w))))))
    ∧ res_data r !! "offlineEntryId" = Some (JString (entry_id e))
    ∧ res_metrics r = []
    ∧ (∃ m1 m2,
         metrics (this w') = metrics (this w) ++ [m1; m2]
         ∧ metric_name m1 = "state_transition"
         ∧ metric_name m2 = "offline_queue_size"
         ∧ metric_value m2 = Z.of_nat (S (length (offlineQueue (this w))))
         ∧ metric_unit m2 = "count")
    ∧ trace w'
      = trace w
        ++ ((λ h, StateListenerCalled h OFFLINE) <$> stateListeners (this w))
        ++ [QueuePersisted (offlineStorageKey (config (this w)))
              (((λ l, (heap w ++ [e]) !!! l) <$> offlineQueue (this w)) ++ [e]);
            AuditEmitted "offline_queue" (ctx_userId x)
              {[ "entryId" := JString (entry_id e) ]}].
Proof.
  destruct w as [[st q n ms sl el cf] h tr ck dr en].
  unfold executeOffline. rewrite run_bind, transitionTo_run. run.
  do 3 eexists. split; [reflexivity|]. cbn [heap res_data res_metrics this
    metrics trace offlineQueue config entry_id].
  split; [reflexivity|].
  rewrite length_app, Nat.add_1_r.
  split; [reflexivity|]. split; [reflexivity|]. split; [reflexivity|].
  split.
  - do 2 eexists. split; [rewrite <- app_assoc; reflexivity|]. repeat split.
  - rewrite <- !app_assoc. do 2 f_equal.
    rewrite fmap_app. cbn [fmap list_fmap].
    by rewrite lookup_total_app_r, Nat.sub_diag by lia.
Qed.

(** X4.  The entry [executeOffline] makes wraps the command and the context
    it was given, starts with retry count 0, and carries the incremented
    counter both as its sequence number and in its vector clock, which has
    the acting user as its only key. *)
Theorem executeOffline_entry c x w :
  ∃ r w' e,
    executeOffline c x w = (Fulfilled r, w')
    ∧ heap w' = heap w ++ [e]
    ∧ entry_command e = c ∧ entry_context e = x
    ∧ entry_retryCount e = 0
    ∧ entry_sequenceNumber e = sequenceCounter (this w')
    ∧ sequenceCounter (this w') = sequenceCounter (this w) + 1
    ∧ entry_vectorClock e !! ctx_userId x = Some (entry_sequenceNumber e)
    ∧ (∀ u, u ≠ ctx_userId x → entry_vectorClock e !! u = None)
    ∧ dom (entry_vectorClock e) = {[ ctx_userId x ]}.
Proof.
  destruct w as [[st q n ms sl el cf] h tr ck dr en].
  unfold executeOffline. rewrite run_bind, transitionTo_run. run.
  do 3 eexists. split; [reflexivity|]. cbn [heap this sequenceCounter
    entry_command entry_context entry_retryCount entry_sequenceNumber
    entry_vectorClock].
  split; [reflexivity|]. do 5 (split; [reflexivity|]).
  split; [apply lookup_singleton_eq|].
  split; [intros u Hu; by apply lookup_singleton_ne|].
  apply dom_singleton_L.
Qed.

(** X5.  The result of a delivered command.  Its data are what [process]
    and [route] made: the command's id, the tenant and the locale of the
    context (not the locale of the command), the two time stamps and the
    routing flag, and nothing of the payload.  Its metrics are a copy taken
    by [deliver]: the cell's metrics at the call and the three transitions
    made so far; the duration and success metrics and the transition to IDLE
    are recorded later and are in the cell only. *)
Theorem execute_delivered_result fuel c x w :
  goes_offline x = false → missing_fields c = [] →
  ∃ r w',
    execute (S fuel) c x w = (Fulfilled r, w')
    ∧ res_data r !! "commandId" = Some (js_of_opt (cmd_id c))
    ∧ res_data r !! "tenantId" = Some (JString (ctx_tenantId x))
    ∧ res_data r !! "locale" = Some (JString (ctx_locale x))
    ∧ res_data r !! "routed" = Some (JBool true)
    ∧ dom (res_data r)
      = ({[ "commandId"; "processedAt"; "tenantId"; "locale"; "routed"; "routedAt" ]}
         : gset string)
    ∧ (∃ ms, res_metrics r = metrics (this w) ++ ms
             ∧ metric_name <$> ms
               = ["state_transition"; "state_transition"; "state_transition"])
    ∧ (∃ ms', metrics (this w') = res_metrics r ++ ms'
              ∧ metric_name <$> ms'
                = ["execution_duration_ms"; "execution_success"; "state_transition"]).
Proof.
  intros Hx Hk.
  destruct (validate_run c) as (v & Hv & _ & _ & Hvalid).
  rewrite bool_decide_eq_true_2 in Hvalid by done.
  apply fulfilled_intro.
  destruct w as [[st q n ms sl el cf] h tr ck dr en].
  cbn [execute]. rewrite Hx. run.
  rewrite transitionTo_run. run. rewrite Hv, Hvalid. run.
  rewrite transitionTo_run. run.
  rewrite transitionTo_run. run.
  rewrite transitionTo_run. run.
  cbn [res_metrics res_data this metrics].
  split; [reflexivity|]. split; [reflexivity|]. split; [reflexivity|].
  split; [reflexivity|].
  split; [ rewrite ?dom_insert_L, ?dom_singleton_L; set_solver|].
  split; [eexists; split; [rewrite <- !app_assoc; reflexivity|reflexivity]|].
  eexists; split; [rewrite <- !app_assoc; reflexivity|reflexivity].
Qed.

Lemma execute_delivered_result_witness :
  ∃ r w',
    execute 1 cmd_1 online_ctx fresh_cell = (Fulfilled r, w')
    ∧ res_data r !! "commandId" = Some (js_of_opt (cmd_id cmd_1))
    ∧ res_data r !! "tenantId" = Some (JString (ctx_tenantId online_ctx))
    ∧ res_data r !! "locale" = Some (JString (ctx_locale online_ctx))
    ∧ res_data r !! "routed" = Some (JBool true)
    ∧ dom (res_data r)
      = ({[ "commandId"; "processedAt"; "tenantId"; "locale"; "routed"; "routedAt" ]}
         : gset string)
    ∧ (∃ ms, res_metrics r = metrics (this fresh_cell) ++ ms
             ∧ metric_name <$> ms
               = ["state_transition"; "state_transition"; "state_transition"])
    ∧ (∃ ms', metrics (this w') = res_metrics r ++ ms'
              ∧ metric_name <$> ms'
                = ["execution_duration_ms"; "execution_success"; "state_transition"]).
Proof.
  apply (execute_delivered_result 0 cmd_1 online_ctx fresh_cell); reflexivity.
Defined.

(** ** The states a run goes through *)

Lemma state_calls_app tr1 tr2 :
  state_calls (tr1 ++ tr2) = state_calls tr1 ++ state_calls tr2.
Proof. apply omap_app. Qed.

Lemma state_calls_listeners s (sl : list Handler) :
  state_calls ((λ h, StateListenerCalled h s) <$> sl) = (λ h, (h, s)) <$> sl.
Proof. induction sl as [|h sl IH]; [done|]. simpl. f_equal. exact IH. Qed.

Lemma states_entered_app ms1 ms2 :
  states_entered (ms1 ++ ms2) = states_entered ms1 ++ states_entered ms2.
Proof. apply omap_app. Qed.

Lemma notified_app sl p1 p2 :
  notified sl (p1 ++ p2) = notified sl p1 ++ notified sl p2.
Proof. apply bind_app. Qed.

Lemma walks_refl w : walks [] w w.
Proof. split; [done|done| |]; exists []; by rewrite app_nil_r. Qed.

Lemma walks_trans p1 p2 w1 w2 w3 :
  walks p1 w1 w2 → walks p2 w2 w3 → walks (p1 ++ p2) w1 w3.
Proof.
  intros [l1 s1 (d1 & t1 & c1) (m1 & e1 & n1)] [l2 s2 (d2 & t2 & c2) (m2 & e2 & n2)].
  split.
  - congruence.
  - rewrite s2, s1, last_app. by destruct (last p2).
  - exists (d1 ++ d2). split; [by rewrite t2, t1, app_assoc|].
    by rewrite state_calls_app, notified_app, c1, c2, l1.
  - exists (m1 ++ m2). split; [by rewrite e2, e1, app_assoc|].
    by rewrite states_entered_app, fmap_app, n1, n2.
Qed.

(** Closes a goal [walks path w w'] once both worlds are laid out. *)
Ltac walks_tac :=
  split; cbn [this stateListeners state trace metrics];
  [ reflexivity
  | reflexivity
  | eexists; split;
    [ rewrite <- ?app_assoc; reflexivity
    | rewrite ?state_calls_app, ?state_calls_listeners; simpl;
      rewrite ?app_nil_r; reflexivity ]
  | eexists; split; [ rewrite <- ?app_assoc; reflexivity | reflexivity ] ].

Lemma walks_executeOffline c x w : walks [OFFLINE] w (executeOffline c x w).2.
Proof.
  destruct w as [[st q n ms sl el cf] h tr ck dr en].
  unfold executeOffline. rewrite run_bind, transitionTo_run. run. walks_tac.
Qed.

Lemma walks_delivers fuel c x w :
  goes_offline x = false → online_kind c = Delivered →
  walks [VALIDATING; PROCESSING; COMPLETING; IDLE] w (execute (S fuel) c x w).2.
Proof.
  intros Hx Hk. apply online_kind_Delivered in Hk.
  destruct (validate_run c) as (v & Hv & _ & _ & Hvalid).
  rewrite bool_decide_eq_true_2 in Hvalid by done.
  destruct w as [[st q n ms sl el cf] h tr ck dr en].
  cbn [execute]. rewrite Hx. run.
  rewrite transitionTo_run. run. rewrite Hv, Hvalid. run.
  rewrite transitionTo_run. run.
  rewrite transitionTo_run. run.
  rewrite transitionTo_run. run.
  walks_tac.
Qed.

Lemma walks_failed_attempt c x w :
  walks [VALIDATING; ERROR] w (failed_attempt c x w).2.
Proof.
  destruct (validate_run c) as (v & Hv & _).
  destruct w as [[st q n ms sl el cf] h tr ck dr en].
  unfold failed_attempt. run. rewrite !transitionTo_run. run.
  rewrite Hv. run. rewrite !transitionTo_run. run.
  walks_tac.
Qed.

Lemma walks_throws fuel c x w :
  goes_offline x = false → online_kind c = Throws →
  walks [VALIDATING; ERROR] w (execute (S fuel) c x w).2.
Proof.
  intros Hx Hk. apply online_kind_Throws in Hk.
  destruct (validate_run c) as (v & Hv & Hf & Hc & Hvalid).
  assert (valid v = false) as Hinvalid.
  { rewrite Hvalid. apply bool_decide_eq_false. intros Hnil.
    apply missing_fields_nil in Hnil. destruct Hnil as (_ & _ & ?). congruence. }
  destruct w as [[st q n ms sl el cf] h tr ck dr en].
  cbn [execute]. rewrite Hx. run.
  rewrite transitionTo_run. run. rewrite Hv, Hinvalid. run.
  rewrite transitionTo_run. run.
  unfold truthy. rewrite Hk. run.
  walks_tac.
Qed.

Lemma walks_retries fuel c x w :
  goes_offline x = false → online_kind c = RetriesForever →
  walks (concat (replicate fuel [VALIDATING; ERROR])) w (execute fuel c x w).2.
Proof.
  intros Hx Hk. revert w. induction fuel as [|fuel IH]; intros w.
  - apply walks_refl.
  - rewrite execute_retries by done.
    change (concat (replicate (S fuel) [VALIDATING; ERROR]))
      with ([VALIDATING; ERROR] ++ concat (replicate fuel [VALIDATING; ERROR])).
    eapply walks_trans; [apply walks_failed_attempt|apply IH].
Qed.

Lemma walks_execute fuel c x w :
  walks (pipeline_path fuel c x) w (execute fuel c x w).2.
Proof.
  destruct fuel as [|fuel]; [apply walks_refl|].
  unfold pipeline_path. destruct (goes_offline x) eqn:Hx.
  - cbn [execute]. rewrite Hx. apply walks_executeOffline.
  - destruct (online_kind c) eqn:Hk.
    + by apply walks_delivers.
    + by destruct (online_kind_not_Requeued c).
    + by apply walks_throws.
    + by apply walks_retries.
Qed.

(** X6.  The states a run of [execute] goes through are decided by the
    command and the context: OFFLINE when the context routes offline;
    VALIDATING, PROCESSING, COMPLETING, IDLE for a command with id, type and
    idempotency key; VALIDATING, ERROR for one without idempotency key; and
    VALIDATING, ERROR once per attempt for one that is retried.  At each of
    these transitions every registered state listener is called once per
    registration, in the order of registration, with the new state, and one
    [state_transition] metric is recorded; the run calls state listeners at
    no other time, and it ends in the last state of the path. *)
Theorem execute_transitions fuel c x w :
  ∃ delta ms,
    trace (execute fuel c x w).2 = trace w ++ delta
    ∧ metrics (this (execute fuel c x w).2) = metrics (this w) ++ ms
    ∧ state_calls delta
      = notified (stateListeners (this w)) (pipeline_path fuel c x)
    ∧ states_entered ms = CellState_name <$> pipeline_path fuel c x
    ∧ state (this (execute fuel c x w).2)
      = default (state (this w)) (last (pipeline_path fuel c x))
    ∧ stateListeners (this (execute fuel c x w).2) = stateListeners (this w).
Proof.
  destruct (walks_execute fuel c x w) as [Hl Hs (delta & Ht & Hc) (ms & Hm & Hn)].
  by exists delta, ms.
Qed.

(** ** Listener registrations *)

(** X7.  Registering a handler that is not registered yet and calling the
    function the registration returned leaves the cell exactly as it was;
    this holds for state listeners and for error listeners. *)
Theorem subscribe_unsubscribe_round_trip h w :
  h ∉ stateListeners (this w) → h ∉ errorListeners (this w) →
  (unsubscribeState h (onStateChange h w).2).2 = w
  ∧ (unsubscribeError h (onError h w).2).2 = w.
Proof.
  intros Hs He.
  assert (∀ l : list nat, h ∉ l → filter (λ h', h' ≠ h) (l ++ [h]) = l) as Hfilter.
  { intros l Hl. rewrite filter_app, filter_cons_False, filter_nil, app_nil_r by auto.
    apply filter_all, Forall_forall. intros h' Hh' ->. by apply Hl. }
  destruct w as [[st q n ms sl el cf] hp tr ck dr en]. simpl in Hs, He.
  split; run; by rewrite Hfilter.
Qed.

Lemma subscribe_unsubscribe_round_trip_witness :
  (unsubscribeState 7 (onStateChange 7 three_queued).2).2 = three_queued
  ∧ (unsubscribeError 7 (onError 7 three_queued).2).2 = three_queued.
Proof.
  apply (subscribe_unsubscribe_round_trip 7 three_queued);
    vm_compute; apply not_elem_of_nil.
Defined.

(** X8.  The function returned by [onStateChange] removes every
    registration of its handler, also those made by earlier calls with the
    same handler, and leaves the other registrations in their order.  After
    it the handler is not called again, whatever the cell is asked to do,
    unless it is registered anew. *)
Theorem unsubscribe_silences h fuel ops w :
  OpOnStateChange h ∉ ops →
  (h ∉ stateListeners (this (unsubscribeState h w).2))
  ∧ stateListeners (this (unsubscribeState h w).2)
    = filter (λ h', h' ≠ h) (stateListeners (this w))
  ∧ ∃ delta, trace (run_ops fuel ops (unsubscribeState h w).2) = trace w ++ delta
             ∧ ∀ s, StateListenerCalled h s ∉ delta.
Proof.
  intros Hops.
  assert (∀ h', h' ∈ stateListeners (this (unsubscribeState h w).2) → h' ≠ h)
    as Hgone.
  { simpl. intros h' Hh'. by apply list_elem_of_filter in Hh' as [? _]. }
  split; [intros Hin; by apply (Hgone h)|]. split; [reflexivity|].
  destruct (run_ops_listeners (λ h', h' ≠ h) fuel ops (unsubscribeState h w).2 Hgone)
    as (delta & Ht & Hok).
  { intros h' Hin ->. by apply Hops. }
  exists delta. split; [exact Ht|].
  intros s Hin. rewrite Forall_forall in Hok. by apply (Hok _ Hin).
Qed.

Lemma unsubscribe_silences_witness :
  (3%nat ∉ stateListeners (this (unsubscribeState 3
                                  (run_ops 1 [OpOnStateChange 3; OpOnStateChange 4;
                                              OpOnStateChange 3] fresh_cell)).2))
  ∧ stateListeners (this (unsubscribeState 3
                            (run_ops 1 [OpOnStateChange 3; OpOnStateChange 4;
                                        OpOnStateChange 3] fresh_cell)).2)
    = filter (λ h', h' ≠ 3%nat)
        (stateListeners (this (run_ops 1 [OpOnStateChange 3; OpOnStateChange 4;
                                          OpOnStateChange 3] fresh_cell)))
  ∧ ∃ delta,
      trace (run_ops 2 [OpExecute cmd_1 online_ctx; OpSync]
               (unsubscribeState 3
                  (run_ops 1 [OpOnStateChange 3; OpOnStateChange 4;
                              OpOnStateChange 3] fresh_cell)).2)
      = trace (run_ops 1 [OpOnStateChange 3; OpOnStateChange 4;
                          OpOnStateChange 3] fresh_cell) ++ delta
      ∧ ∀ s, StateListenerCalled 3 s ∉ delta.
Proof.
  apply (unsubscribe_silences 3 2 [OpExecute cmd_1 online_ctx; OpSync]
           (run_ops 1 [OpOnStateChange 3; OpOnStateChange 4; OpOnStateChange 3]
                    fresh_cell)).
  intros Hin. repeat (apply elem_of_cons in Hin as [Hin|Hin]; [discriminate|]).
  by apply elem_of_nil in Hin.
Defined.

(** X9.  Handlers registered with [onError] are never called: no call of
    the cell, from any state and with any listeners registered, calls an
    error listener, not even an [execute] that rejects or a [sync] whose
    replays throw. *)
Theorem error_listeners_never_called fuel ops w :
  ∃ delta, trace (run_ops fuel ops w) = trace w ++ delta
           ∧ ∀ h e, ErrorListenerCalled h e ∉ delta.
Proof.
  destruct (run_ops_listeners (λ _, True) fuel ops w) as (delta & Ht & Hok);
    [done|done|].
  exists delta. split; [exact Ht|].
  intros h e Hin. rewrite Forall_forall in Hok. exact (Hok _ Hin).
Qed.

(** ** What no call undoes *)

Lemma same_entry_refl e : same_entry e e.
Proof. by split. Qed.

Lemma same_entry_trans e1 e2 e3 :
  same_entry e1 e2 → same_entry e2 e3 → same_entry e1 e3.
Proof. intros [] []. split; try congruence. lia. Qed.

Lemma history_refl w : history w w.
Proof.
  split; auto; try lia.
  - exists []. rewrite app_nil_r. split; [done|]. apply not_elem_of_nil.
  - exists []. by rewrite app_nil_r.
  - intros l e He. exists e. split; [done|apply same_entry_refl].
Qed.

Lemma history_trans w1 w2 w3 : history w1 w2 → history w2 w3 → history w1 w3.
Proof.
  intros [c1 v1 (m1 & e1 & n1) (d1 & t1 & f1) h1 k1 s1]
         [c2 v2 (m2 & e2 & n2) (d2 & t2 & f2) h2 k2 s2].
  split; try congruence; try lia.
  - exists (m1 ++ m2). split; [by rewrite e2, e1, app_assoc|].
    unfold states_entered in *. rewrite omap_app, not_elem_of_app. by split.
  - exists (d1 ++ d2). split; [by rewrite t2, t1, app_assoc|]. by apply Forall_app.
  - intros l e He. destruct (h1 l e He) as (e' & He' & Hs).
    destruct (h2 l e' He') as (e'' & He'' & Hs').
    exists e''. split; [done|]. by eapply same_entry_trans.
  - destruct s2 as [s2|s2]; [|by right].
    destruct s1 as [s1|s1]; [left; congruence|right; congruence].
Qed.

Lemma preserves_history {A} w0 (m : Promise A) :
  (∀ w, history w (m w).2) → preserves (history w0) m.
Proof. intros H w Hw. eapply history_trans; [exact Hw|apply H]. Qed.

(** A step that changes neither metrics nor log nor entries. *)
Lemma history_quiet w w' :
  config (this w') = config (this w) → env w' = env w →
  metrics (this w') = metrics (this w) → trace w' = trace w →
  heap w' = heap w →
  sequenceCounter (this w) ≤ sequenceCounter (this w') →
  state (this w') = state (this w) →
  history w w'.
Proof.
  intros Hc He Hm Ht Hh Hk Hs. split; auto.
  - exists []. rewrite app_nil_r. split; [done|]. apply not_elem_of_nil.
  - exists []. by rewrite app_nil_r.
  - intros l e Hl. exists e. rewrite Hh. split; [done|apply same_entry_refl].
Qed.

Lemma history_now w : history w (now w).2.
Proof. by apply history_quiet. Qed.

Lemma history_random_suffix w : history w (random_suffix w).2.
Proof. by apply history_quiet. Qed.

Lemma history_generateId w : history w (generateId w).2.
Proof. by apply history_quiet. Qed.

Lemma history_getMetrics w : history w (getMetrics w).2.
Proof. apply history_refl. Qed.

Lemma history_getState w : history w (getState w).2.
Proof. apply history_refl. Qed.

Lemma history_process c x w : history w (process c x w).2.
Proof. by apply history_quiet. Qed.

Lemma history_route d x w : history w (route d x w).2.
Proof. by apply history_quiet. Qed.

Lemma history_deliver d x w : history w (deliver d x w).2.
Proof. by apply history_quiet. Qed.

Lemma history_modify_this f w :
  config (f (this w)) = config (this w) →
  metrics (f (this w)) = metrics (this w) →
  sequenceCounter (this w) ≤ sequenceCounter (f (this w)) →
  state (f (this w)) = state (this w) →
  history w (modify_this f w).2.
Proof. intros. by apply history_quiet. Qed.

Lemma history_emit ev w : not_dead_letter ev → history w (emit ev w).2.
Proof.
  intros Hev. split; simpl; auto; try lia.
  - exists []. rewrite app_nil_r. split; [done|]. apply not_elem_of_nil.
  - exists [ev]. split; [done|]. by constructor.
  - intros l e Hl. exists e. split; [done|apply same_entry_refl].
Qed.

Lemma history_emitAudit action actor details w :
  history w (emitAudit action actor details w).2.
Proof. by apply history_emit. Qed.

Lemma history_persistOfflineQueue w : history w (persistOfflineQueue w).2.
Proof.
  split; simpl; auto; try lia.
  - exists []. rewrite app_nil_r. split; [done|]. apply not_elem_of_nil.
  - eexists [_]. split; [reflexivity|]. by repeat constructor.
  - intros l e Hl. exists e. split; [done|apply same_entry_refl].
Qed.

Lemma history_backoff w :
  history w (emit (BackoffWait (backoff_delay (config (this w)))) w).2.
Proof. by apply history_emit. Qed.

Lemma history_replay_started slot w : history w (emit (ReplayStarted slot) w).2.
Proof. by apply history_emit. Qed.

(** A metric without tags is no transition to any state. *)
Lemma history_recordMetric name value unit_ w :
  history w (recordMetric name value unit_ ∅ w).2.
Proof.
  split; simpl; auto; try lia.
  - eexists [_]. split; [reflexivity|].
    unfold states_entered. simpl.
    destruct (bool_decide _); simpl; rewrite ?lookup_empty; apply not_elem_of_nil.
  - exists []. by rewrite app_nil_r.
  - intros l e Hl. exists e. split; [done|apply same_entry_refl].
Qed.

Lemma history_transitionTo s w :
  s ≠ DEAD_LETTER → history w (transitionTo s w).2.
Proof.
  intros Hs. rewrite transitionTo_run. split; simpl; auto; try lia.
  - eexists [_]. split; [reflexivity|].
    unfold states_entered. cbn [omap list_omap metric_name metric_tags].
    rewrite bool_decide_eq_true_2 by done.
    rewrite lookup_insert_ne by done. rewrite lookup_singleton_eq.
    intros Hin. apply list_elem_of_singleton in Hin. by destruct s.
  - eexists. split; [reflexivity|]. apply Forall_forall. intros ev Hev.
    apply list_elem_of_fmap in Hev as (h & -> & _). exact Hs.
  - intros l e Hl. exists e. split; [done|apply same_entry_refl].
Qed.

Lemma history_push entry w :
  history w (modify_heap (λ h, h ++ [entry]) w).2.
Proof.
  split; simpl; auto; try lia.
  - exists []. rewrite app_nil_r. split; [done|]. apply not_elem_of_nil.
  - exists []. by rewrite app_nil_r.
  - intros l e Hl. exists e. split; [|apply same_entry_refl].
    by apply lookup_app_l_Some.
Qed.

Lemma history_bump slot w :
  history w (modify_heap (alter bump_retryCount slot) w).2.
Proof.
  split; simpl; auto; try lia.
  - exists []. rewrite app_nil_r. split; [done|]. apply not_elem_of_nil.
  - exists []. by rewrite app_nil_r.
  - intros l e Hl. destruct (decide (slot = l)) as [->|Hne].
    + exists (bump_retryCount e). rewrite list_lookup_alter_eq, Hl.
      split; [done|]. split; simpl; auto. lia.
    + exists e. rewrite list_lookup_alter_ne by done.
      split; [done|apply same_entry_refl].
Qed.

Create HintDb history discriminated.
#[local] Hint Resolve history_now history_random_suffix history_generateId
  history_getMetrics history_getState history_process history_route
  history_deliver history_emitAudit history_persistOfflineQueue
  history_backoff history_replay_started history_recordMetric history_push
  history_bump : history.

Ltac history_tac :=
  repeat first
    [ preserves_step
    | apply preserves_history; intros ?; solve [ auto with history ]
    | apply preserves_history; intros ?; apply history_transitionTo; discriminate
    | apply preserves_history; intros ?; apply history_emit; exact I
    | apply preserves_history; intros ?; apply history_modify_this;
      simpl; first [ reflexivity | lia ] ].

Lemma history_executeOffline w0 c x : preserves (history w0) (executeOffline c x).
Proof. unfold executeOffline. history_tac. Qed.

Lemma history_execute w0 fuel c x : preserves (history w0) (execute fuel c x).
Proof.
  induction fuel as [|fuel IH]; simpl.
  - apply preserves_never.
  - unfold retryWithBackoff. history_tac;
      first [apply history_executeOffline|exact IH].
Qed.

Lemma history_replay w0 fuel sorted counts :
  preserves (history w0) (replay (execute fuel) sorted counts).
Proof.
  revert counts. induction sorted as [|slot rest IH]; intros counts; simpl.
  - apply preserves_ret.
  - unfold replay_entry. history_tac; first [apply history_execute|apply IH].
Qed.

Lemma history_sync w0 fuel : preserves (history w0) (sync fuel).
Proof. unfold sync. history_tac. apply history_replay. Qed.

Lemma history_dispose w0 : preserves (history w0) dispose.
Proof. unfold dispose. history_tac. Qed.

Lemma history_run_op fuel op w : history w (run_op fuel op w).2.
Proof.
  assert (∀ f : ResourceRegistry → ResourceRegistry,
            (∀ r, config (f r) = config r) → (∀ r, metrics (f r) = metrics r) →
            (∀ r, sequenceCounter (f r) = sequenceCounter r) →
            (∀ r, state (f r) = state r) →
            history w (modify_this f w).2) as Hlisteners.
  { intros f Hc Hm Hk Hs. apply history_modify_this; auto. rewrite Hk. lia. }
  destruct op; cbn [run_op]; rewrite ?run_then_ret.
  - apply history_execute, history_refl.
  - apply history_executeOffline, history_refl.
  - apply history_sync, history_refl.
  - apply history_refl.
  - apply history_refl.
  - by apply Hlisteners.
  - by apply Hlisteners.
  - by apply Hlisteners.
  - by apply Hlisteners.
  - apply history_dispose, history_refl.
Qed.

Lemma history_run_ops fuel ops w : history w (run_ops fuel ops w).
Proof.
  revert w. induction ops as [|op ops IH]; intros w; [apply history_refl|].
  cbn [run_ops]. pose proof (history_run_op fuel op w) as Hop.
  destruct (run_op fuel op w) as [[[]|e|] w']; simpl in Hop;
    [eapply history_trans; [exact Hop|apply IH]
    |eapply history_trans; [exact Hop|apply IH]
    |exact Hop].
Qed.

Lemma history_reachable w :
  reachable w → ∃ e p, history (new_world e p) w.
Proof.
  induction 1 as [e p|fuel op w _ (e & p & IH)].
  - exists e, p. apply history_refl.
  - exists e, p. eapply history_trans; [exact IH|apply history_run_op].
Qed.

(** X10.  What no sequence of calls undoes, from any state of the cell:
    the configuration stays as the constructor made it; the metrics are
    never cleared or trimmed, each call only appends to them; an entry
    object, once made, keeps its id, command, context, sequence number,
    vector clock and creation time for good, and its retry count never goes
    down; the sequence counter never goes down. *)
Theorem cell_keeps_its_past fuel ops w :
  let w' := run_ops fuel ops w in
  config (this w') = config (this w)
  ∧ (∃ ms, metrics (this w') = metrics (this w) ++ ms)
  ∧ (∀ (l : loc) e, heap w !! l = Some e →
       ∃ e', heap w' !! l = Some e' ∧ same_entry e e')
  ∧ sequenceCounter (this w) ≤ sequenceCounter (this w').
Proof.
  destruct (history_run_ops fuel ops w)
    as [Hc _ (ms & Hm & _) _ Hh Hk _].
  cbv zeta. split; [done|]. split; [by exists ms|]. split; done.
Qed.

(** X11.  The cell never enters DEAD_LETTER: in every state a caller can
    bring about from a new cell, the state is not DEAD_LETTER, no listener
    has ever been told DEAD_LETTER, and no [state_transition] metric leads
    to it. *)
Theorem never_dead_letter w :
  reachable w →
  state (this w) ≠ DEAD_LETTER
  ∧ (∀ h, StateListenerCalled h DEAD_LETTER ∉ trace w)
  ∧ (CellState_name DEAD_LETTER ∉ states_entered (metrics (this w))).
Proof.
  intros Hw. destruct (history_reachable w Hw)
    as (e & p & [_ _ (ms & Hm & Hn) (delta & Ht & Hd) _ _ Hs]).
  simpl in Hm, Ht, Hs. split; [|split].
  - destruct Hs as [->|Hs]; [discriminate|exact Hs].
  - intros h Hin. rewrite Ht in Hin. rewrite Forall_forall in Hd.
    by apply (Hd _ Hin).
  - by rewrite Hm.
Qed.

Lemma never_dead_letter_witness :
  state (this three_queued) ≠ DEAD_LETTER
  ∧ (∀ h, StateListenerCalled h DEAD_LETTER ∉ trace three_queued)
  ∧ (CellState_name DEAD_LETTER ∉ states_entered (metrics (this three_queued))).
Proof.
  apply (never_dead_letter three_queued).
  apply reachable_run_ops, reachable_new.
Defined.

(** ** The order of the queue *)

Lemma StronglySorted_filter_keep {A} (R : relation A) (P : A → Prop)
    `{!∀ x, Decision (P x)} (l : list A) :
  StronglySorted R l → StronglySorted R (filter P l).
Proof.
  induction 1 as [|x l Hl IH Hx]; [constructor|].
  rewrite filter_cons. destruct (decide (P x)); [|exact IH].
  constructor; [exact IH|]. by apply Forall_filter_keep.
Qed.

Lemma ordered_same_store w w' : same_store w w' → ordered w → ordered w'.
Proof.
  intros Hs [Hwf Hq]. split; [by eapply wf_same_store|].
  by rewrite (same_queue _ _ Hs).
Qed.

Lemma ordered_new_world e p : ordered (new_world e p).
Proof. split; [apply wf_new_world|constructor]. Qed.

Lemma preserves_ordered_same_store {A} (m : Promise A) :
  (∀ w, same_store w (m w).2) → preserves ordered m.
Proof. intros H w Hw. eapply ordered_same_store; [apply H|exact Hw]. Qed.

Lemma ordered_executeOffline c x : preserves ordered (executeOffline c x).
Proof.
  intros w [Hwf Hq]. split; [by apply wf_executeOffline|].
  destruct (executeOffline_run c x w) as (r & w' & -> & _ & _ & _ & Hq' & _).
  cbn [snd]. rewrite Hq'.
  apply StronglySorted_app. split; [|split; [exact Hq|repeat constructor]].
  intros l1 l2 Hl1 Hl2. apply list_elem_of_singleton in Hl2. subst l2.
  pose proof (wf_queue w Hwf) as Hlt. rewrite Forall_forall in Hlt.
  by apply Hlt.
Qed.

Lemma ordered_execute fuel c x : preserves ordered (execute fuel c x).
Proof.
  intros w Hw. destruct (goes_offline x) eqn:Hx.
  - destruct fuel as [|fuel]; simpl; [done|]. rewrite Hx.
    by apply ordered_executeOffline.
  - eapply ordered_same_store; [|exact Hw].
    apply (same_store_execute w fuel c x Hx w), same_store_refl.
Qed.

Lemma ordered_replay_entry
    (exec : ResourceRegistryCommand → ExecutionContext → Promise ResourceRegistryResult)
    slot counts :
  (∀ c x, preserves ordered (exec c x)) →
  preserves ordered (replay_entry exec slot counts).
Proof.
  intros Hexec. unfold replay_entry.
  apply preserves_try_catch.
  - apply preserves_bind; [apply preserves_get_heap|intros h].
    apply preserves_bind; [apply Hexec|intros _].
    apply preserves_bind; [apply preserves_get_heap|intros h'].
    apply preserves_bind; [|intros _; apply preserves_ret].
    intros w [[wc ws wq wn] Hq]. split; [split|]; simpl; auto.
    + by apply Forall_filter_keep.
    + by apply NoDup_filter.
    + by apply StronglySorted_filter_keep.
  - intros e. apply preserves_bind; [|intros _; apply preserves_ret].
    intros w [Hwf Hq]. split; [by apply wf_bump_retryCount|exact Hq].
Qed.

Lemma ordered_replay
    (exec : ResourceRegistryCommand → ExecutionContext → Promise ResourceRegistryResult)
    sorted counts :
  (∀ c x, preserves ordered (exec c x)) →
  preserves ordered (replay exec sorted counts).
Proof.
  intros Hexec. revert counts.
  induction sorted as [|slot rest IH]; intros counts; simpl.
  - apply preserves_ret.
  - apply preserves_bind; [|intros _; apply preserves_bind; [|intros ?; apply IH]].
    + apply preserves_ordered_same_store, same_store_emit.
    + by apply ordered_replay_entry.
Qed.

Ltac ordered_tac :=
  repeat first
    [ preserves_step
    | apply preserves_ordered_same_store; intros ?; solve [ auto with store ]
    | apply preserves_ordered_same_store; intros ?; split; reflexivity ].

Lemma ordered_sync fuel : preserves ordered (sync fuel).
Proof.
  unfold sync. ordered_tac. apply ordered_replay. intros c x. apply ordered_execute.
Qed.

Lemma ordered_dispose : preserves ordered dispose.
Proof. unfold dispose. ordered_tac. Qed.

Lemma ordered_run_op fuel op : preserves ordered (run_op fuel op).
Proof.
  destruct op; simpl;
    unfold getState, getMetrics, onStateChange, unsubscribeState, onError,
      unsubscribeError; ordered_tac;
    first [ apply ordered_execute | apply ordered_executeOffline
          | apply ordered_sync | apply ordered_dispose ].
Qed.

Lemma reachable_ordered w : reachable w → ordered w.
Proof.
  induction 1 as [e p|fuel op w _ IH].
  - apply ordered_new_world.
  - by apply ordered_run_op.
Qed.

(** Sorting a list of slots that is ascending already gives it back. *)
Lemma sort_by_seq_ordered w (q : list loc) :
  wf w → Forall (λ l, (l < length (heap w))%nat) q → StronglySorted lt q →
  sort_by_seq (heap w) q = q.
Proof.
  intros Hwf Hrange Hsorted.
  induction Hsorted as [|l rest Hrest IH Hl]; [done|].
  apply Forall_cons in Hrange as [Hlr Hrange].
  unfold sort_by_seq in *. cbn [foldr]. rewrite (IH Hrange).
  destruct rest as [|l' rest']; [done|].
  cbn [insert_by_seq].
  apply Forall_cons in Hl as [Hll' _]. apply Forall_cons in Hrange as [Hl'r _].
  rewrite !(wf_seq_at w) by done.
  destruct (Z.leb_spec (Z.of_nat (S l) - Z.of_nat (S l')) 0); [done|lia].
Qed.

(** X12.  In every state a caller can bring about from a new cell, the
    queue lists its entries by strictly ascending sequence number: new
    entries are pushed with the next number and removal keeps the order.  So
    the sort at the start of [sync] moves no entry, and [sync] replays the
    entries in the order of the queue. *)
Theorem queue_is_in_sequence_order w :
  reachable w →
  StronglySorted (λ a b, seq_at (heap w) a < seq_at (heap w) b)
                 (offlineQueue (this w))
  ∧ sort_by_seq (heap w) (offlineQueue (this w)) = offlineQueue (this w).
Proof.
  intros Hw. destruct (reachable_ordered w Hw) as [Hwf Hq].
  pose proof (wf_queue w Hwf) as Hrange. split.
  - induction Hq as [|l rest Hrest IH Hl]; [constructor|].
    apply Forall_cons in Hrange as [Hlr Hrange].
    constructor; [by apply IH|].
    rewrite Forall_forall in Hl, Hrange. apply Forall_forall. intros l' Hl'.
    rewrite !(wf_seq_at w) by auto. specialize (Hl l' Hl'). lia.
  - by apply sort_by_seq_ordered.
Qed.

Lemma queue_is_in_sequence_order_witness :
  StronglySorted (λ a b, seq_at (heap three_queued) a < seq_at (heap three_queued) b)
                 (offlineQueue (this three_queued))
  ∧ sort_by_seq (heap three_queued) (offlineQueue (this three_queued))
    = offlineQueue (this three_queued).
Proof.
  apply (queue_is_in_sequence_order three_queued).
  apply reachable_run_ops, reachable_new.
Defined.

(** ** [sync] as its callers see it *)

Lemma execute_pending_state fuel c x w :
  (execute (S fuel) c x w).1 = Pending →
  state (this (execute (S fuel) c x w).2) = ERROR.
Proof.
  destruct (goes_offline x) eqn:Hx.
  { cbn [execute]. rewrite Hx.
    by destruct (executeOffline_run c x w) as (r & w' & -> & _). }
  destruct (online_kind c) eqn:Hk.
  - by destruct (execute_delivers fuel c x w Hx Hk) as (r & w' & -> & _).
  - by destruct (online_kind_not_Requeued c).
  - by destruct (execute_throws fuel c x w Hx Hk) as (e & w' & -> & _).
  - intros _.
    assert (∀ n w0, state (this w0) = ERROR →
              state (this (execute n c x w0).2) = ERROR) as Hstuck.
    { induction n as [|n IH]; intros w0 Hw0; [exact Hw0|].
      rewrite execute_retries by done. apply IH.
      by destruct (failed_attempt_run c x w0) as (_ & _ & Hs & _). }
    rewrite execute_retries by done. apply Hstuck.
    by destruct (failed_attempt_run c x w) as (_ & _ & Hs & _).
Qed.

(** Each turn of the loop adds one to one of the two counters. *)
Lemma replay_counts fuel ls : ∀ counts w,
  match replay (execute (S fuel)) ls counts w with
  | (Fulfilled counts', _) =>
      counts'.1 + counts'.2 = counts.1 + counts.2 + Z.of_nat (length ls)
      ∧ counts.1 ≤ counts'.1 ∧ counts.2 ≤ counts'.2
  | (Rejected _, _) => False
  | (Pending, w') => state (this w') = ERROR
  end.
Proof.
  induction ls as [|slot rest IH]; intros counts w.
  - simpl. lia.
  - rewrite replay_cons, replay_entry_unfold.
    pose proof (execute_pending_state fuel
                  (entry_command (heap (log_event (ReplayStarted slot) w) !!! slot))
                  (with_isOffline false
                     (entry_context (heap (log_event (ReplayStarted slot) w) !!! slot)))
                  (log_event (ReplayStarted slot) w)) as Hstuck.
    destruct (execute (S fuel) _ _ _) as [[r|e|] w1].
    + match goal with
      | |- context [replay _ rest ?c ?w0] => specialize (IH c w0)
      end.
      destruct (replay _ rest _ _) as [[counts'|e'|] w2]; [|done|done].
      cbn [fst snd length] in *. lia.
    + match goal with
      | |- context [replay _ rest ?c ?w0] => specialize (IH c w0)
      end.
      destruct (replay _ rest _ _) as [[counts'|e'|] w2]; [|done|done].
      cbn [fst snd length] in *. lia.
    + by apply Hstuck.
Qed.

(** X13.  [sync] never rejects: what a replay throws is caught and
    counted.  When it returns, every entry of the snapshot has been counted
    exactly once, as synced or as failed, the list of conflicts is empty, and
    the cell is IDLE, also when replays failed.  When it does not return, a
    replay is being retried and the cell is in ERROR. *)
Theorem sync_counts_every_entry fuel w :
  match (sync (S fuel) w).1 with
  | Fulfilled r =>
      synced r + failed r = Z.of_nat (length (offlineQueue (this w)))
      ∧ 0 ≤ synced r ∧ 0 ≤ failed r
      ∧ conflicts r = []
      ∧ state (this (sync (S fuel) w).2) = IDLE
  | Rejected _ => False
  | Pending => state (this (sync (S fuel) w).2) = ERROR
  end.
Proof.
  rewrite sync_unfold.
  destruct (before_replay_run w) as (t & w1 & -> & _).
  pose proof (replay_counts fuel (sort_by_seq (heap w) (offlineQueue (this w)))
                (0, 0) w1) as Hcounts.
  destruct (replay _ _ _ _) as [[counts|e|] w2]; [|done|exact Hcounts].
  destruct (after_replay_run w2) as (t' & w3 & -> & _ & _ & Hst).
  cbn [fst snd synced failed conflicts] in *.
  rewrite (Permutation_length (sort_by_seq_Permutation _ _)) in Hcounts.
  repeat split; try done; lia.
Qed.

(** X14.  [sync] with an empty queue: it returns with both counters at
    zero (with any bound on the retries, as it replays nothing), having gone
    through SYNCING and back to IDLE, told every state listener both, and
    called the persistence hook once, with the empty queue.  The queue, the
    entries and the counter are untouched. *)
Theorem sync_of_empty_queue fuel w :
  offlineQueue (this w) = [] →
  ∃ r w' ms,
    sync fuel w = (Fulfilled r, w')
    ∧ synced r = 0 ∧ failed r = 0 ∧ conflicts r = []
    ∧ state (this w') = IDLE
    ∧ offlineQueue (this w') = [] ∧ heap w' = heap w
    ∧ sequenceCounter (this w') = sequenceCounter (this w)
    ∧ metrics (this w') = metrics (this w) ++ ms
    ∧ states_entered ms = CellState_name <$> [SYNCING; IDLE]
    ∧ trace w'
      = trace w
        ++ ((λ h, StateListenerCalled h SYNCING) <$> stateListeners (this w))
        ++ [QueuePersisted (offlineStorageKey (config (this w))) []]
        ++ ((λ h, StateListenerCalled h IDLE) <$> stateListeners (this w)).
Proof.
  destruct w as [[st q n ms sl el cf] h tr ck dr en]. simpl. intros ->.
  unfold sync. rewrite run_bind, transitionTo_run. run.
  change (sort_by_seq h []) with (@nil nat). cbn [replay]. run.
  rewrite transitionTo_run. run.
  do 3 eexists. split; [reflexivity|]. cbn [synced failed conflicts].
  do 7 (split; [reflexivity|]).
  split; [rewrite <- !app_assoc; reflexivity|].
  split; [reflexivity|]. by rewrite <- !app_assoc.
Qed.

Lemma sync_of_empty_queue_witness :
  ∃ r w' ms,
    sync 0 fresh_cell = (Fulfilled r, w')
    ∧ synced r = 0 ∧ failed r = 0 ∧ conflicts r = []
    ∧ state (this w') = IDLE
    ∧ offlineQueue (this w') = [] ∧ heap w' = heap fresh_cell
    ∧ sequenceCounter (this w') = sequenceCounter (this fresh_cell)
    ∧ metrics (this w') = metrics (this fresh_cell) ++ ms
    ∧ states_entered ms = CellState_name <$> [SYNCING; IDLE]
    ∧ trace w'
      = trace fresh_cell
        ++ ((λ h, StateListenerCalled h SYNCING) <$> stateListeners (this fresh_cell))
        ++ [QueuePersisted (offlineStorageKey (config (this fresh_cell))) []]
        ++ ((λ h, StateListenerCalled h IDLE) <$> stateListeners (this fresh_cell)).
Proof.
  apply (sync_of_empty_queue 0 fresh_cell). reflexivity.
Defined.

(** On [host1] an id is the storage key, the reading 0 and the numeral of
    the draw: ids of different draws differ. *)
Lemma host1_ids_differ (d0 d : nat) :
  (d0 < d)%nat →
  "cel_resourcereg_offline_queue_0_" +:+ pretty d0
  ≠ "cel_resourcereg_offline_queue" +:+ "_" +:+ pretty (0 : Z)
      +:+ "_" +:+ pretty d.
Proof.
  intros Hlt Heq.
  change ("cel_resourcereg_offline_queue_0_" +:+ pretty d0
          = "cel_resourcereg_offline_queue_0_" +:+ pretty d) in Heq.
  apply (inj _) in Heq. apply (inj pretty) in Heq. lia.
Qed.

Lemma one_queued_no_network_fresh :
  ¬ generated_later one_queued_no_network
      (id_at (heap one_queued_no_network) 0).
Proof.
  intros (k & d & Hk & Hd & Heq).
  change (draws one_queued_no_network) with 2%nat in Hd.
  apply (host1_ids_differ 0 d); [lia|exact Heq].
Qed.

(** X15.  A queued entry whose context reports network quality 'offline'
    is never delivered by [sync]: [sync] clears the offline flag of the
    context only, so the replay is routed offline again.  With one such
    entry in the queue (and an id that the host does not hand out again),
    [sync] returns [synced = 1] and [failed = 0], yet the queue is as long as
    before: the old entry is gone and a new entry for the same command sits
    there, with a new sequence number and retry count 0. *)
Theorem sync_requeues_when_network_is_offline fuel w l :
  offlineQueue (this w) = [l] →
  (l < length (heap w))%nat →
  ctx_networkQuality (entry_context (heap w !!! l)) = "offline" →
  ¬ generated_later w (id_at (heap w) l) →
  ∃ r w' e,
    sync (S fuel) w = (Fulfilled r, w')
    ∧ synced r = 1 ∧ failed r = 0
    ∧ heap w' = heap w ++ [e]
    ∧ offlineQueue (this w') = [length (heap w)]
    ∧ entry_command e = entry_command (heap w !!! l)
    ∧ entry_context e = with_isOffline false (entry_context (heap w !!! l))
    ∧ entry_sequenceNumber e = sequenceCounter (this w) + 1
    ∧ entry_retryCount e = 0
    ∧ state (this w') = IDLE.
Proof.
  intros Hq Hl Hnet Hfresh.
  rewrite sync_unfold.
  destruct (before_replay_run w) as (t & w1 & -> & [Hq1 Hh1 Hn1] & Hf1 & _).
  rewrite Hq. change (sort_by_seq (heap w) [l]) with [l].
  rewrite replay_cons, replay_entry_unfold. cbn [heap log_event].
  rewrite Hh1.
  assert (goes_offline (with_isOffline false (entry_context (heap w !!! l))) = true)
    as Hx.
  { unfold goes_offline. simpl. by rewrite Hnet. }
  cbn [execute]. rewrite Hx.
  destruct (executeOffline_run (entry_command (heap w !!! l))
              (with_isOffline false (entry_context (heap w !!! l)))
              (log_event (ReplayStarted l) w1))
    as (r & w2 & -> & _ & _ & (e & Hh2 & Hc & Hcx & Hs & Hr & Hid) & Hq2 & _).
  cbn [heap this log_event env clock draws config] in Hh2, Hs, Hid, Hq2.
  rewrite Hh1 in Hh2. rewrite Hq1, Hq, Hh1 in Hq2. rewrite Hn1 in Hs.
  cbn [replay mret Promise_ret].
  match goal with
  | |- context [after_replay ?w0] =>
      destruct (after_replay_run w0) as (t' & w3 & -> & [Hq3 Hh3 _] & _ & Hst)
  end.
  cbn [heap this set_this set_offlineQueue offlineQueue] in Hq3, Hh3.
  exists {| synced := (0 + 1, 0).1; failed := (0 + 1, 0).2; conflicts := [];
            duration := t' - t |}, w3, e.
  split; [reflexivity|]. cbn [synced failed fst snd].
  split; [done|]. split; [done|]. split; [by rewrite Hh3|].
  split; [|by repeat split].
  rewrite Hq3, Hq2, Hh2. unfold remove_by_id.
  rewrite lookup_total_app_l by done.
  cbn [app].
  rewrite filter_cons_False.
  2: { rewrite lookup_total_app_l by done. intros Hne. by apply Hne. }
  rewrite filter_cons_True; [done|].
  rewrite lookup_total_app_r, Nat.sub_diag by lia. simpl. intros Heq.
  apply Hfresh. unfold id_at. rewrite <- Heq, Hid.
  destruct Hf1 as [Hcf _ _ Hen Hck Hdr _].
  exists (S (clock w1)), (draws w1). rewrite Hcf, Hen. repeat split; lia.
Qed.

Lemma sync_requeues_when_network_is_offline_witness :
  ∃ r w' e,
    sync 1 one_queued_no_network = (Fulfilled r, w')
    ∧ synced r = 1 ∧ failed r = 0
    ∧ heap w' = heap one_queued_no_network ++ [e]
    ∧ offlineQueue (this w') = [length (heap one_queued_no_network)]
    ∧ entry_command e = entry_command (heap one_queued_no_network !!! 0%nat)
    ∧ entry_context e
      = with_isOffline false (entry_context (heap one_queued_no_network !!! 0%nat))
    ∧ entry_sequenceNumber e = sequenceCounter (this one_queued_no_network) + 1
    ∧ entry_retryCount e = 0
    ∧ state (this w') = IDLE.
Proof.
  apply (sync_requeues_when_network_is_offline 0 one_queued_no_network 0).
  - reflexivity.
  - vm_compute. lia.
  - reflexivity.
  - exact one_queued_no_network_fresh.
Defined.

(** * The orchestrator *)

Lemma alter_last {A} (f : A → A) (l : list A) (x : A) :
  alter f (length l) (l ++ [x]) = l ++ [f x].
Proof. induction l as [|y l IH]; [done|]. simpl. f_equal. exact IH. Qed.

Lemma lookup_last {A} (l : list A) (x : A) : (l ++ [x]) !! length l = Some x.
Proof. by apply list_lookup_middle. Qed.

Lemma clearInterval_fresh (id : nat) (timers : list nat) :
  Forall (λ t, (t < id)%nat) timers → clearInterval id timers = timers.
Proof.
  intros Hlt. apply filter_all. eapply Forall_impl; [exact Hlt|].
  simpl. intros; lia.
Qed.

Lemma clearInterval_last (id : nat) (timers : list nat) :
  Forall (λ t, (t < id)%nat) timers → clearInterval id (timers ++ [id]) = timers.
Proof.
  intros Hlt. unfold clearInterval.
  rewrite filter_app, filter_cons_False, filter_nil, app_nil_r by auto.
  by apply clearInterval_fresh.
Qed.

Lemma clearInterval_twice (id : nat) (timers : list nat) :
  clearInterval id (clearInterval id timers) = clearInterval id timers.
Proof.
  apply filter_all, Forall_forall. intros t Ht.
  by apply list_elem_of_filter in Ht as [? _].
Qed.

(** X16.  The life of an orchestrated cell.  Before [initialize] there is
    no cell.  [initialize] hands out a new cell, IDLE, with an empty queue,
    the orchestrator's overrides merged over the defaults, and one state
    listener, the orchestrator's own.  The orchestrator holds that very
    cell: what its health check reads is the state and the metrics the
    caller's calls have left.  [shutdown] stops the timer that [initialize]
    started and no other, disposes the cell (IDLE, no listeners) without
    replaying or dropping what is queued, and forgets it. *)
Theorem orchestrator_lifecycle rt fuel ops :
  timers_fresh rt →
  let ref := (initialize rt).1 in
  let new := (onStateChange ref (new_world (host rt) (orch_config (orchestrator rt)))).2 in
  let used := on_cell ref fuel ops (initialize rt).2 in
  let down := shutdown used in
  getCell (new_orchestrator (host rt) (orch_config (orchestrator rt))) = None
  ∧ getCell (initialize rt).2 = Some ref
  ∧ cells (initialize rt).2 !! ref = Some new
  ∧ state (this new) = IDLE ∧ offlineQueue (this new) = []
  ∧ config (this new) = merge_config DEFAULT_CONFIG (orch_config (orchestrator rt))
  ∧ stateListeners (this new) = [ref] ∧ errorListeners (this new) = []
  ∧ intervals (initialize rt).2 = intervals rt ++ [next_interval rt]
  ∧ performHealthCheck used
    = Some (state (this (run_ops fuel ops new)), metrics (this (run_ops fuel ops new)))
  ∧ getCell down = None
  ∧ performHealthCheck down = None
  ∧ intervals down = intervals rt
  ∧ ∃ w, cells down !! ref = Some w
         ∧ state (this w) = IDLE
         ∧ stateListeners (this w) = [] ∧ errorListeners (this w) = []
         ∧ offlineQueue (this w) = offlineQueue (this (run_ops fuel ops new))
         ∧ heap w = heap (run_ops fuel ops new).
Proof.
  intros Hfresh. cbv zeta.
  destruct rt as [[cfg cell timer] cs ts nx hst].
  unfold timers_fresh in Hfresh. cbn [intervals next_interval] in Hfresh.
  unfold initialize, on_cell, shutdown, getCell, performHealthCheck.
  cbn [fst snd orchestrator cells intervals next_interval host orch_cell
       orch_config healthCheckInterval].
  rewrite !alter_last, !lookup_last, clearInterval_last by done.
  do 10 (split; [reflexivity|]). do 3 (split; [reflexivity|]).
  eexists. split; [reflexivity|]. rewrite dispose_run. by repeat split.
Qed.

Lemma orchestrator_lifecycle_witness :
  let rt := new_orchestrator host0 no_overrides in
  let ops := [OpExecute cmd_1 offline_ctx; OpExecute cmd_1 online_ctx] in
  let ref := (initialize rt).1 in
  let new := (onStateChange ref (new_world (host rt) (orch_config (orchestrator rt)))).2 in
  let used := on_cell ref 1 ops (initialize rt).2 in
  let down := shutdown used in
  getCell (new_orchestrator (host rt) (orch_config (orchestrator rt))) = None
  ∧ getCell (initialize rt).2 = Some ref
  ∧ cells (initialize rt).2 !! ref = Some new
  ∧ state (this new) = IDLE ∧ offlineQueue (this new) = []
  ∧ config (this new) = merge_config DEFAULT_CONFIG (orch_config (orchestrator rt))
  ∧ stateListeners (this new) = [ref] ∧ errorListeners (this new) = []
  ∧ intervals (initialize rt).2 = intervals rt ++ [next_interval rt]
  ∧ performHealthCheck used
    = Some (state (this (run_ops 1 ops new)), metrics (this (run_ops 1 ops new)))
  ∧ getCell down = None
  ∧ performHealthCheck down = None
  ∧ intervals down = intervals rt
  ∧ ∃ w, cells down !! ref = Some w
         ∧ state (this w) = IDLE
         ∧ stateListeners (this w) = [] ∧ errorListeners (this w) = []
         ∧ offlineQueue (this w) = offlineQueue (this (run_ops 1 ops new))
         ∧ heap w = heap (run_ops 1 ops new).
Proof.
  apply (orchestrator_lifecycle (new_orchestrator host0 no_overrides) 1
           [OpExecute cmd_1 offline_ctx; OpExecute cmd_1 online_ctx]).
  constructor.
Defined.

(** X17.  Calling [initialize] a second time replaces the cell and the
    timer without stopping the first timer or disposing the first cell:
    after a later [shutdown] the first timer is still running and the first
    cell still has the orchestrator's listener registered. *)
Theorem initialize_twice_leaks rt :
  timers_fresh rt →
  let first := (initialize rt).1 in
  let second := (initialize (initialize rt).2).1 in
  let down := shutdown (initialize (initialize rt).2).2 in
  first ≠ second
  ∧ getCell down = None
  ∧ intervals down = intervals rt ++ [next_interval rt]
  ∧ (∃ w, cells down !! first = Some w ∧ stateListeners (this w) = [first])
  ∧ (∃ w, cells down !! second = Some w ∧ stateListeners (this w) = []).
Proof.
  intros Hfresh. cbv zeta.
  destruct rt as [[cfg cell timer] cs ts nx hst].
  unfold timers_fresh in Hfresh. cbn [intervals next_interval] in Hfresh.
  unfold initialize, shutdown, getCell.
  cbn [fst snd orchestrator cells intervals next_interval host orch_cell
       orch_config healthCheckInterval].
  rewrite length_app. cbn [length]. rewrite Nat.add_1_r.
  split; [lia|]. split; [reflexivity|]. split; [|split].
  - apply clearInterval_last. apply Forall_app. split.
    + eapply Forall_impl; [exact Hfresh|]. simpl. intros; lia.
    + repeat constructor.
  - eexists. split.
    + rewrite list_lookup_alter_ne by lia.
      rewrite lookup_app_l by (rewrite length_app; simpl; lia).
      apply lookup_last.
    + reflexivity.
  - eexists. split.
    + replace (S (length cs)) with (length (cs ++ [(onStateChange (length cs)
                                                      (new_world hst cfg)).2]))
        by (rewrite length_app; simpl; lia).
      rewrite alter_last. apply lookup_last.
    + by rewrite dispose_run.
Qed.

Lemma initialize_twice_leaks_witness :
  let rt := new_orchestrator host0 no_overrides in
  let first := (initialize rt).1 in
  let second := (initialize (initialize rt).2).1 in
  let down := shutdown (initialize (initialize rt).2).2 in
  first ≠ second
  ∧ getCell down = None
  ∧ intervals down = intervals rt ++ [next_interval rt]
  ∧ (∃ w, cells down !! first = Some w ∧ stateListeners (this w) = [first])
  ∧ (∃ w, cells down !! second = Some w ∧ stateListeners (this w) = []).
Proof.
  apply (initialize_twice_leaks (new_orchestrator host0 no_overrides)).
  constructor.
Defined.

(** X18.  [shutdown] can be repeated: a second [shutdown] changes nothing,
    and in particular does not dispose the cell a second time.  Without a
    cell and a timer, as before the first [initialize], [shutdown] does
    nothing at all. *)
Theorem shutdown_twice rt e p :
  shutdown (shutdown rt) = shutdown rt
  ∧ shutdown (new_orchestrator e p) = new_orchestrator e p.
Proof.
  split; [|reflexivity].
  destruct rt as [[cfg [ref|] [id|]] cs ts nx hst]; unfold shutdown;
    cbn [orchestrator cells intervals next_interval host orch_cell
         orch_config healthCheckInterval];
    by rewrite ?clearInterval_twice.
Qed.

(** X19.  What is queued in a cell does not reach the cell of a later
    [initialize]: after [shutdown] and a new [initialize] the orchestrator
    holds another cell, with an empty queue, the counter at zero and no
    metrics, while the first cell still holds what was queued in it. *)
Theorem reinitialize_starts_empty rt fuel ops :
  let first := (initialize rt).1 in
  let down := shutdown (on_cell first fuel ops (initialize rt).2) in
  let second := (initialize down).1 in
  getCell (initialize down).2 = Some second
  ∧ second ≠ first
  ∧ (∃ w, cells (initialize down).2 !! second = Some w
          ∧ offlineQueue (this w) = [] ∧ heap w = []
          ∧ sequenceCounter (this w) = 0 ∧ metrics (this w) = [])
  ∧ cells (initialize down).2 !! first = cells down !! first
  ∧ ∃ w, cells down !! first = Some w
         ∧ offlineQueue (this w)
           = offlineQueue (this (run_ops fuel ops
               (onStateChange first
                  (new_world (host rt) (orch_config (orchestrator rt)))).2)).
Proof.
  cbv zeta.
  destruct rt as [[cfg cell timer] cs ts nx hst].
  unfold initialize, on_cell, shutdown, getCell.
  cbn [fst snd orchestrator cells intervals next_interval host orch_cell
       orch_config healthCheckInterval].
  rewrite !alter_last.
  split; [reflexivity|]. split; [rewrite length_app; simpl; lia|].
  split; [|split].
  - eexists. split; [apply lookup_last|]. by repeat split.
  - rewrite lookup_app_l by (rewrite length_app; simpl; lia). reflexivity.
  - eexists. split; [apply lookup_last|]. by rewrite dispose_run.
Qed.

(** X20.  The dead-letter handler of the orchestrator never runs: its
    listener is the one registered on the cell by [initialize], and whatever
    the holder of the cell calls on it, no listener of the cell is ever told
    DEAD_LETTER. *)
Theorem dead_letter_handler_never_runs rt fuel ops :
  let ref := (initialize rt).1 in
  ∃ w0 w,
    cells (initialize rt).2 !! ref = Some w0
    ∧ stateListeners (this w0) = [ref] ∧ trace w0 = []
    ∧ cells (on_cell ref fuel ops (initialize rt).2) !! ref = Some w
    ∧ w = run_ops fuel ops w0
    ∧ ∀ h, StateListenerCalled h DEAD_LETTER ∉ trace w.
Proof.
  cbv zeta.
  destruct rt as [[cfg cell timer] cs ts nx hst].
  unfold initialize, on_cell.
  cbn [fst snd orchestrator cells intervals next_interval host orch_cell
       orch_config healthCheckInterval].
  rewrite alter_last, !lookup_last.
  do 2 eexists. split; [reflexivity|]. split; [reflexivity|].
  split; [reflexivity|]. split; [reflexivity|]. split; [reflexivity|].
  intros h Hin.
  match goal with
  | H : _ ∈ trace (run_ops _ _ ?w0) |- _ =>
      destruct (history_trace _ _ (history_run_ops fuel ops w0)) as (delta & Ht & Hd)
  end.
  rewrite Ht in Hin. simpl in Hin. rewrite Forall_forall in Hd.
  by apply (Hd _ Hin).
Qed.

(** * Settings that are never read *)

Section Settings.
Context (cf : ResourceRegistryConfig).

Lemma settings_executeOffline c x w :
  offlineStorageKey cf = offlineStorageKey (config (this w)) →
  executeOffline c x (set_config cf w) = in_config cf (executeOffline c x w).
Proof.
  destruct w as [[st q n ms sl el cf0] h tr ck dr en]. simpl. intros Hkey.
  unfold executeOffline, in_config, set_config.
  rewrite !run_bind, !transitionTo_run. run. rewrite Hkey. reflexivity.
Qed.

Lemma settings_failed_attempt c x w :
  initialBackoffMs (networkConfig cf)
  = initialBackoffMs (networkConfig (config (this w))) →
  (failed_attempt c x (set_config cf w)).2
  = set_config cf (failed_attempt c x w).2.
Proof.
  destruct (validate_run c) as (v & Hv & _).
  destruct w as [[st q n ms sl el cf0] h tr ck dr en]. simpl. intros Hinit.
  unfold failed_attempt, set_config. run. rewrite ?transitionTo_run. run.
  rewrite ?Hv. run. rewrite ?transitionTo_run. run.
  unfold backoff_delay. rewrite !Z.pow_0_r, Hinit. reflexivity.
Qed.

Lemma settings_execute fuel c x w :
  same_settings_read (config (this w)) cf →
  execute fuel c x (set_config cf w) = in_config cf (execute fuel c x w).
Proof.
  intros [Ht Hkey Hinit].
  destruct fuel as [|fuel]; [reflexivity|].
  destruct (goes_offline x) eqn:Hx.
  { cbn [execute]. rewrite Hx. by apply settings_executeOffline. }
  destruct (online_kind c) eqn:Hk.
  - apply online_kind_Delivered in Hk.
    destruct (validate_run c) as (v & Hv & _ & _ & Hvalid).
    rewrite bool_decide_eq_true_2 in Hvalid by done.
    destruct w as [[st q n ms sl el cf0] h tr ck dr en]. simpl in Ht, Hkey, Hinit.
    unfold in_config, set_config.
    cbn [execute]. rewrite Hx. run.
    rewrite ?transitionTo_run. run. rewrite ?Hv, ?Hvalid. run.
    rewrite ?transitionTo_run. run.
    rewrite ?transitionTo_run. run.
    rewrite ?transitionTo_run. run.
    rewrite Hkey. reflexivity.
  - by destruct (online_kind_not_Requeued c).
  - apply online_kind_Throws in Hk.
    destruct (validate_run c) as (v & Hv & Hf & Hc & Hvalid).
    assert (valid v = false) as Hinvalid.
    { rewrite Hvalid. apply bool_decide_eq_false. intros Hnil.
      apply missing_fields_nil in Hnil. destruct Hnil as (_ & _ & ?). congruence. }
    destruct w as [[st q n ms sl el cf0] h tr ck dr en].
    unfold in_config, set_config.
    cbn [execute]. rewrite Hx. run.
    rewrite ?transitionTo_run. run. rewrite ?Hv, ?Hinvalid. run.
    rewrite ?transitionTo_run. run.
    unfold truthy. rewrite Hk. run. reflexivity.
  - revert w Ht Hkey Hinit. induction fuel as [|fuel IH]; intros w Ht Hkey Hinit.
    + rewrite !execute_retries by done. cbn [execute].
      unfold in_config, never. cbn [fst snd].
      by rewrite settings_failed_attempt.
    + rewrite (execute_retries (S fuel)) by done.
      rewrite (execute_retries (S fuel) c x w) by done.
      rewrite settings_failed_attempt by done.
      destruct (failed_attempt_run c x w) as ([Hcf _ _ _ _ _ _] & _).
      apply IH; by rewrite Hcf.
Qed.

Lemma settings_before_replay w :
  before_replay (set_config cf w) = in_config cf (before_replay w).
Proof.
  destruct w as [[st q n ms sl el cf0] h tr ck dr en].
  unfold before_replay, in_config, set_config.
  rewrite !run_bind, !transitionTo_run. reflexivity.
Qed.

Lemma settings_after_replay w :
  offlineStorageKey cf = offlineStorageKey (config (this w)) →
  after_replay (set_config cf w) = in_config cf (after_replay w).
Proof.
  destruct w as [[st q n ms sl el cf0] h tr ck dr en]. simpl. intros Hkey.
  unfold after_replay, in_config, set_config. run.
  rewrite ?transitionTo_run. run. rewrite Hkey. reflexivity.
Qed.

Lemma same_settings_read_frame b w w' :
  frame b w w' → same_settings_read (config (this w)) cf →
  same_settings_read (config (this w')) cf.
Proof. intros Hf. by rewrite (frame_config _ _ _ Hf). Qed.

Lemma settings_replay fuel ls : ∀ counts w,
  same_settings_read (config (this w)) cf →
  replay (execute fuel) ls counts (set_config cf w)
  = in_config cf (replay (execute fuel) ls counts w).
Proof.
  induction ls as [|slot rest IH]; intros counts w Hcf; [reflexivity|].
  rewrite !replay_cons, !replay_entry_unfold.
  change (log_event (ReplayStarted slot) (set_config cf w))
    with (set_config cf (log_event (ReplayStarted slot) w)).
  change (heap (set_config cf (log_event (ReplayStarted slot) w)))
    with (heap (log_event (ReplayStarted slot) w)).
  rewrite settings_execute by exact Hcf.
  pose proof (frame_execute false _ fuel
                (entry_command (heap (log_event (ReplayStarted slot) w) !!! slot))
                (with_isOffline false
                   (entry_context (heap (log_event (ReplayStarted slot) w) !!! slot)))
                _ (frame_refl false (log_event (ReplayStarted slot) w))) as Hf.
  destruct (execute fuel _ _ (log_event (ReplayStarted slot) w)) as [[r|e|] w1];
    unfold in_config at 1; cbn [fst snd] in *; [| |reflexivity].
  - match goal with
    | |- replay _ _ ?c ?w0 = in_config _ (replay _ _ _ ?w1) =>
        change w0 with (set_config cf w1)
    end.
    apply IH. cbn [this set_this set_offlineQueue config].
    by apply (same_settings_read_frame false _ _ Hf).
  - match goal with
    | |- replay _ _ ?c ?w0 = in_config _ (replay _ _ _ ?w1) =>
        change w0 with (set_config cf w1)
    end.
    apply IH. cbn [this set_heap config].
    by apply (same_settings_read_frame false _ _ Hf).
Qed.

Lemma settings_sync fuel w :
  same_settings_read (config (this w)) cf →
  sync fuel (set_config cf w) = in_config cf (sync fuel w).
Proof.
  intros Hcf. rewrite !sync_unfold, settings_before_replay.
  destruct (before_replay_run w) as (t & w1 & -> & _ & Hf1 & _).
  unfold in_config at 1. cbn [fst snd].
  change (heap (set_config cf w)) with (heap w).
  change (offlineQueue (this (set_config cf w))) with (offlineQueue (this w)).
  pose proof (same_settings_read_frame false _ _ Hf1 Hcf) as Hcf1.
  rewrite settings_replay by exact Hcf1.
  pose proof (frame_replay w1 (execute fuel)
                (sort_by_seq (heap w) (offlineQueue (this w))) (0, 0)
                (λ c x, frame_execute true w1 fuel c x) w1 (frame_refl true w1))
    as Hf2.
  destruct (replay _ _ _ w1) as [[counts|e|] w2];
    unfold in_config at 1; cbn [fst snd] in *; [| reflexivity | reflexivity].
  rewrite settings_after_replay.
  - by destruct (after_replay_run w2) as (t' & w3 & -> & _).
  - destruct Hcf1 as [_ Hkey _]. by rewrite (frame_config _ _ _ Hf2).
Qed.

Lemma settings_run_op fuel op w :
  same_settings_read (config (this w)) cf →
  run_op fuel op (set_config cf w) = in_config cf (run_op fuel op w).
Proof.
  intros Hcf. destruct op; cbn [run_op].
  - rewrite !run_bind, settings_execute by done.
    by destruct (execute fuel command context w) as [[r|e|] w'].
  - rewrite !run_bind, settings_executeOffline by apply Hcf.
    by destruct (executeOffline command context w) as [[r|e|] w'].
  - rewrite !run_bind, settings_sync by done.
    by destruct (sync fuel w) as [[r|e|] w'].
  - reflexivity.
  - reflexivity.
  - reflexivity.
  - reflexivity.
  - reflexivity.
  - reflexivity.
  - rewrite !dispose_run. unfold in_config, set_config. cbn.
    by rewrite (same_offlineStorageKey _ _ Hcf).
Qed.

Lemma settings_run_ops fuel ops : ∀ w,
  same_settings_read (config (this w)) cf →
  run_ops fuel ops (set_config cf w) = set_config cf (run_ops fuel ops w).
Proof.
  induction ops as [|op ops IH]; intros w Hcf; [reflexivity|].
  cbn [run_ops]. rewrite settings_run_op by done.
  pose proof (history_config _ _ (history_run_op fuel op w)) as Hsame.
  destruct (run_op fuel op w) as [[[]|e|] w']; unfold in_config; cbn [fst snd] in *;
    [apply IH; by rewrite Hsame|apply IH; by rewrite Hsame|reflexivity].
Qed.
End Settings.

(** X21.  Of its configuration the class reads the timeout, the storage
    key and the initial backoff only.  The settings [maxRetries],
    [enableTelemetry] and [locale], and [defaultTimeoutMs], [maxRetries],
    [backoffMultiplier] and [compressionThreshold] of the network
    configuration, change nothing: two cells that differ in them only give
    the same results and stay alike under any calls.  So metrics are
    recorded also with [enableTelemetry] false, and retries are not bounded
    by [maxRetries]. *)
Theorem unread_settings_change_nothing cf fuel c x ops w :
  same_settings_read (config (this w)) cf →
  execute fuel c x (set_config cf w) = in_config cf (execute fuel c x w)
  ∧ sync fuel (set_config cf w) = in_config cf (sync fuel w)
  ∧ run_ops fuel ops (set_config cf w) = set_config cf (run_ops fuel ops w).
Proof.
  intros Hcf. split; [by apply settings_execute|].
  split; [by apply settings_sync|by apply settings_run_ops].
Qed.

Lemma unread_settings_change_nothing_witness :
  let cf := mkConfig 0 30000 "cel_resourcereg_offline_queue" false "fr-FR"
              (mkNetworkConfig 1 0 7 1000 0) in
  let ops := [OpExecute cmd_no_key online_ctx; OpSync] in
  execute 2 cmd_no_id online_ctx (set_config cf three_queued)
  = in_config cf (execute 2 cmd_no_id online_ctx three_queued)
  ∧ sync 2 (set_config cf three_queued) = in_config cf (sync 2 three_queued)
  ∧ run_ops 2 ops (set_config cf three_queued)
    = set_config cf (run_ops 2 ops three_queued).
Proof.
  apply (unread_settings_change_nothing
           (mkConfig 0 30000 "cel_resourcereg_offline_queue" false "fr-FR"
              (mkNetworkConfig 1 0 7 1000 0))
           2 cmd_no_id online_ctx [OpExecute cmd_no_key online_ctx; OpSync]
           three_queued).
  split; reflexivity.
Defined.

(** * The calls of [execute] that [sync] makes (C4) *)

Lemma sync_log_app tr1 tr2 : sync_log (tr1 ++ tr2) = sync_log tr1 ++ sync_log tr2.
Proof. apply omap_app. Qed.

Lemma sync_log_listeners s (sl : list Handler) :
  sync_log ((λ h, StateListenerCalled h s) <$> sl) = [].
Proof. induction sl as [|a sl IH]; [done|exact IH]. Qed.

(** Reads the log off a trace that is laid out. *)
Ltac sync_log_tac :=
  eexists; split;
  [ rewrite <- ?app_assoc; reflexivity
  | rewrite ?sync_log_app, ?sync_log_listeners; reflexivity ].

Lemma executeOffline_log c x w :
  ∃ delta, trace (executeOffline c x w).2 = trace w ++ delta
           ∧ sync_log delta = [inr ("offline_queue", ctx_userId x, None)].
Proof.
  destruct w as [[st q n ms sl el cf] h tr ck dr en].
  unfold executeOffline. rewrite run_bind, transitionTo_run. run.
  cbn [trace]. sync_log_tac.
Qed.

Lemma execute_delivers_log fuel c x w :
  goes_offline x = false → online_kind c = Delivered →
  ∃ delta, trace (execute (S fuel) c x w).2 = trace w ++ delta
           ∧ sync_log delta
             = [inr ("execute", ctx_userId x, Some (js_of_opt (cmd_id c)))].
Proof.
  intros Hx Hk. apply online_kind_Delivered in Hk.
  destruct (validate_run c) as (v & Hv & _ & _ & Hvalid).
  rewrite bool_decide_eq_true_2 in Hvalid by done.
  destruct w as [[st q n ms sl el cf] h tr ck dr en].
  cbn [execute]. rewrite Hx. run.
  rewrite transitionTo_run. run. rewrite Hv, Hvalid. run.
  rewrite transitionTo_run. run.
  rewrite transitionTo_run. run.
  rewrite transitionTo_run. run.
  cbn [trace]. sync_log_tac.
Qed.

Lemma execute_throws_log fuel c x w :
  goes_offline x = false → online_kind c = Throws →
  ∃ delta, trace (execute (S fuel) c x w).2 = trace w ++ delta
           ∧ sync_log delta
             = [inr ("error", ctx_userId x, Some (js_of_opt (cmd_id c)))].
Proof.
  intros Hx Hk. apply online_kind_Throws in Hk.
  destruct (validate_run c) as (v & Hv & Hf & Hc & Hvalid).
  assert (valid v = false) as Hinvalid.
  { rewrite Hvalid. apply bool_decide_eq_false. intros Hnil.
    apply missing_fields_nil in Hnil. destruct Hnil as (_ & _ & ?). congruence. }
  destruct w as [[st q n ms sl el cf] h tr ck dr en].
  cbn [execute]. rewrite Hx. run.
  rewrite transitionTo_run. run. rewrite Hv, Hinvalid. run.
  rewrite transitionTo_run. run.
  unfold truthy. rewrite Hk. run.
  cbn [trace]. sync_log_tac.
Qed.

Lemma failed_attempt_log c x w :
  ∃ delta, trace (failed_attempt c x w).2 = trace w ++ delta
           ∧ sync_log delta
             = [inr ("error", ctx_userId x, Some (js_of_opt (cmd_id c)))].
Proof.
  destruct (validate_run c) as (v & Hv & _).
  destruct w as [[st q n ms sl el cf] h tr ck dr en].
  unfold failed_attempt. run. rewrite !transitionTo_run. run.
  rewrite Hv. run. rewrite !transitionTo_run. run.
  cbn [trace]. sync_log_tac.
Qed.

Lemma execute_retries_log fuel c x w :
  goes_offline x = false → online_kind c = RetriesForever →
  ∃ delta, trace (execute fuel c x w).2 = trace w ++ delta
           ∧ sync_log delta
             = replicate fuel
                 (inr ("error", ctx_userId x, Some (js_of_opt (cmd_id c)))).
Proof.
  intros Hx Hk. revert w. induction fuel as [|fuel IH]; intros w.
  - exists []. by rewrite app_nil_r.
  - rewrite execute_retries by done.
    destruct (failed_attempt_log c x w) as (d1 & Ht1 & Hl1).
    destruct (IH (failed_attempt c x w).2) as (d2 & Ht2 & Hl2).
    exists (d1 ++ d2). split; [by rewrite Ht2, Ht1, app_assoc|].
    by rewrite sync_log_app, Hl1, Hl2.
Qed.

Lemma replay_audit_bump e : replay_audit (bump_retryCount e) = replay_audit e.
Proof. reflexivity. Qed.

Lemma replay_script_app attempts h k ls :
  Forall (λ l, (l < length h)%nat) ls →
  replay_script attempts (h ++ k) ls = replay_script attempts h ls.
Proof.
  induction 1 as [|l ls Hl _ IH]; [done|].
  cbn [replay_script]. by rewrite kind_at_app_l, lookup_total_app_l, IH.
Qed.

Lemma replay_script_bump attempts h slot ls :
  replay_script attempts (alter bump_retryCount slot h) ls
  = replay_script attempts h ls.
Proof.
  induction ls as [|l ls IH]; [done|].
  cbn [replay_script]. rewrite kind_at_bump, IH.
  rewrite list_lookup_total_alter.
  case_decide as Hd; [|done]. destruct Hd as [-> _].
  by rewrite replay_audit_bump.
Qed.

(** The loop calls [execute] on the entries of [ls], one after the other. *)
Lemma replay_script_run fuel ls : ∀ counts u,
  Forall (λ l, (l < length (heap u))%nat) ls →
  ∃ delta, trace (replay (execute (S fuel)) ls counts u).2 = trace u ++ delta
           ∧ sync_log delta = replay_script (S fuel) (heap u) ls.
Proof.
  induction ls as [|slot rest IH]; intros counts u Hls.
  - exists []. by rewrite app_nil_r.
  - apply Forall_cons in Hls as [Hslot Hrest].
    rewrite replay_cons, replay_entry_unfold.
    cbn [replay_script]. unfold kind_at, replay_audit, replay_kind.
    cbn [heap log_event].
    set (c := entry_command (heap u !!! slot)).
    set (x := with_isOffline false (entry_context (heap u !!! slot))).
    change (ctx_userId (entry_context (heap u !!! slot))) with (ctx_userId x).
    set (u0 := log_event (ReplayStarted slot) u).
    assert (∀ counts1 u1 d1 (tail : list (loc + AuditRecord)),
              trace u1 = trace u0 ++ d1 →
              (length (heap u) ≤ length (heap u1))%nat →
              replay_script (S fuel) (heap u1) rest
              = replay_script (S fuel) (heap u) rest →
              sync_log d1 = tail →
              ∃ delta, trace (replay (execute (S fuel)) rest counts1 u1).2
                       = trace u ++ delta
                       ∧ sync_log delta
                         = inl slot :: tail ++ replay_script (S fuel) (heap u) rest)
      as Hnext.
    { intros counts1 u1 d1 tail Ht1 Hlen Hsame Hd1.
      destruct (IH counts1 u1) as (d2 & Ht2 & Hl2).
      { eapply Forall_lt_le; [exact Hlen|exact Hrest]. }
      exists ([ReplayStarted slot] ++ d1 ++ d2). split.
      - rewrite Ht2, Ht1. unfold u0. cbn [trace log_event].
        by rewrite <- !app_assoc.
      - rewrite !sync_log_app, Hl2, Hsame, Hd1. reflexivity. }
    destruct (goes_offline x) eqn:Hx.
    + cbn [execute]. rewrite Hx.
      destruct (executeOffline_log c x u0) as (d1 & Ht1 & Hl1).
      destruct (executeOffline_run c x u0)
        as (r & w1 & Hrun & _ & _ & (e & Hh & _) & _).
      rewrite Hrun in *. cbn [snd] in Ht1.
      apply (Hnext _ _ d1 [inr ("offline_queue", ctx_userId x, None)]);
        cbn [trace heap set_this]; [done| | |done].
      * rewrite Hh, length_app. unfold u0. cbn [heap log_event]. lia.
      * rewrite Hh. unfold u0. cbn [heap log_event].
        by apply replay_script_app.
    + destruct (online_kind c) eqn:Hk.
      * destruct (execute_delivers_log fuel c x u0 Hx Hk) as (d1 & Ht1 & Hl1).
        destruct (execute_delivers fuel c x u0 Hx Hk)
          as (r & w1 & Hrun & _ & _ & _ & [_ Hh _] & _).
        rewrite Hrun in *. cbn [snd] in Ht1.
        apply (Hnext _ _ d1
                 [inr ("execute", ctx_userId x, Some (js_of_opt (cmd_id c)))]);
          cbn [trace heap set_this]; [done| | |done].
        -- by rewrite Hh.
        -- by rewrite Hh.
      * by destruct (online_kind_not_Requeued c).
      * destruct (execute_throws_log fuel c x u0 Hx Hk) as (d1 & Ht1 & Hl1).
        destruct (execute_throws fuel c x u0 Hx Hk)
          as (err & w1 & Hrun & _ & _ & [_ Hh _] & _).
        rewrite Hrun in *. cbn [snd] in Ht1.
        apply (Hnext _ _ d1
                 [inr ("error", ctx_userId x, Some (js_of_opt (cmd_id c)))]);
          cbn [trace heap set_heap]; [done| | |done].
        -- rewrite length_alter, Hh. done.
        -- rewrite Hh. unfold u0. cbn [heap log_event].
           apply replay_script_bump.
      * destruct (execute_retries_log (S fuel) c x u0 Hx Hk) as (d1 & Ht1 & Hl1).
        pose proof (execute_pending (S fuel) c x u0 Hx Hk) as Hp.
        destruct (execute (S fuel) c x u0) as [[r|err|] w1]; [done|done|].
        cbn [snd] in *. exists ([ReplayStarted slot] ++ d1). split.
        -- rewrite Ht1. unfold u0. cbn [trace log_event].
           by rewrite <- !app_assoc.
        -- by rewrite sync_log_app, Hl1.
Qed.

Lemma before_replay_log w :
  ∃ delta, trace (before_replay w).2 = trace w ++ delta ∧ sync_log delta = [].
Proof.
  destruct w as [[st q n ms sl el cf] h tr ck dr en].
  unfold before_replay. rewrite run_bind, transitionTo_run. run.
  cbn [trace]. eexists. split; [reflexivity|apply sync_log_listeners].
Qed.

Lemma after_replay_log w :
  ∃ delta, trace (after_replay w).2 = trace w ++ delta ∧ sync_log delta = [].
Proof.
  destruct w as [[st q n ms sl el cf] h tr ck dr en].
  unfold after_replay. run. rewrite transitionTo_run. run.
  cbn [trace]. sync_log_tac.
Qed.

(** [sync] shows the turns of its loop and the records of the [execute]
    calls it makes, and no other record. *)
Lemma sync_script fuel w :
  Forall (λ l, (l < length (heap w))%nat) (offlineQueue (this w)) →
  ∃ delta, trace (sync (S fuel) w).2 = trace w ++ delta
           ∧ sync_log delta
             = replay_script (S fuel) (heap w)
                 (sort_by_seq (heap w) (offlineQueue (this w))).
Proof.
  intros Hq. rewrite sync_unfold.
  destruct (before_replay_log w) as (d0 & Ht0 & Hl0).
  destruct (before_replay_run w) as (t & w1 & Hrun & [_ Hh1 _] & _).
  rewrite Hrun in *. cbn [snd] in Ht0.
  destruct (replay_script_run fuel (sort_by_seq (heap w) (offlineQueue (this w)))
              (0, 0) w1) as (d1 & Ht1 & Hl1).
  { by rewrite Hh1, sort_by_seq_Permutation. }
  rewrite Hh1 in Hl1.
  destruct (replay _ _ _ w1) as [[counts|e|] w2]; cbn [snd] in Ht1.
  - destruct (after_replay_log w2) as (d2 & Ht2 & Hl2).
    destruct (after_replay_run w2) as (t' & w3 & Hrun' & _).
    rewrite Hrun' in *. cbn [snd] in *.
    exists (d0 ++ d1 ++ d2). split; [by rewrite Ht2, Ht1, Ht0, <- !app_assoc|].
    by rewrite !sync_log_app, Hl0, Hl1, Hl2, app_nil_r.
  - cbn [snd]. exists (d0 ++ d1). split; [by rewrite Ht1, Ht0, <- app_assoc|].
    by rewrite sync_log_app, Hl0, Hl1.
  - cbn [snd]. exists (d0 ++ d1). split; [by rewrite Ht1, Ht0, <- app_assoc|].
    by rewrite sync_log_app, Hl0, Hl1.
Qed.

(** Three commands enqueued on a fresh cell, with their contexts. *)
Lemma three_enqueued_entries e p c1 c2 c3 x1 x2 x3 :
  let w3 := run_ops 1 [OpExecuteOffline c1 x1; OpExecuteOffline c2 x2;
                       OpExecuteOffline c3 x3] (new_world e p) in
  ∃ e1 e2 e3,
    heap w3 = [e1; e2; e3]
    ∧ entry_command e1 = c1 ∧ entry_command e2 = c2 ∧ entry_command e3 = c3
    ∧ entry_context e1 = x1 ∧ entry_context e2 = x2 ∧ entry_context e3 = x3.
Proof.
  cbv zeta. rewrite !run_ops_enqueue. cbn [run_ops].
  destruct (executeOffline_run c1 x1 (new_world e p))
    as (r1 & w1 & -> & _ & _ & (e1 & Hh1 & Hc1 & Hx1 & _) & _).
  cbn [snd].
  destruct (executeOffline_run c2 x2 w1)
    as (r2 & w2 & -> & _ & _ & (e2 & Hh2 & Hc2 & Hx2 & _) & _).
  cbn [snd].
  destruct (executeOffline_run c3 x3 w2)
    as (r3 & w3 & -> & _ & _ & (e3 & Hh3 & Hc3 & Hx3 & _) & _).
  cbn [snd].
  exists e1, e2, e3. rewrite Hh3, Hh2, Hh1. by repeat split.
Qed.

(** The audit record of an entry is the one that the [execute] call of its
    replay leaves, once if the call settles and once per attempt if not. *)
Lemma execute_replay_audit fuel entry u :
  ∃ delta,
    trace (execute (S fuel) (entry_command entry)
             (with_isOffline false (entry_context entry)) u).2
    = trace u ++ delta
    ∧ sync_log delta
      = match replay_kind entry with
        | RetriesForever => replicate (S fuel) (inr (replay_audit entry))
        | _ => [inr (replay_audit entry)]
        end.
Proof.
  unfold replay_audit, replay_kind.
  set (c := entry_command entry).
  set (x := with_isOffline false (entry_context entry)).
  change (ctx_userId (entry_context entry)) with (ctx_userId x).
  destruct (goes_offline x) eqn:Hx.
  - cbn [execute]. rewrite Hx. apply executeOffline_log.
  - destruct (online_kind c) eqn:Hk.
    + by apply execute_delivers_log.
    + by destruct (online_kind_not_Requeued c).
    + by apply execute_throws_log.
    + by apply execute_retries_log.
Qed.


